(** * electron-automation-core: a shallow embedding and its properties

    The development follows the JavaScript sources:
    - [utils.js]            : [poll], [safeAttachDebugger], [safeDetachDebugger], [cdpSend]
    - [ProfileManager.js]   : the session registry
    - [GridManager.js]      : the grid layout of the tracked [BrowserView]s
    - [Waiter.js]           : [waitForSelector], [waitForFunction], [waitForNetworkIdle]
    - [Network.js]          : request interception over the debugger channel
    - [DialogHandler.js]    : JavaScript dialog handling over the debugger channel
    - [DownloadManager.js]  : the part of the download handler used at teardown
    - [ElectronPage.js]     : [waitForNavigation], [interceptFileChooser], [destroy]
    - [BrowserManager.js]   : [createProfile], [destroyProfile]

    JavaScript [Map]s keep insertion order, so they are association lists
    here; host objects ([BrowserView], [WebContents], its [debugger]) live in
    stores indexed by a reference, since several components hold the same
    object.  Numbers that the layout code computes with are integers ([Z]). *)

From stdpp Require Import base strings pretty list gmap.
From Stdlib Require Import ZArith Lia.

Set Default Proof Using "Type".

(* ===================================================================== *)
(** * Part I: definitions *)
(* ===================================================================== *)

(** ** JavaScript [Map] with string keys: insertion-ordered *)

Module JsMap.
Section JsMap.
Context {V : Type}.

Fixpoint get (k : string) (m : list (string * V)) : option V :=
  match m with
  | [] => None
  | (k', v) :: rest => if String.eqb k' k then Some v else get k rest
  end.

Definition has (k : string) (m : list (string * V)) : bool :=
  match get k m with Some _ => true | None => false end.

(** [Map.prototype.set]: an existing key keeps its position. *)
Fixpoint set (k : string) (v : V) (m : list (string * V)) : list (string * V) :=
  match m with
  | [] => [(k, v)]
  | (k', v') :: rest =>
      if String.eqb k' k then (k, v) :: rest else (k', v') :: set k v rest
  end.

Fixpoint delete (k : string) (m : list (string * V)) : list (string * V) :=
  match m with
  | [] => []
  | (k', v') :: rest =>
      if String.eqb k' k then rest else (k', v') :: delete k rest
  end.

Definition keys (m : list (string * V)) : list string := m.*1.
Definition size (m : list (string * V)) : nat := length m.
End JsMap.
End JsMap.

(** ** Host objects: rectangles and views *)

Record Rect := mkRect { x : Z; y : Z; width : Z; height : Z }.

Record AutoResize := mkAutoResize { ar_width : bool; ar_height : bool }.

(** The part of an [Electron.BrowserView] that the layout writes. *)
Record BrowserView := mkView { bounds : Rect; autoResize : AutoResize }.

Definition setBounds (r : Rect) (v : BrowserView) : BrowserView :=
  {| bounds := r; autoResize := autoResize v |}.

Definition setAutoResize (a : AutoResize) (v : BrowserView) : BrowserView :=
  {| bounds := bounds v; autoResize := a |}.

(** The code has no visibility flag: a view is hidden by giving it an empty
    rectangle ("Hide views that don't fit" in [_applyLayout]).  A view is
    shown when its rectangle has a positive area. *)
Definition visible (v : BrowserView) : bool :=
  (0 <? width (bounds v))%Z && (0 <? height (bounds v))%Z.

(** JavaScript truthiness of a value that is [null] or a string. *)
Definition truthy (o : option string) : bool :=
  match o with
  | None => false
  | Some s => negb (String.eqb s "")
  end.

(** ** GridManager.js *)

Module GridManager.
Local Open Scope Z_scope.

(** [this._views] maps a profile id to a view reference; the views
    themselves are in the store [gmap nat BrowserView]. [win] is
    [this._mainWindow.getContentSize()]. *)
Record t := mk {
  _views : list (string * nat);
  _cols : Z;
  _rows : Z;
  _maximizedId : option string;
}.

Definition new : t :=
  {| _views := []; _cols := 2; _rows := 2; _maximizedId := None |}.

Definition zeroRect : Rect := mkRect 0 0 0 0.

(** First loop of [_applyLayout] (a view is maximized). *)
Fixpoint layoutMaximized (winWidth winHeight : Z) (maxId : string)
    (views : list (string * nat)) (store : gmap nat BrowserView)
    : gmap nat BrowserView :=
  match views with
  | [] => store
  | (id, view) :: rest =>
      let store' :=
        if String.eqb id maxId then
          alter (fun v => setAutoResize (mkAutoResize true true)
                   (setBounds (mkRect 0 0 winWidth winHeight) v)) view store
        else
          alter (fun v => setAutoResize (mkAutoResize false false)
                   (setBounds zeroRect v)) view store in
      layoutMaximized winWidth winHeight maxId rest store'
  end.

(** Second loop of [_applyLayout] (grid); [index] is the loop counter.
    [%] is the truncated remainder [Z.rem]; [Math.floor(a / b)] is
    [Z.div]. *)
Fixpoint layoutGrid (cols rows cellWidth cellHeight : Z) (index : Z)
    (views : list (string * nat)) (store : gmap nat BrowserView)
    : gmap nat BrowserView :=
  match views with
  | [] => store
  | (_, view) :: rest =>
      if cols * rows <=? index then
        layoutGrid cols rows cellWidth cellHeight (index + 1) rest
          (alter (fun v => setAutoResize (mkAutoResize false false)
                    (setBounds zeroRect v)) view store)
      else
        let col := Z.rem index cols in
        let row := index / cols in
        layoutGrid cols rows cellWidth cellHeight (index + 1) rest
          (alter (fun v => setAutoResize (mkAutoResize false false)
                    (setBounds (mkRect (col * cellWidth) (row * cellHeight)
                                  cellWidth cellHeight) v)) view store)
  end.

(** [_applyLayout]. When [cols] or [rows] is zero the quotient is not a
    finite number in JavaScript, but then [cols * rows] is zero, every view
    takes the first branch of the loop and the cell size is never read. *)
Definition _applyLayout (win : Z * Z) (g : t) (store : gmap nat BrowserView)
    : t * gmap nat BrowserView :=
  let '(winWidth, winHeight) := win in
  match _maximizedId g with
  | Some maxId =>
      if truthy (Some maxId) then
        (g, layoutMaximized winWidth winHeight maxId (_views g) store)
      else
        (g, layoutGrid (_cols g) (_rows g) (winWidth / _cols g)
              (winHeight / _rows g) 0 (_views g) store)
  | None =>
      (g, layoutGrid (_cols g) (_rows g) (winWidth / _cols g)
            (winHeight / _rows g) 0 (_views g) store)
  end.

Definition addView (profileId : string) (view : nat) (g : t) : t :=
  {| _views := JsMap.set profileId view (_views g);
     _cols := _cols g; _rows := _rows g; _maximizedId := _maximizedId g |}.

Definition removeView (profileId : string) (g : t) : t :=
  {| _views := JsMap.delete profileId (_views g);
     _cols := _cols g; _rows := _rows g;
     _maximizedId :=
       match _maximizedId g with
       | Some m => if String.eqb m profileId then None else Some m
       | None => None
       end |}.

Definition setGrid (win : Z * Z) (cols rows : Z) (g : t)
    (store : gmap nat BrowserView) : t * gmap nat BrowserView :=
  _applyLayout win
    {| _views := _views g; _cols := cols; _rows := rows;
       _maximizedId := None |} store.

Definition autoGridDims (count : nat) : Z * Z :=
  if (count <=? 1)%nat then (1, 1)
  else if (count <=? 2)%nat then (2, 1)
  else if (count <=? 4)%nat then (2, 2)
  else if (count <=? 6)%nat then (3, 2)
  else if (count <=? 9)%nat then (3, 3)
  else (5, 2).

Definition autoGrid (win : Z * Z) (g : t) (store : gmap nat BrowserView)
    : t * gmap nat BrowserView :=
  let count := JsMap.size (_views g) in
  let '(cols, rows) := autoGridDims count in
  _applyLayout win
    {| _views := _views g; _cols := cols; _rows := rows;
       _maximizedId := None |} store.

Definition maximize (win : Z * Z) (profileId : string) (g : t)
    (store : gmap nat BrowserView) : t * gmap nat BrowserView :=
  if negb (JsMap.has profileId (_views g)) then (g, store)
  else
    _applyLayout win
      {| _views := _views g; _cols := _cols g; _rows := _rows g;
         _maximizedId := Some profileId |} store.

Definition restoreGrid (win : Z * Z) (g : t)
    (store : gmap nat BrowserView) : t * gmap nat BrowserView :=
  _applyLayout win
    {| _views := _views g; _cols := _cols g; _rows := _rows g;
       _maximizedId := None |} store.

(** [destroy] clears the tracked ids; the views are left as they are. *)
Definition destroy (g : t) : t :=
  {| _views := []; _cols := _cols g; _rows := _rows g;
     _maximizedId := _maximizedId g |}.
End GridManager.

(** ** Messages, protocol commands and listeners *)

(** A message of the debugger channel, [(method, params)], with the fields
    of [params] that the listeners read. *)
Inductive Message :=
| FetchRequestPaused (requestId resourceType : string)
| PageJavascriptDialogOpening (type message defaultPrompt url : string)
| PageFileChooserOpened (backendNodeId : Z)
| OtherMessage (method : string).

Definition methodOf (m : Message) : string :=
  match m with
  | FetchRequestPaused _ _ => "Fetch.requestPaused"
  | PageJavascriptDialogOpening _ _ _ _ => "Page.javascriptDialogOpening"
  | PageFileChooserOpened _ => "Page.fileChooserOpened"
  | OtherMessage method => method
  end.

(** The protocol commands that the code sends with [cdpSend]. *)
Inductive Cdp :=
| NetworkEnable
| NetworkDisable
| NetworkSetBlockedURLs (urls : list string)
| FetchEnableTypes (resourceTypes : list string)
| FetchEnableAll
| FetchFailRequest (requestId errorReason : string)
| FetchContinueRequest (requestId : string) (url : option string)
    (headers : option (list (string * string)))
| PageEnable
| PageHandleJavaScriptDialog (accept : bool) (promptText : string)
| PageSetInterceptFileChooserDialog (enabled : bool)
| DOMSetFileInputFiles (backendNodeId : Z) (files : list string).

(** The function objects registered on [webContents.debugger] for
    ['message']. Every call of a registering method makes a new closure; [uid]
    is its identity (listeners are compared by reference). *)
Inductive Listener :=
| OnRequestPausedBlock (uid : nat) (typesArray : list string)
| OnRequestPausedIntercept (uid : nat)
| OnDialog (uid : nat)
| FileChooserListener (uid : nat) (files : list string) (persistent : bool).

Global Instance Listener_eq_dec : EqDecision Listener.
Proof. solve_decision. Defined.

(** The event-method a listener reacts to; it returns at once on any other. *)
Definition listensTo (l : Listener) : string :=
  match l with
  | OnRequestPausedBlock _ _ => "Fetch.requestPaused"
  | OnRequestPausedIntercept _ => "Fetch.requestPaused"
  | OnDialog _ => "Page.javascriptDialogOpening"
  | FileChooserListener _ _ _ => "Page.fileChooserOpened"
  end.

(** The function objects registered on [webContents] itself. [wait] numbers
    the call of the wait that made the closure. *)
Inductive WcListener :=
| PageOnFinishLoad
| PageOnCrash
| NavOnFinish (wait : nat)
| NavOnFail (wait : nat)
| IdleOnStart (wait : nat)
| IdleOnFinish (wait : nat).

Global Instance WcListener_eq_dec : EqDecision WcListener.
Proof. solve_decision. Defined.

(** ** Calls on host objects, in the order they are made *)

Inductive Call :=
| SessionSetProxy (partition proxyRules : string)
| SessionClearStorageData (partition : string)
| SessionClearCache (partition : string)
| SessionClearAuthCache (partition : string)
| SessionOnWillDownload (wc : nat)
| SessionRemoveWillDownload (wc : nat)
| DownloadItemCancel (wc : nat) (download : string)
| WcOn (wc : nat) (event : string) (l : WcListener)
| WcRemoveListener (wc : nat) (event : string) (l : WcListener)
| WcSetUserAgent (wc : nat) (userAgent : string)
| WcInsertCSS (wc : nat)
| WcClose (wc : nat)
| SetTimeout (timer : nat) (delay : Z)
| ClearTimeout (timer : nat)
| PromiseResolve (wc : nat) (wait : nat)
| PromiseReject (wc : nat) (wait : nat) (err : string)
| DebuggerAttach (wc : nat)
| DebuggerDetach (wc : nat)
| DebuggerOn (wc : nat) (l : Listener)
| DebuggerRemoveListener (wc : nat) (l : Listener)
| DebuggerSendCommand (wc : nat) (c : Cdp)
| WindowAddBrowserView (view : nat)
| WindowRemoveBrowserView (view : nat)
| GridAddView (profileId : string) (view : nat)
| GridRemoveView (profileId : string)
| GridAutoGrid.

(** What the host does with a call: [env n c] says whether the call [c],
    made as the [n]-th call, throws (or returns a promise that rejects). *)
Definition Env := nat → Call → bool.

(** ** Methods as state transformers that may throw and that log their calls *)

Inductive Outcome (A : Type) :=
| Ok (a : A)
| Throw (err : string).
Arguments Ok {A} a.
Arguments Throw {A} err.

Definition M (S A : Type) : Type :=
  Env → list Call → S → Outcome A * list Call * S.

Global Instance M_ret {S} : MRet (M S) :=
  λ A a env tr s, (Ok a, tr, s).

Global Instance M_bind {S} : MBind (M S) :=
  λ A B f m env tr s,
    match m env tr s with
    | (Ok a, tr', s') => f a env tr' s'
    | (Throw e, tr', s') => (Throw e, tr', s')
    end.

Definition getState {S} : M S S := λ env tr s, (Ok s, tr, s).
Definition modifyState {S} (f : S → S) : M S unit := λ env tr s, (Ok tt, tr, f s).
Definition throw {S A} (err : string) : M S A := λ env tr s, (Throw err, tr, s).

(** A host call that may throw. *)
Definition host {S} (c : Call) : M S unit :=
  λ env tr s,
    if env (length tr) c then (Throw "host call failed", tr ++ [c], s)
    else (Ok tt, tr ++ [c], s).

(** A host call that does not throw ([EventEmitter.on], [removeListener]) or
    a marker of a call between components. *)
Definition note {S} (c : Call) : M S unit :=
  λ env tr s, (Ok tt, tr ++ [c], s).

(** [try { m } catch { h }] *)
Definition tryCatch {S A} (m : M S A) (h : string → M S A) : M S A :=
  λ env tr s,
    match m env tr s with
    | (Ok a, tr', s') => (Ok a, tr', s')
    | (Throw e, tr', s') => h e env tr' s'
    end.

(** Run a method of a component that is a field of the state. *)
Definition zoom {S T A} (proj : T → S) (upd : S → T → T) (m : M S A) : M T A :=
  λ env tr t,
    match m env tr (proj t) with
    | (r, tr', s') => (r, tr', upd s' t)
    end.

(** ** ProfileManager.js *)

Module ProfileManager.
Record Profile := mkProfile {
  partition : string;
  proxy : option string;
  userAgent : option string;
}.

Record Options := mkOptions {
  opt_proxy : option string;
  opt_userAgent : option string;
}.

(** [this._profiles] *)
Definition t := list (string * Profile).

Definition new : t := [].

(** [x || null] for a string or undefined [x]. *)
Definition orNull (o : option string) : option string :=
  if truthy o then o else None.

Definition create (profileId : string) (options : Options) : M t Profile :=
  let partition := ("persist:" ++ profileId)%string in
  (if truthy (opt_proxy options) then
     tryCatch (host (SessionSetProxy partition (default "" (opt_proxy options))))
       (λ _, mret tt)
   else mret tt);;
  let profile := {| partition := partition;
                    proxy := orNull (opt_proxy options);
                    userAgent := orNull (opt_userAgent options) |} in
  modifyState (JsMap.set profileId profile);;
  mret profile.

Definition get (profileId : string) (pm : t) : option Profile :=
  JsMap.get profileId pm.

Definition destroy (profileId : string) : M t unit :=
  pm ← getState;
  match JsMap.get profileId pm with
  | None => mret tt
  | Some profile =>
      tryCatch
        (host (SessionClearStorageData (partition profile));;
         host (SessionClearCache (partition profile));;
         host (SessionClearAuthCache (partition profile)))
        (λ _, mret tt);;
      modifyState (JsMap.delete profileId)
  end.

Fixpoint destroyEach (ids : list string) : M t unit :=
  match ids with
  | [] => mret tt
  | id :: rest => destroy id;; destroyEach rest
  end.

Definition list (pm : t) : Datatypes.list string := JsMap.keys pm.

Definition cleanup : M t unit :=
  pm ← getState; destroyEach (list pm).
End ProfileManager.

(** A host on which no call fails, and one on which clearing the storage
    data fails. *)
Definition envOk : Env := λ _ _, false.

Definition envStorageFails : Env :=
  λ _ c, match c with SessionClearStorageData _ => true | _ => false end.

(** ** The state of one page: its webContents and the objects built on it *)

(** [EventEmitter]: [on] appends; [removeListener] removes the most recently
    added instance of the listener. *)
Fixpoint removeLast {A} `{EqDecision A} (x : A) (l : list A) : list A :=
  match l with
  | [] => []
  | y :: rest =>
      if bool_decide (x ∈ rest) then y :: removeLast x rest
      else if bool_decide (y = x) then rest
      else y :: rest
  end.

(** The callbacks given to [setTimeout] by the waits. *)
Inductive TimerCallback :=
| NavTimeout (wait : nat)
| IdleTimeout (wait : nat)
| IdleQuiet (wait : nat).

(** The variables captured by the closures of one call of
    [waitForNavigation] or [waitForNetworkIdle], and the state of the
    promise it returned. *)
Record WaitVars := mkWaitVars {
  w_done : bool;
  w_pending : Z;
  w_timer : option nat;
  w_timeoutId : nat;
  w_idleTime : Z;
  w_settled : option (Outcome unit);
}.

(** What an interception handler returns: falsy, or an object with the
    optional fields [action], [url] and [headers]. *)
Record InterceptResult := mkInterceptResult {
  action : option string;
  res_url : option string;
  res_headers : option (list (string * string));
}.

Definition InterceptHandler := Message → Outcome (option InterceptResult).

(** The [dialog] object given to a dialog handler (without its timestamp). *)
Record Dialog := mkDialog {
  d_type : string;
  d_message : string;
  d_defaultPrompt : string;
  d_url : string;
}.

(** What a dialog handler returns: falsy, or an object with the optional
    fields [accept] and [text]. *)
Record DialogResult := mkDialogResult {
  r_accept : option bool;
  r_text : option string;
}.

Definition DialogHandlerFn := Dialog → Outcome (option DialogResult).

Record DialogOptions := mkDialogOptions {
  acceptAlerts : option bool;
  acceptConfirms : option bool;
  promptText : option string;
  acceptBeforeUnload : option bool;
  handler : option DialogHandlerFn;
}.

Record DialogDefaults := mkDialogDefaults {
  def_acceptAlerts : bool;
  def_acceptConfirms : bool;
  def_promptText : string;
  def_acceptBeforeUnload : bool;
}.

(** [x !== false] for a boolean or undefined [x]. *)
Definition notFalse (o : option bool) : bool :=
  match o with Some false => false | _ => true end.

Record NetworkState := mkNetwork {
  net_enabled : bool;
  _interceptHandler : option InterceptHandler;
  _onRequestPaused : option Listener;
}.

Record DialogState := mkDialogs {
  dlg_enabled : bool;
  dlg_handler : option DialogHandlerFn;
  _onDialog : option Listener;
  _defaultOptions : DialogDefaults;
  _dialogHistory : list Dialog;
}.

(** A download record, with the fields that teardown reads. *)
Record DownloadInfo := mkDownload {
  dl_state : string;
  dl_hasItem : bool;
  dl_listening : bool;
}.

Record DownloadState := mkDownloads {
  dls_enabled : bool;
  dls_autoAccept : bool;
  dls_handler : option (string → Outcome (option (option bool)));
  _downloads : list (string * DownloadInfo);
  _onWillDownload : bool;
  _downloadCounter : nat;
}.

Record Page := mkPage {
  (* the webContents of the view, [wcId] names it in the calls *)
  wcId : nat;
  wcListeners : list (string * WcListener);
  attached : bool;
  dbgListeners : list Listener;
  sessionListening : bool;
  (* timers and closures *)
  timers : list (nat * TimerCallback);
  waits : gmap nat WaitVars;
  nextId : nat;
  (* ElectronPage *)
  _destroyed : bool;
  disableImages : bool;
  disableAnimations : bool;
  _fileChooserListener : option Listener;
  network : NetworkState;
  dialogs : DialogState;
  downloads : DownloadState;
}.

Definition withWcListeners (f : list (string * WcListener) → list (string * WcListener))
    (p : Page) : Page :=
  mkPage (wcId p) (f (wcListeners p)) (attached p) (dbgListeners p)
    (sessionListening p) (timers p) (waits p) (nextId p) (_destroyed p)
    (disableImages p) (disableAnimations p) (_fileChooserListener p)
    (network p) (dialogs p) (downloads p).

Definition withAttached (b : bool) (p : Page) : Page :=
  mkPage (wcId p) (wcListeners p) b (dbgListeners p)
    (sessionListening p) (timers p) (waits p) (nextId p) (_destroyed p)
    (disableImages p) (disableAnimations p) (_fileChooserListener p)
    (network p) (dialogs p) (downloads p).

Definition withDbgListeners (f : list Listener → list Listener) (p : Page) : Page :=
  mkPage (wcId p) (wcListeners p) (attached p) (f (dbgListeners p))
    (sessionListening p) (timers p) (waits p) (nextId p) (_destroyed p)
    (disableImages p) (disableAnimations p) (_fileChooserListener p)
    (network p) (dialogs p) (downloads p).

Definition withSessionListening (b : bool) (p : Page) : Page :=
  mkPage (wcId p) (wcListeners p) (attached p) (dbgListeners p)
    b (timers p) (waits p) (nextId p) (_destroyed p)
    (disableImages p) (disableAnimations p) (_fileChooserListener p)
    (network p) (dialogs p) (downloads p).

Definition withTimers (f : list (nat * TimerCallback) → list (nat * TimerCallback))
    (p : Page) : Page :=
  mkPage (wcId p) (wcListeners p) (attached p) (dbgListeners p)
    (sessionListening p) (f (timers p)) (waits p) (nextId p) (_destroyed p)
    (disableImages p) (disableAnimations p) (_fileChooserListener p)
    (network p) (dialogs p) (downloads p).

Definition withWaits (f : gmap nat WaitVars → gmap nat WaitVars) (p : Page) : Page :=
  mkPage (wcId p) (wcListeners p) (attached p) (dbgListeners p)
    (sessionListening p) (timers p) (f (waits p)) (nextId p) (_destroyed p)
    (disableImages p) (disableAnimations p) (_fileChooserListener p)
    (network p) (dialogs p) (downloads p).

Definition withNextId (n : nat) (p : Page) : Page :=
  mkPage (wcId p) (wcListeners p) (attached p) (dbgListeners p)
    (sessionListening p) (timers p) (waits p) n (_destroyed p)
    (disableImages p) (disableAnimations p) (_fileChooserListener p)
    (network p) (dialogs p) (downloads p).

Definition withDestroyed (b : bool) (p : Page) : Page :=
  mkPage (wcId p) (wcListeners p) (attached p) (dbgListeners p)
    (sessionListening p) (timers p) (waits p) (nextId p) b
    (disableImages p) (disableAnimations p) (_fileChooserListener p)
    (network p) (dialogs p) (downloads p).

Definition withFileChooserListener (l : option Listener) (p : Page) : Page :=
  mkPage (wcId p) (wcListeners p) (attached p) (dbgListeners p)
    (sessionListening p) (timers p) (waits p) (nextId p) (_destroyed p)
    (disableImages p) (disableAnimations p) l
    (network p) (dialogs p) (downloads p).

Definition withNetwork (f : NetworkState → NetworkState) (p : Page) : Page :=
  mkPage (wcId p) (wcListeners p) (attached p) (dbgListeners p)
    (sessionListening p) (timers p) (waits p) (nextId p) (_destroyed p)
    (disableImages p) (disableAnimations p) (_fileChooserListener p)
    (f (network p)) (dialogs p) (downloads p).

Definition withDialogs (f : DialogState → DialogState) (p : Page) : Page :=
  mkPage (wcId p) (wcListeners p) (attached p) (dbgListeners p)
    (sessionListening p) (timers p) (waits p) (nextId p) (_destroyed p)
    (disableImages p) (disableAnimations p) (_fileChooserListener p)
    (network p) (f (dialogs p)) (downloads p).

Definition withDownloads (f : DownloadState → DownloadState) (p : Page) : Page :=
  mkPage (wcId p) (wcListeners p) (attached p) (dbgListeners p)
    (sessionListening p) (timers p) (waits p) (nextId p) (_destroyed p)
    (disableImages p) (disableAnimations p) (_fileChooserListener p)
    (network p) (dialogs p) (f (downloads p)).

(** A new closure or timer: a number not used before on this page. *)
Definition fresh : M Page nat :=
  p ← getState;
  modifyState (withNextId (S (nextId p)));;
  mret (nextId p).

(** [webContents.on(event, l)] and [webContents.removeListener(event, l)] *)
Definition wcOn (event : string) (l : WcListener) : M Page unit :=
  p ← getState;
  note (WcOn (wcId p) event l);;
  modifyState (withWcListeners (λ ls, ls ++ [(event, l)])).

Definition wcRemoveListener (event : string) (l : WcListener) : M Page unit :=
  p ← getState;
  note (WcRemoveListener (wcId p) event l);;
  modifyState (withWcListeners (removeLast (event, l))).

(** [webContents.debugger.on('message', l)] and
    [webContents.debugger.removeListener('message', l)] *)
Definition dbgOn (l : Listener) : M Page unit :=
  p ← getState;
  note (DebuggerOn (wcId p) l);;
  modifyState (withDbgListeners (λ ls, ls ++ [l])).

Definition dbgRemoveListener (l : Listener) : M Page unit :=
  p ← getState;
  note (DebuggerRemoveListener (wcId p) l);;
  modifyState (withDbgListeners (removeLast l)).

(** [setTimeout(cb, delay)] gives a new timer; [clearTimeout] of a timer that
    has fired or was cleared does nothing. When an armed timer fires is up
    to the host. *)
Definition setTimeout (cb : TimerCallback) (delay : Z) : M Page nat :=
  id ← fresh;
  note (SetTimeout id delay);;
  modifyState (withTimers (λ ts, ts ++ [(id, cb)]));;
  mret id.

Definition clearTimeout (id : nat) : M Page unit :=
  note (ClearTimeout id);;
  modifyState (withTimers (filter (λ t, t.1 ≠ id))).

(** The callback of the timer [id] when it is armed. *)
Fixpoint armed (id : nat) (ts : list (nat * TimerCallback)) : option TimerCallback :=
  match ts with
  | [] => None
  | (i, cb) :: rest => if Nat.eqb i id then Some cb else armed id rest
  end.

(** [if (timer) clearTimeout(timer)] *)
Definition clearIfSet (timer : option nat) : M Page unit :=
  match timer with
  | Some id => clearTimeout id
  | None => mret tt
  end.

Definition newWait (timeoutId : nat) (idleTime : Z) : WaitVars :=
  {| w_done := false; w_pending := 0; w_timer := None;
     w_timeoutId := timeoutId; w_idleTime := idleTime; w_settled := None |}.

Definition setDone (v : WaitVars) : WaitVars :=
  mkWaitVars true (w_pending v) (w_timer v) (w_timeoutId v) (w_idleTime v)
    (w_settled v).

Definition setPending (n : Z) (v : WaitVars) : WaitVars :=
  mkWaitVars (w_done v) n (w_timer v) (w_timeoutId v) (w_idleTime v)
    (w_settled v).

Definition setTimer (t : option nat) (v : WaitVars) : WaitVars :=
  mkWaitVars (w_done v) (w_pending v) t (w_timeoutId v) (w_idleTime v)
    (w_settled v).

Definition setSettled (o : Outcome unit) (v : WaitVars) : WaitVars :=
  mkWaitVars (w_done v) (w_pending v) (w_timer v) (w_timeoutId v) (w_idleTime v)
    (Some o).

(** [resolve()] and [reject(err)] of the promise of the wait [w]; a promise
    settles once, later calls do nothing. *)
Definition settle (w : nat) (o : Outcome unit) : M Page unit :=
  p ← getState;
  match waits p !! w with
  | Some v =>
      match w_settled v with
      | Some _ => mret tt
      | None =>
          note (match o with
                | Ok _ => PromiseResolve (wcId p) w
                | Throw e => PromiseReject (wcId p) w e
                end);;
          modifyState (withWaits (alter (setSettled o) w))
      end
  | None => mret tt
  end.

(** The events of [webContents] that the code listens to. *)
Inductive WcEvent :=
| DidStartLoading
| DidStopLoading
| DidFinishLoad
| DidFailLoad (code : Z) (desc : string)
| RenderProcessGone.

Definition eventName (ev : WcEvent) : string :=
  match ev with
  | DidStartLoading => "did-start-loading"
  | DidStopLoading => "did-stop-loading"
  | DidFinishLoad => "did-finish-load"
  | DidFailLoad _ _ => "did-fail-load"
  | RenderProcessGone => "render-process-gone"
  end.

(** ** utils.js *)

(** The values a probe returns, as far as truthiness goes. *)
Inductive JsValue :=
| JsNull
| JsUndefined
| JsBool (b : bool)
| JsNum (n : Z)
| JsStr (s : string)
| JsObj (ref : nat).

Definition jsTruthy (v : JsValue) : bool :=
  match v with
  | JsNull | JsUndefined => false
  | JsBool b => b
  | JsNum n => negb (n =? 0)%Z
  | JsStr s => negb (String.eqb s "")
  | JsObj _ => true
  end.

(** What the [k]-th call of an asynchronous function does: the value it
    resolves with or the error it rejects with, and the milliseconds it
    takes. *)
Record Attempt := mkAttempt { result : Outcome JsValue; took : Z }.

Definition Probe := nat → Attempt.

Inductive PollResult :=
| Resolved (v : JsValue)
| ProbeThrew (err : string)
| PollTimedOut (timeout : Z)
| OutOfFuel.

Module Utils.
(** *** The debugger channel *)

Definition safeAttachDebugger : M Page bool :=
  p ← getState;
  if attached p then mret true
  else
    tryCatch
      (host (DebuggerAttach (wcId p));;
       modifyState (withAttached true);;
       mret true)
      (λ _, mret false).

Definition safeDetachDebugger : M Page unit :=
  tryCatch
    (p ← getState;
     if attached p then
       host (DebuggerDetach (wcId p));;
       modifyState (withAttached false)
     else mret tt)
    (λ _, mret tt).

Definition cdpSend (c : Cdp) : M Page unit :=
  p ← getState;
  (if attached p then mret tt
   else
     ok ← safeAttachDebugger;
     if ok : bool then mret tt
     else throw "Cannot attach debugger for CDP command");;
  host (DebuggerSendCommand (wcId p) c).

(** [cdpSend(...).catch(() => {})] *)
Definition cdpSendQuiet (c : Cdp) : M Page unit :=
  tryCatch (cdpSend c) (λ _, mret tt).

(** *** [sleep] and [poll] *)

Local Open Scope Z_scope.

(** [sleep(ms)] is [setTimeout(resolve, ms)]: Node runs a timer with a
    delay below 1 after 1 ms. *)
Definition sleep (ms : Z) (now : Z) : Z := now + Z.max 1 ms.

(** The [while] loop of [poll]; [k] counts the calls of [fn], [now] is
    what [Date.now()] reads at the loop test. *)
Fixpoint pollLoop (fuel : nat) (fn : Probe) (k : nat)
    (start now timeout interval : Z) : PollResult :=
  match fuel with
  | O => OutOfFuel
  | S fuel' =>
      if now - start <? timeout then
        match result (fn k) with
        | Throw e => ProbeThrew e
        | Ok v =>
            if jsTruthy v then Resolved v
            else pollLoop fuel' fn (S k) start
                   (sleep interval (now + Z.max 0 (took (fn k))))
                   timeout interval
        end
      else PollTimedOut timeout
  end.

(** Every turn of the loop takes a millisecond or more, so the loop test
    fails after [timeout] turns at the latest. *)
Definition poll (fn : Probe) (now : Z) (timeout interval : Z) : PollResult :=
  pollLoop (S (Z.to_nat timeout)) fn 0 now now timeout interval.

(** Milliseconds between the call of [poll] and the loop test before the
    [k]-th call of [fn]. *)
Fixpoint elapsed (fn : Probe) (interval : Z) (k : nat) : Z :=
  match k with
  | O => 0
  | S k' => elapsed fn interval k' + Z.max 0 (took (fn k')) + Z.max 1 interval
  end.

(** The [k]-th call of [fn] resolves with a falsy value. *)
Definition notReady (fn : Probe) (k : nat) : Prop :=
  ∃ u, result (fn k) = Ok u ∧ jsTruthy u = false.
End Utils.

(** ** Waiter.js: the waits built on [poll] *)

Module Waiter.
(** The probe of [waitForSelector]: [exec] is what
    [webContents.executeJavaScript] does at each call. *)
Definition selectorProbe (exec : Probe) : Probe :=
  λ k, {| result :=
            match result (exec k) with
            | Ok found => Ok (if jsTruthy found then JsBool true else JsNull)
            | Throw _ => Ok JsNull
            end;
          took := took (exec k) |}.

Definition waitForSelector (exec : Probe) (now timeout : Z) : PollResult :=
  Utils.poll (selectorProbe exec) now timeout 100.

(** The probe of [waitForFunction]: [result || null], [null] on an
    exception. *)
Definition functionProbe (exec : Probe) : Probe :=
  λ k, {| result :=
            match result (exec k) with
            | Ok r => Ok (if jsTruthy r then r else JsNull)
            | Throw _ => Ok JsNull
            end;
          took := took (exec k) |}.

Definition waitForFunction (exec : Probe) (now timeout : Z) : PollResult :=
  Utils.poll (functionProbe exec) now timeout 100.

(** The [k]-th call of [exec] throws or resolves with a falsy value. *)
Definition attemptFails (exec : Probe) (k : nat) : Prop :=
  (∃ e, result (exec k) = Throw e) ∨ Utils.notReady exec k.

(** *** [waitForNetworkIdle]: the closures *)

Definition cleanup (w : nat) : M Page unit :=
  p ← getState;
  match waits p !! w with
  | Some v =>
      clearTimeout (w_timeoutId v);;
      clearIfSet (w_timer v);;
      wcRemoveListener "did-start-loading" (IdleOnStart w);;
      wcRemoveListener "did-stop-loading" (IdleOnFinish w);;
      wcRemoveListener "did-finish-load" (IdleOnFinish w);;
      wcRemoveListener "did-fail-load" (IdleOnFinish w)
  | None => mret tt
  end.

Definition checkIdle (w : nat) : M Page unit :=
  p ← getState;
  match waits p !! w with
  | Some v =>
      if w_done v then mret tt
      else
        clearIfSet (w_timer v);;
        timer ← setTimeout (IdleQuiet w) (w_idleTime v);
        modifyState (withWaits (alter (setTimer (Some timer)) w))
  | None => mret tt
  end.

(** The callback of the timer armed by [checkIdle]. *)
Definition onQuiet (w : nat) : M Page unit :=
  p ← getState;
  match waits p !! w with
  | Some v =>
      if negb (w_done v) && (w_pending v <=? 0)%Z then
        modifyState (withWaits (alter setDone w));;
        cleanup w;;
        settle w (Ok tt)
      else mret tt
  | None => mret tt
  end.

(** The callback of the outer timer. *)
Definition onTimeout (w : nat) : M Page unit :=
  cleanup w;;
  p ← getState;
  match waits p !! w with
  | Some v =>
      if negb (w_done v) then
        modifyState (withWaits (alter setDone w));;
        settle w (Ok tt)
      else mret tt
  | None => mret tt
  end.

Definition onStart (w : nat) : M Page unit :=
  p ← getState;
  match waits p !! w with
  | Some v =>
      modifyState (withWaits (alter (setPending (w_pending v + 1)) w));;
      clearIfSet (w_timer v)
  | None => mret tt
  end.

Definition onFinish (w : nat) : M Page unit :=
  p ← getState;
  match waits p !! w with
  | Some v =>
      modifyState (withWaits
        (alter (setPending (Z.max 0 (w_pending v - 1))) w));;
      checkIdle w
  | None => mret tt
  end.

(** [waitForNetworkIdle(timeout, idleTime)] up to the return of the
    promise; the result names the promise. *)
Definition waitForNetworkIdle (timeout idleTime : Z) : M Page nat :=
  w ← fresh;
  timeoutId ← setTimeout (IdleTimeout w) timeout;
  modifyState (withWaits (insert w (newWait timeoutId idleTime)));;
  wcOn "did-start-loading" (IdleOnStart w);;
  wcOn "did-stop-loading" (IdleOnFinish w);;
  wcOn "did-finish-load" (IdleOnFinish w);;
  wcOn "did-fail-load" (IdleOnFinish w);;
  checkIdle w;;
  mret w.
End Waiter.


(** ** Network.js *)

Module Network.
Import Utils.

Definition new : NetworkState :=
  {| net_enabled := false; _interceptHandler := None; _onRequestPaused := None |}.

Definition setEnabled (b : bool) (n : NetworkState) : NetworkState :=
  {| net_enabled := b; _interceptHandler := _interceptHandler n;
     _onRequestPaused := _onRequestPaused n |}.

Definition setInterceptHandler (h : option InterceptHandler) (n : NetworkState)
    : NetworkState :=
  {| net_enabled := net_enabled n; _interceptHandler := h;
     _onRequestPaused := _onRequestPaused n |}.

Definition setOnRequestPaused (l : option Listener) (n : NetworkState)
    : NetworkState :=
  {| net_enabled := net_enabled n; _interceptHandler := _interceptHandler n;
     _onRequestPaused := l |}.

Definition enable : M Page unit :=
  p ← getState;
  if net_enabled (network p) then mret tt
  else
    safeAttachDebugger;;
    cdpSend NetworkEnable;;
    modifyState (withNetwork (setEnabled true)).

Definition disable : M Page unit :=
  p ← getState;
  if negb (net_enabled (network p)) then mret tt
  else
    cdpSendQuiet NetworkDisable;;
    modifyState (withNetwork (setEnabled false)).

(** "Remove old listener if any" *)
Definition removeOldListener : M Page unit :=
  p ← getState;
  match _onRequestPaused (network p) with
  | Some old => dbgRemoveListener old
  | None => mret tt
  end.

(** The end of [blockResourceTypes] and of [interceptRequests]: the old
    listener is removed, the new closure [mk uid] is stored in
    [this._onRequestPaused] and registered. *)
Definition register (mk : nat → Listener) : M Page unit :=
  removeOldListener;;
  uid ← fresh;
  modifyState (withNetwork (setOnRequestPaused (Some (mk uid))));;
  dbgOn (mk uid).

Definition blockResourceTypes (typesArray : list string) : M Page unit :=
  enable;;
  cdpSend (NetworkSetBlockedURLs []);;
  cdpSend (FetchEnableTypes typesArray);;
  register (λ uid, OnRequestPausedBlock uid typesArray).

Definition interceptRequests (h : InterceptHandler) : M Page unit :=
  enable;;
  modifyState (withNetwork (setInterceptHandler (Some h)));;
  cdpSend FetchEnableAll;;
  register OnRequestPausedIntercept.

Definition destroy : M Page unit :=
  p ← getState;
  match _onRequestPaused (network p) with
  | Some l =>
      dbgRemoveListener l;;
      modifyState (withNetwork (setOnRequestPaused None))
  | None => mret tt
  end;;
  modifyState (withNetwork (setInterceptHandler None));;
  modifyState (withNetwork (setEnabled false)).

(** The body of the listener made by [blockResourceTypes]. *)
Definition onRequestPausedBlock (typesArray : list string) (m : Message)
    : M Page unit :=
  match m with
  | FetchRequestPaused requestId resourceType =>
      if bool_decide (resourceType ∈ typesArray) then
        cdpSendQuiet (FetchFailRequest requestId "BlockedByClient")
      else
        cdpSendQuiet (FetchContinueRequest requestId None None)
  | _ => mret tt
  end.

(** The body of the listener made by [interceptRequests]. *)
Definition onRequestPausedIntercept (m : Message) : M Page unit :=
  match m with
  | FetchRequestPaused requestId resourceType =>
      p ← getState;
      match _interceptHandler (network p) with
      | None => cdpSendQuiet (FetchContinueRequest requestId None None)
      | Some h =>
          tryCatch
            (match h m with
             | Throw e => throw e
             | Ok None => cdpSend (FetchContinueRequest requestId None None)
             | Ok (Some result) =>
                 if bool_decide (action result = Some "continue"%string) then
                   cdpSend (FetchContinueRequest requestId
                              (if truthy (res_url result) then res_url result
                               else None)
                              (res_headers result))
                 else if bool_decide (action result = Some "block"%string) then
                   cdpSend (FetchFailRequest requestId "BlockedByClient")
                 else mret tt
             end)
            (λ _, cdpSendQuiet (FetchContinueRequest requestId None None))
      end
  | _ => mret tt
  end.
End Network.

(** ** DialogHandler.js *)

Module DialogHandler.
Import Utils.

Definition new : DialogState :=
  {| dlg_enabled := false; dlg_handler := None; _onDialog := None;
     _defaultOptions := mkDialogDefaults true true "" true;
     _dialogHistory := [] |}.

(** The end of [enable]: the options and the new closure are stored, the
    closure is registered, [_enabled] is set. *)
Definition register (options : DialogOptions) : M Page unit :=
  uid ← fresh;
  modifyState (withDialogs (λ d,
    {| dlg_enabled := true;
       dlg_handler := handler options;
       _onDialog := Some (OnDialog uid);
       _defaultOptions :=
         {| def_acceptAlerts := notFalse (acceptAlerts options);
            def_acceptConfirms := notFalse (acceptConfirms options);
            def_promptText := default "" (promptText options);
            def_acceptBeforeUnload := notFalse (acceptBeforeUnload options) |};
       _dialogHistory := _dialogHistory d |}));;
  dbgOn (OnDialog uid).

Definition enable (options : DialogOptions) : M Page unit :=
  p ← getState;
  if dlg_enabled (dialogs p) then mret tt
  else
    safeAttachDebugger;;
    cdpSend PageEnable;;
    register options.

Definition disable : M Page unit :=
  p ← getState;
  if negb (dlg_enabled (dialogs p)) then mret tt
  else
    match _onDialog (dialogs p) with
    | Some l => dbgRemoveListener l
    | None => mret tt
    end;;
    modifyState (withDialogs (λ d,
      {| dlg_enabled := false; dlg_handler := None; _onDialog := None;
         _defaultOptions := _defaultOptions d;
         _dialogHistory := _dialogHistory d |})).

Definition clearHistory : M Page unit :=
  modifyState (withDialogs (λ d,
    {| dlg_enabled := dlg_enabled d; dlg_handler := dlg_handler d;
       _onDialog := _onDialog d; _defaultOptions := _defaultOptions d;
       _dialogHistory := [] |})).

Definition destroy : M Page unit := disable;; clearHistory.

(** The [switch (params.type)] of the listener; [accept] starts as [true]
    and no case is a default case. *)
Definition acceptByType (type : string) (d : DialogDefaults) : bool :=
  if String.eqb type "alert" then def_acceptAlerts d
  else if String.eqb type "confirm" then def_acceptConfirms d
  else if String.eqb type "prompt" then true
  else if String.eqb type "beforeunload" then def_acceptBeforeUnload d
  else true.

(** The body of the listener made by [enable]. *)
Definition onDialog (m : Message) : M Page unit :=
  match m with
  | PageJavascriptDialogOpening type message defaultPrompt url =>
      let dialog := mkDialog type message defaultPrompt url in
      modifyState (withDialogs (λ d,
        {| dlg_enabled := dlg_enabled d; dlg_handler := dlg_handler d;
           _onDialog := _onDialog d; _defaultOptions := _defaultOptions d;
           _dialogHistory := _dialogHistory d ++ [dialog] |}));;
      p ← getState;
      let defaults := _defaultOptions (dialogs p) in
      let '(accept, text) :=
        match dlg_handler (dialogs p) with
        | Some h =>
            match h dialog with
            | Ok (Some result) =>
                (notFalse (r_accept result),
                 default (def_promptText defaults) (r_text result))
            | Ok None => (true, def_promptText defaults)
            | Throw _ => (true, def_promptText defaults)
            end
        | None => (acceptByType type defaults, def_promptText defaults)
        end in
      cdpSendQuiet (PageHandleJavaScriptDialog accept text)
  | _ => mret tt
  end.
End DialogHandler.

(** ** DownloadManager.js: what [ElectronPage.destroy] runs *)

Module DownloadManager.
Definition new : DownloadState :=
  {| dls_enabled := false; dls_autoAccept := true; dls_handler := None;
     _downloads := []; _onWillDownload := false; _downloadCounter := 0 |}.

(** [enable({autoAccept, handler})]; the save path is left out. A handler
    returns a falsy value or an object whose [accept] may be missing. *)
Definition enable (autoAccept : option bool)
    (h : option (string → Outcome (option (option bool)))) : M Page unit :=
  p ← getState;
  if dls_enabled (downloads p) then mret tt
  else
    note (SessionOnWillDownload (wcId p));;
    modifyState (withSessionListening true);;
    modifyState (withDownloads (λ d,
      {| dls_enabled := true; dls_autoAccept := notFalse autoAccept;
         dls_handler := h; _downloads := _downloads d;
         _onWillDownload := true; _downloadCounter := _downloadCounter d |})).

Definition disable : M Page unit :=
  p ← getState;
  if negb (dls_enabled (downloads p)) then mret tt
  else
    (if _onWillDownload (downloads p) then
       note (SessionRemoveWillDownload (wcId p));;
       modifyState (withSessionListening false)
     else mret tt);;
    modifyState (withDownloads (λ d,
      {| dls_enabled := false; dls_autoAccept := dls_autoAccept d;
         dls_handler := dls_handler d; _downloads := _downloads d;
         _onWillDownload := false; _downloadCounter := _downloadCounter d |})).

(** "Cancel all active downloads" *)
Fixpoint cancelActive (wc : nat) (ds : list (string * DownloadInfo))
    : M Page unit :=
  match ds with
  | [] => mret tt
  | (id, info) :: rest =>
      (if String.eqb (dl_state info) "progressing" && dl_hasItem info then
         tryCatch (host (DownloadItemCancel wc id)) (λ _, mret tt)
       else mret tt);;
      cancelActive wc rest
  end.

Definition destroy : M Page unit :=
  p ← getState;
  cancelActive (wcId p) (_downloads (downloads p));;
  disable;;
  modifyState (withDownloads (λ d,
    {| dls_enabled := dls_enabled d; dls_autoAccept := dls_autoAccept d;
       dls_handler := dls_handler d; _downloads := [];
       _onWillDownload := _onWillDownload d;
       _downloadCounter := _downloadCounter d |})).

(** The ['will-download'] listener: a new record [dl_<n>], cancelled at
    once when the download is not accepted. [url] is what the handler
    sees. *)
Definition onWillDownload (url : string) : M Page unit :=
  p ← getState;
  let d := downloads p in
  let n := S (_downloadCounter d) in
  let id := ("dl_" ++ pretty n)%string in
  let accept :=
    match dls_handler d with
    | Some h =>
        match h url with
        | Ok (Some a) => notFalse a
        | Ok None => dls_autoAccept d
        | Throw _ => dls_autoAccept d
        end
    | None => dls_autoAccept d
    end in
  (if accept then mret tt else host (DownloadItemCancel (wcId p) id));;
  modifyState (withDownloads (λ d,
    {| dls_enabled := dls_enabled d; dls_autoAccept := dls_autoAccept d;
       dls_handler := dls_handler d;
       _downloads :=
         JsMap.set id
           (mkDownload (if accept then "progressing" else "cancelled") true accept)
           (_downloads d);
       _onWillDownload := _onWillDownload d;
       _downloadCounter := n |})).

(** The ['updated'] and ['done'] events of a download item; an item that
    was not accepted has no listener for them. *)
Definition onItemState (id state : string) : M Page unit :=
  modifyState (withDownloads (λ d,
    {| dls_enabled := dls_enabled d; dls_autoAccept := dls_autoAccept d;
       dls_handler := dls_handler d;
       _downloads :=
         match JsMap.get id (_downloads d) with
         | Some info =>
             if dl_listening info then
               JsMap.set id (mkDownload state (dl_hasItem info) true) (_downloads d)
             else _downloads d
         | None => _downloads d
         end;
       _onWillDownload := _onWillDownload d;
       _downloadCounter := _downloadCounter d |})).
End DownloadManager.

(** ** ElectronPage.js *)

Module ElectronPage.
Import Utils.

(** The webContents of a new view, before any listener is registered. *)
Definition blank (wc : nat) (images animations : bool) : Page :=
  {| wcId := wc; wcListeners := []; attached := false; dbgListeners := [];
     sessionListening := false; timers := []; waits := ∅; nextId := 0;
     _destroyed := false; disableImages := images;
     disableAnimations := animations; _fileChooserListener := None;
     network := Network.new; dialogs := DialogHandler.new;
     downloads := DownloadManager.new |}.

(** The constructor registers the two listeners of the page. *)
Definition constructor : M Page unit :=
  wcOn "did-finish-load" PageOnFinishLoad;;
  wcOn "render-process-gone" PageOnCrash.

Definition _applyPerformanceOptions : M Page unit :=
  p ← getState;
  if _destroyed p then mret tt
  else
    tryCatch
      ((if disableImages p then Network.blockResourceTypes ["Image"; "Media"]
        else mret tt);;
       (if disableAnimations p then host (WcInsertCSS (wcId p)) else mret tt))
      (λ _, mret tt).

(** *** [waitForNavigation]: the closures *)

Definition onFinish (w : nat) : M Page unit :=
  p ← getState;
  match waits p !! w with
  | Some v =>
      if negb (w_done v) then
        modifyState (withWaits (alter setDone w));;
        clearTimeout (w_timeoutId v);;
        wcRemoveListener "did-finish-load" (NavOnFinish w);;
        wcRemoveListener "did-fail-load" (NavOnFail w);;
        settle w (Ok tt)
      else mret tt
  | None => mret tt
  end.

Definition onFail (w : nat) (code : Z) (desc : string) : M Page unit :=
  p ← getState;
  match waits p !! w with
  | Some v =>
      if negb (w_done v) then
        modifyState (withWaits (alter setDone w));;
        clearTimeout (w_timeoutId v);;
        wcRemoveListener "did-finish-load" (NavOnFinish w);;
        wcRemoveListener "did-fail-load" (NavOnFail w);;
        if (code =? -3)%Z then settle w (Ok tt)
        else settle w (Throw ("Navigation failed: " ++ desc ++ " (code "
                                ++ pretty code ++ ")"))
      else mret tt
  | None => mret tt
  end.

(** The callback of the timer of [waitForNavigation]. *)
Definition onTimeout (w : nat) : M Page unit :=
  p ← getState;
  match waits p !! w with
  | Some v =>
      if negb (w_done v) then
        modifyState (withWaits (alter setDone w));;
        settle w (Ok tt)
      else mret tt
  | None => mret tt
  end.

(** [waitForNavigation(timeout)] up to the return of the promise; the
    result names the promise. *)
Definition waitForNavigation (timeout : Z) : M Page nat :=
  w ← fresh;
  timer ← setTimeout (NavTimeout w) timeout;
  modifyState (withWaits (insert w (newWait timer 0)));;
  wcOn "did-finish-load" (NavOnFinish w);;
  wcOn "did-fail-load" (NavOnFail w);;
  mret w.

Definition waitForNetworkIdle (timeout : Z) : M Page nat :=
  Waiter.waitForNetworkIdle timeout 500.

(** *** File chooser *)

Definition stopInterceptFileChooser : M Page unit :=
  p ← getState;
  match _fileChooserListener p with
  | Some l =>
      dbgRemoveListener l;;
      modifyState (withFileChooserListener None)
  | None => mret tt
  end;;
  cdpSendQuiet (PageSetInterceptFileChooserDialog false).

(** The end of [interceptFileChooser]: the old listener is removed, the
    new closure is stored in [this._fileChooserListener] and registered. *)
Definition register (files : list string) (persistent : bool) : M Page unit :=
  p ← getState;
  match _fileChooserListener p with
  | Some old => dbgRemoveListener old
  | None => mret tt
  end;;
  uid ← fresh;
  modifyState (withFileChooserListener
                 (Some (FileChooserListener uid files persistent)));;
  dbgOn (FileChooserListener uid files persistent).

Definition interceptFileChooser (files : list string) (persistent : bool)
    : M Page unit :=
  safeAttachDebugger;;
  cdpSend PageEnable;;
  cdpSend (PageSetInterceptFileChooserDialog true);;
  register files persistent.

(** The body of the listener made by [interceptFileChooser]. *)
Definition fileChooserListener (files : list string) (persistent : bool)
    (m : Message) : M Page unit :=
  match m with
  | PageFileChooserOpened backendNodeId =>
      cdpSendQuiet (DOMSetFileInputFiles backendNodeId files);;
      if persistent then mret tt else stopInterceptFileChooser
  | _ => mret tt
  end.

(** *** Lifecycle *)

Definition destroy : M Page unit :=
  p ← getState;
  if _destroyed p then mret tt
  else
    modifyState (withDestroyed true);;
    wcRemoveListener "did-finish-load" PageOnFinishLoad;;
    wcRemoveListener "render-process-gone" PageOnCrash;;
    Network.destroy;;
    DialogHandler.destroy;;
    DownloadManager.destroy;;
    safeDetachDebugger.
End ElectronPage.

(** ** The host side: events, timers and messages reaching the page *)

Module Host.
(** Call the listener [l] of [webContents] for the event [ev]. *)
Definition invoke (l : WcListener) (ev : WcEvent) : M Page unit :=
  match l with
  | PageOnFinishLoad => ElectronPage._applyPerformanceOptions
  | PageOnCrash => mret tt
  | NavOnFinish w => ElectronPage.onFinish w
  | NavOnFail w =>
      match ev with
      | DidFailLoad code desc => ElectronPage.onFail w code desc
      | _ => ElectronPage.onFail w 0 ""
      end
  | IdleOnStart w => Waiter.onStart w
  | IdleOnFinish w => Waiter.onFinish w
  end.

Fixpoint invokeAll (ls : list (string * WcListener)) (ev : WcEvent)
    : M Page unit :=
  match ls with
  | [] => mret tt
  | (name, l) :: rest =>
      (if String.eqb name (eventName ev) then invoke l ev else mret tt);;
      invokeAll rest ev
  end.

(** [webContents.emit(ev)]: the listeners registered for the event when it
    is emitted are called in the order of their registration. *)
Definition emit (ev : WcEvent) : M Page unit :=
  p ← getState;
  invokeAll (wcListeners p) ev.

(** An armed timer fires: it is disarmed and its callback runs. *)
Definition fire (timer : nat) : M Page unit :=
  p ← getState;
  match armed timer (timers p) with
  | Some cb =>
      modifyState (withTimers (filter (λ t, t.1 ≠ timer)));;
      match cb with
      | NavTimeout w => ElectronPage.onTimeout w
      | IdleTimeout w => Waiter.onTimeout w
      | IdleQuiet w => Waiter.onQuiet w
      end
  | None => mret tt
  end.

(** Call the listener [l] of the debugger for the message [m]. *)
Definition deliver (l : Listener) (m : Message) : M Page unit :=
  match l with
  | OnRequestPausedBlock _ typesArray => Network.onRequestPausedBlock typesArray m
  | OnRequestPausedIntercept _ => Network.onRequestPausedIntercept m
  | OnDialog _ => DialogHandler.onDialog m
  | FileChooserListener _ files persistent =>
      ElectronPage.fileChooserListener files persistent m
  end.

Fixpoint deliverAll (ls : list Listener) (m : Message) : M Page unit :=
  match ls with
  | [] => mret tt
  | l :: rest => deliver l m;; deliverAll rest m
  end.

(** The debugger emits ['message']: every listener registered at that
    moment is called. *)
Definition message (m : Message) : M Page unit :=
  p ← getState;
  deliverAll (dbgListeners p) m.
End Host.

(** ** BrowserManager.js *)

Module BrowserManager.
(** An entry of [this._profiles]: references to the view and to the page. *)
Record Entry := mkEntry { view : nat; page : nat }.

Record Options := mkOptions {
  opt_proxy : option string;
  opt_userAgent : option string;
  opt_disableImages : option bool;
  opt_disableAnimations : option bool;
}.

(** The manager with the objects it owns or reaches: the main window
    ([contentSize], [browserViews]), the views and the pages. *)
Record t := mk {
  _profiles : list (string * Entry);
  _profileManager : ProfileManager.t;
  _gridManager : GridManager.t;
  contentSize : Z * Z;
  browserViews : list nat;
  views : gmap nat BrowserView;
  pages : gmap nat Page;
  nextRef : nat;
}.

Definition new (contentSize : Z * Z) : t :=
  {| _profiles := []; _profileManager := ProfileManager.new;
     _gridManager := GridManager.new; contentSize := contentSize;
     browserViews := []; views := ∅; pages := ∅; nextRef := 0 |}.

Definition withProfiles (f : list (string * Entry) → list (string * Entry))
    (w : t) : t :=
  mk (f (_profiles w)) (_profileManager w) (_gridManager w) (contentSize w)
    (browserViews w) (views w) (pages w) (nextRef w).

Definition withProfileManager (pm : ProfileManager.t) (w : t) : t :=
  mk (_profiles w) pm (_gridManager w) (contentSize w)
    (browserViews w) (views w) (pages w) (nextRef w).

Definition withGrid (f : GridManager.t → GridManager.t) (w : t) : t :=
  mk (_profiles w) (_profileManager w) (f (_gridManager w)) (contentSize w)
    (browserViews w) (views w) (pages w) (nextRef w).

Definition withBrowserViews (f : list nat → list nat) (w : t) : t :=
  mk (_profiles w) (_profileManager w) (_gridManager w) (contentSize w)
    (f (browserViews w)) (views w) (pages w) (nextRef w).

Definition withPage (r : nat) (p : Page) (w : t) : t :=
  mk (_profiles w) (_profileManager w) (_gridManager w) (contentSize w)
    (browserViews w) (views w) (<[r := p]> (pages w)) (nextRef w).

(** [new BrowserView(...)]: a new view with its webContents. *)
Definition newBrowserView (images animations : bool) (w : t) : t :=
  mk (_profiles w) (_profileManager w) (_gridManager w) (contentSize w)
    (browserViews w)
    (<[nextRef w := mkView GridManager.zeroRect (mkAutoResize false false)]> (views w))
    (<[nextRef w := ElectronPage.blank (nextRef w) images animations]> (pages w))
    (S (nextRef w)).

(** Run a layout method of the grid manager on the views. *)
Definition layout
    (f : Z * Z → GridManager.t → gmap nat BrowserView
         → GridManager.t * gmap nat BrowserView) (w : t) : t :=
  let '(g, store) := f (contentSize w) (_gridManager w) (views w) in
  mk (_profiles w) (_profileManager w) g (contentSize w)
    (browserViews w) store (pages w) (nextRef w).

(** Run a method of the page [r]. *)
Definition onPage {A} (r : nat) (m : M Page A) : M t A :=
  λ env tr w,
    match pages w !! r with
    | Some p =>
        match m env tr p with
        | (res, tr', p') => (res, tr', withPage r p' w)
        end
    | None => (Throw "no such page", tr, w)
    end.

Definition createProfile (profileId : string) (options : Options) : M t nat :=
  w ← getState;
  match JsMap.get profileId (_profiles w) with
  | Some entry => mret (page entry)
  | None =>
      profile ← zoom _profileManager withProfileManager
                   (ProfileManager.create profileId
                      (ProfileManager.mkOptions (opt_proxy options)
                         (opt_userAgent options)));
      let view := nextRef w in
      modifyState (newBrowserView (default false (opt_disableImages options))
                     (default false (opt_disableAnimations options)));;
      (if truthy (opt_userAgent options) then
         host (WcSetUserAgent view (default "" (opt_userAgent options)))
       else mret tt);;
      host (WindowAddBrowserView view);;
      modifyState (withBrowserViews (λ vs, vs ++ [view]));;
      onPage view ElectronPage.constructor;;
      modifyState (withProfiles (JsMap.set profileId (mkEntry view view)));;
      note (GridAddView profileId view);;
      modifyState (withGrid (GridManager.addView profileId view));;
      note GridAutoGrid;;
      modifyState (layout GridManager.autoGrid);;
      mret view
  end.

(** The end of [destroyProfile]: "Destroy profile session data", the
    entry is deleted, "Re-layout remaining views". *)
Definition forgetProfile (profileId : string) : M t unit :=
  zoom _profileManager withProfileManager
    (ProfileManager.destroy profileId);;
  modifyState (withProfiles (JsMap.delete profileId));;
  w' ← getState;
  if (0 <? JsMap.size (_profiles w'))%nat then
    note GridAutoGrid;;
    modifyState (layout GridManager.autoGrid)
  else mret tt.

Definition destroyProfile (profileId : string) : M t unit :=
  w ← getState;
  match JsMap.get profileId (_profiles w) with
  | None => mret tt
  | Some entry =>
      onPage (page entry) ElectronPage.destroy;;
      note (GridRemoveView profileId);;
      modifyState (withGrid (GridManager.removeView profileId));;
      tryCatch
        (host (WindowRemoveBrowserView (view entry));;
         modifyState (withBrowserViews (filter (λ v, v ≠ view entry))))
        (λ _, mret tt);;
      tryCatch (host (WcClose (view entry))) (λ _, mret tt);;
      forgetProfile profileId
  end.

Definition getProfile (profileId : string) (w : t) : option nat :=
  page <$> JsMap.get profileId (_profiles w).

Definition listProfiles (w : t) : list string := JsMap.keys (_profiles w).

Fixpoint destroyEach (ids : list string) : M t unit :=
  match ids with
  | [] => mret tt
  | id :: rest => destroyProfile id;; destroyEach rest
  end.

Definition cleanup : M t unit :=
  w ← getState;
  destroyEach (listProfiles w);;
  modifyState (withGrid GridManager.destroy).
End BrowserManager.

(** ** Calls of the methods of a page, one after the other *)

(** The methods of a page and of its sub-objects, and what the host does to
    it. Each call runs to its end before the next one starts. *)
Inductive PageOp :=
| Construct
| NetworkEnable_
| NetworkDisable_
| BlockResourceTypes (typesArray : list string)
| InterceptRequests (h : InterceptHandler)
| NetworkDestroy
| DialogsEnable (options : DialogOptions)
| DialogsDisable
| DialogsDestroy
| DownloadsEnable (autoAccept : option bool)
    (h : option (string → Outcome (option (option bool))))
| DownloadsDisable
| DownloadsDestroy
| InterceptFileChooser (files : list string) (persistent : bool)
| StopInterceptFileChooser
| WaitForNavigation (timeout : Z)
| WaitForNetworkIdle (timeout idleTime : Z)
| PageDestroy
| HostMessage (m : Message)
| HostEmit (ev : WcEvent)
| HostFire (timer : nat)
| HostWillDownload (url : string)
| HostItemState (download state : string).

Definition runOp (op : PageOp) : M Page unit :=
  match op with
  | Construct => ElectronPage.constructor
  | NetworkEnable_ => Network.enable
  | NetworkDisable_ => Network.disable
  | BlockResourceTypes typesArray => Network.blockResourceTypes typesArray
  | InterceptRequests h => Network.interceptRequests h
  | NetworkDestroy => Network.destroy
  | DialogsEnable options => DialogHandler.enable options
  | DialogsDisable => DialogHandler.disable
  | DialogsDestroy => DialogHandler.destroy
  | DownloadsEnable autoAccept h => DownloadManager.enable autoAccept h
  | DownloadsDisable => DownloadManager.disable
  | DownloadsDestroy => DownloadManager.destroy
  | InterceptFileChooser files persistent =>
      ElectronPage.interceptFileChooser files persistent
  | StopInterceptFileChooser => ElectronPage.stopInterceptFileChooser
  | WaitForNavigation timeout => ElectronPage.waitForNavigation timeout;; mret tt
  | WaitForNetworkIdle timeout idleTime =>
      Waiter.waitForNetworkIdle timeout idleTime;; mret tt
  | PageDestroy => ElectronPage.destroy
  | HostMessage m => Host.message m
  | HostEmit ev => Host.emit ev
  | HostFire timer => Host.fire timer
  | HostWillDownload url => DownloadManager.onWillDownload url
  | HostItemState download state => DownloadManager.onItemState download state
  end.

(** A call that throws leaves the state it reached; the next call starts
    from it. *)
Fixpoint runOps (ops : list PageOp) (env : Env) (tr : list Call) (p : Page)
    : list Call * Page :=
  match ops with
  | [] => (tr, p)
  | op :: rest =>
      match runOp op env tr p with
      | (_, tr', p') => runOps rest env tr' p'
      end
  end.

(** ** The registrations on the debugger channel *)

(** The fields of a page that hold or name the listeners of the channel,
    with the name of its webContents. *)
Definition chan (p : Page)
    : nat * list Listener * option Listener * option Listener * bool
      * option Listener :=
  (wcId p, dbgListeners p, _onRequestPaused (network p), _onDialog (dialogs p),
   dlg_enabled (dialogs p), _fileChooserListener p).

(** The listener [l] is the one that the object which registered it
    remembers. *)
Definition ownedBySlot (p : Page) (l : Listener) : Prop :=
  match l with
  | OnRequestPausedBlock _ _ | OnRequestPausedIntercept _ =>
      _onRequestPaused (network p) = Some l
  | OnDialog _ =>
      _onDialog (dialogs p) = Some l ∧ dlg_enabled (dialogs p) = true
  | FileChooserListener _ _ _ => _fileChooserListener p = Some l
  end.

Definition channelInv (p : Page) : Prop :=
  NoDup (dbgListeners p) ∧ ∀ l, l ∈ dbgListeners p → ownedBySlot p l.

(** The listeners of the channel that react to [method]. *)
Definition handlersOf (method : string) (p : Page) : list Listener :=
  filter (λ l, listensTo l = method) (dbgListeners p).

(** The calls at the end of a registration: the old listener of the slot,
    if any, is removed, then the new one, [l], is added. *)
Definition replaced (wc : nat) (old : option Listener) (l : Listener) : list Call :=
  match old with
  | Some o => [DebuggerRemoveListener wc o]
  | None => []
  end ++ [DebuggerOn wc l].

(** [m] leaves the projection [proj] of the state as it is. *)
Definition keeps {S X A} (proj : S → X) (m : M S A) : Prop :=
  ∀ env tr s, proj (m env tr s).2 = proj s.

(** From a state in [P], [m] ends in a state in [Q], whether it returns or
    throws. *)
Definition triple {S A} (P : S → Prop) (m : M S A) (Q : S → Prop) : Prop :=
  ∀ env tr s, P s → Q (m env tr s).2.

(** ** Kinds of calls, for the statements about teardown *)

(** The calls that dispose of the handlers of a page: listeners removed,
    active downloads cancelled, the debugger detached. *)
Definition isDisposeCall (c : Call) : bool :=
  match c with
  | WcRemoveListener _ _ _ | DebuggerRemoveListener _ _
  | SessionRemoveWillDownload _ | DownloadItemCancel _ _
  | DebuggerDetach _ => true
  | _ => false
  end.

(** The calls that clear what a session has stored. *)
Definition isSessionClear (c : Call) : bool :=
  match c with
  | SessionClearStorageData _ | SessionClearCache _ | SessionClearAuthCache _ => true
  | _ => false
  end.

(** [m] returns normally, makes dispose calls only, and leaves the
    attachment of the debugger as it is. *)
Definition disposes (m : M Page unit) : Prop :=
  ∀ env tr p, ∃ calls p',
    m env tr p = (Ok tt, tr ++ calls, p') ∧
    forallb isDisposeCall calls = true ∧
    attached p' = attached p ∧ wcId p' = wcId p.

(** [m] returns normally, makes dispose calls only, and when the debugger
    is attached its last call is [debugger.detach()]. *)
Definition detaches (m : M Page unit) : Prop :=
  ∀ env tr p, ∃ calls p',
    m env tr p = (Ok tt, tr ++ calls, p') ∧
    forallb isDisposeCall calls = true ∧
    (attached p = true → last calls = Some (DebuggerDetach (wcId p))).

(** Two profiles made on an 800×600 window; then the page of "a" is
    destroyed through its own [destroy] and its network domain is enabled
    again, which attaches the debugger. *)
Module ManagerExample.
Import BrowserManager.
Definition options : Options := mkOptions None None None None.
Definition state (r : Outcome nat * list Call * t) : t := r.2.
Definition calls {A} (r : Outcome A * list Call * t) : list Call := r.1.2.
Definition one : Outcome nat * list Call * t :=
  createProfile "a" options envOk [] (new (800, 600)%Z).
Definition two : Outcome nat * list Call * t :=
  createProfile "b" options envOk (calls one) (state one).
Definition pageDestroyed : Outcome unit * list Call * t :=
  onPage 0 ElectronPage.destroy envOk [] (state two).
Definition reattached : Outcome unit * list Call * t :=
  onPage 0 Network.enable envOk [] pageDestroyed.2.
End ManagerExample.

(** A new page on which [waitForNavigation(timeout)], or
    [waitForNetworkIdle(timeout)], has returned its promise: the wait is
    number 0, its outer timer number 1, the quiet timer number 2. *)
Module WaitExample.
Definition navigating (env : Env) (wc : nat) (timeout : Z)
    : Outcome nat * list Call * Page :=
  ElectronPage.waitForNavigation timeout env [] (ElectronPage.blank wc false false).
Definition idling (env : Env) (wc : nat) (timeout : Z)
    : Outcome nat * list Call * Page :=
  Waiter.waitForNetworkIdle timeout 500 env [] (ElectronPage.blank wc false false).
End WaitExample.

(** An interception handler that throws, and pages with a handler
    registered: request interception, dialogs with the default options. *)
Module ChannelExample.
Definition throwing : InterceptHandler := λ _, Throw "boom".
(** A handler that answers with the action "modify" and a new URL. *)
Definition modifying : InterceptHandler :=
  λ _, Ok (Some (mkInterceptResult (Some "modify"%string)
                   (Some "https://example.org/"%string) None)).
Definition defaults : DialogOptions := mkDialogOptions None None None None None.
Definition fresh : Page := ElectronPage.blank 0 false false.
Definition intercepting : Page :=
  (runOps [InterceptRequests throwing] envOk [] fresh).2.
Definition dialogsOn : Page :=
  (runOps [DialogsEnable defaults] envOk [] fresh).2.
Definition rewriting : Page :=
  (runOps [InterceptRequests modifying] envOk [] fresh).2.
Definition blocking : Page :=
  (runOps [BlockResourceTypes ["Image"%string]] envOk [] fresh).2.
(** Three registrations for ['Fetch.requestPaused'] in sequence. *)
Definition thrice : list PageOp :=
  [BlockResourceTypes ["Image"%string]; InterceptRequests throwing;
   BlockResourceTypes ["Font"%string]].
End ChannelExample.

(** A probe that throws at its first two calls and then returns 7; each
    call takes 5 ms. *)
Definition flakyProbe : Probe :=
  λ k, {| result := if (k <? 2)%nat then Throw "not ready" else Ok (JsNum 7);
          took := 5 |}.

(** A registry holding the one profile "u1". *)
Definition registryU1 : ProfileManager.t :=
  [("u1"%string, ProfileManager.mkProfile "persist:u1" None None)].

(** Concrete layout states: two views tiled on an 800×600 window, and the
    same with the first view maximized. *)
Module GridExample.
Import GridManager.
Definition win : Z * Z := (800, 600)%Z.
Definition blank : BrowserView := mkView zeroRect (mkAutoResize false false).
Definition store0 : gmap nat BrowserView :=
  <[2%nat := blank]> (<[1%nat := blank]> (<[0%nat := blank]> ∅)).
Definition two : t := addView "b" 1 (addView "a" 0 new).
Definition three : t := addView "c" 2 two.
Definition tiled : t * gmap nat BrowserView := autoGrid win two store0.
Definition maximizedA : t * gmap nat BrowserView :=
  maximize win "a" tiled.1 tiled.2.
(** Three views on a 2×1 grid: the third one does not fit. *)
Definition threeOnTwo : t :=
  {| _views := _views three; _cols := 2; _rows := 1; _maximizedId := None |}.
End GridExample.


(* ===================================================================== *)
(** ** Geometry of the layout, and calls of the grid manager in sequence *)

(** The rectangle has no negative side and lies in a window of the given
    size. *)
Definition within (r : Rect) (winWidth winHeight : Z) : Prop :=
  (0 ≤ x r ∧ 0 ≤ y r ∧ 0 ≤ width r ∧ 0 ≤ height r ∧
   x r + width r ≤ winWidth ∧ y r + height r ≤ winHeight)%Z.

(** Two rectangles have no inner point in common: one ends where the other
    starts, along one of the axes. *)
Definition apart (r1 r2 : Rect) : Prop :=
  (x r1 + width r1 ≤ x r2 ∨ x r2 + width r2 ≤ x r1 ∨
   y r1 + height r1 ≤ y r2 ∨ y r2 + height r2 ≤ y r1)%Z.

(** What a view holds when the layout hides it, and when it is maximized. *)
Definition hiddenView : BrowserView :=
  mkView GridManager.zeroRect (mkAutoResize false false).

Definition maximizedView (winWidth winHeight : Z) : BrowserView :=
  mkView (mkRect 0 0 winWidth winHeight) (mkAutoResize true true).

(** The public methods of a grid manager and the ['resize'] event of its
    window. The state is the content size of the window, the manager and
    the views. *)
Module GridOps.
Inductive t :=
| AddView (profileId : string) (view : nat)
| RemoveView (profileId : string)
| SetGrid (cols rows : Z)
| AutoGrid
| Maximize (profileId : string)
| RestoreGrid
| Resize (winWidth winHeight : Z).

Definition State : Type := (Z * Z) * (GridManager.t * gmap nat BrowserView).

Definition run (op : t) (st : State) : State :=
  let '(win, (g, store)) := st in
  match op with
  | AddView profileId view => (win, (GridManager.addView profileId view g, store))
  | RemoveView profileId => (win, (GridManager.removeView profileId g, store))
  | SetGrid cols rows => (win, GridManager.setGrid win cols rows g store)
  | AutoGrid => (win, GridManager.autoGrid win g store)
  | Maximize profileId => (win, GridManager.maximize win profileId g store)
  | RestoreGrid => (win, GridManager.restoreGrid win g store)
  | Resize winWidth winHeight =>
      ((winWidth, winHeight),
       GridManager._applyLayout (winWidth, winHeight) g store)
  end.

Fixpoint runAll (ops : list t) (st : State) : State :=
  match ops with
  | [] => st
  | op :: rest => runAll rest (run op st)
  end.
End GridOps.

(** An interception handler that blocks every request, and a page on
    which it is registered. *)
Module InterceptExample.
Definition blockAll : InterceptHandler :=
  λ _, Ok (Some (mkInterceptResult (Some "block"%string) None None)).
Definition refusing : Page :=
  (runOps [InterceptRequests blockAll] envOk [] ChannelExample.fresh).2.
End InterceptExample.

(** The downloads that [DownloadManager.destroy] cancels: those in
    progress whose item is known. *)
Definition activeDownloads (ds : list (string * DownloadInfo)) : list string :=
  (filter (λ e, (String.eqb (dl_state e.2) "progressing" && dl_hasItem e.2) = true)
     ds).*1.

(** The methods of the download manager and the events that reach it. *)
Definition isDownloadOp (op : PageOp) : bool :=
  match op with
  | DownloadsEnable _ _ | DownloadsDisable | DownloadsDestroy
  | HostWillDownload _ | HostItemState _ _ => true
  | _ => false
  end.

(** The id given to the [n]-th download. *)
Definition downloadId (n : nat) : string := ("dl_" ++ pretty n)%string.

(** Each slot holds a listener for its own method. *)
Definition slotKinds (p : Page) : Prop :=
  (∀ l, _onRequestPaused (network p) = Some l →
        listensTo l = "Fetch.requestPaused"%string) ∧
  (∀ l, _onDialog (dialogs p) = Some l →
        listensTo l = "Page.javascriptDialogOpening"%string) ∧
  (∀ l, _fileChooserListener p = Some l →
        listensTo l = "Page.fileChooserOpened"%string).

(** A page on which one file is offered to the next file chooser, and one
    on which request interception and the file chooser are both set up. *)
Module FileChooserExample.
Definition once : Page :=
  (runOps [InterceptFileChooser ["/tmp/a.png"%string] false] envOk []
     ChannelExample.fresh).2.
Definition busy : Page :=
  (runOps [Construct; InterceptRequests ChannelExample.throwing;
           DialogsEnable ChannelExample.defaults;
           InterceptFileChooser ["/tmp/a.png"%string] true] envOk []
     ChannelExample.fresh).2.
End FileChooserExample.

(** ** A page with one [waitForNetworkIdle] under way *)

(** The page made by [new ElectronPage(view)] with the default options, on
    which [waitForNetworkIdle] was called once: the wait is number 0, its
    outer timer number 1; the quiet timers are numbers 2, 3, ... *)
Module IdleWait.
Definition pageListeners : list (string * WcListener) :=
  [("did-finish-load"%string, PageOnFinishLoad);
   ("render-process-gone"%string, PageOnCrash)].

Definition idleListeners : list (string * WcListener) :=
  [("did-start-loading"%string, IdleOnStart 0);
   ("did-stop-loading"%string, IdleOnFinish 0);
   ("did-finish-load"%string, IdleOnFinish 0);
   ("did-fail-load"%string, IdleOnFinish 0)].

Definition page (wc : nat) (ls : list (string * WcListener))
    (ts : list (nat * TimerCallback)) (v : WaitVars) (n : nat) : Page :=
  {| wcId := wc; wcListeners := ls; attached := false; dbgListeners := [];
     sessionListening := false; timers := ts; waits := <[0%nat := v]> ∅;
     nextId := n; _destroyed := false; disableImages := false;
     disableAnimations := false; _fileChooserListener := None;
     network := Network.new; dialogs := DialogHandler.new;
     downloads := DownloadManager.new |}.

Definition quietTimer (k : nat) (isArmed : bool) : list (nat * TimerCallback) :=
  if isArmed then [(2 + k, IdleQuiet 0)] else [].

(** The wait is pending: [pending] loads were started and not finished,
    the latest quiet timer is number [2 + k]. *)
Definition active (wc : nat) (idleTime pending : Z) (k : nat) (isArmed : bool)
    : Page :=
  page wc (pageListeners ++ idleListeners)
    ((1, IdleTimeout 0) :: quietTimer k isArmed)
    (mkWaitVars false pending (Some (2 + k)) 1 idleTime None) (3 + k).

(** The promise is resolved. *)
Definition settled (wc : nat) (idleTime pending : Z) (k : nat) : Page :=
  page wc pageListeners []
    (mkWaitVars true pending (Some (2 + k)) 1 idleTime (Some (Ok tt))) (3 + k).

Definition removals (wc : nat) : list Call :=
  [WcRemoveListener wc "did-start-loading" (IdleOnStart 0);
   WcRemoveListener wc "did-stop-loading" (IdleOnFinish 0);
   WcRemoveListener wc "did-finish-load" (IdleOnFinish 0);
   WcRemoveListener wc "did-fail-load" (IdleOnFinish 0)].

(** The calls that settle a wait: listeners removed, promise resolved or
    rejected. *)
Definition isSettleCall (c : Call) : bool :=
  match c with
  | WcRemoveListener _ _ _ | PromiseResolve _ _ | PromiseReject _ _ _ => true
  | _ => false
  end.

(** What the host does while the wait is under way: events of the
    webContents and timers that fire. *)
Definition isHostStep (op : PageOp) : bool :=
  match op with
  | HostEmit _ | HostFire _ => true
  | _ => false
  end.

(** [new ElectronPage(view)] followed by [waitForNetworkIdle]. *)
Definition start (env : Env) (wc : nat) (timeout idleTime : Z) : list Call * Page :=
  runOps [Construct; WaitForNetworkIdle timeout idleTime] env []
    (ElectronPage.blank wc false false).

(** What holds between two steps of the host: the wait is pending and no
    subscription was removed, or the promise is resolved and each
    subscription was removed once. *)
Definition pendingAt (wc : nat) (idleTime : Z) (st : list Call * Page) : Prop :=
  ∃ pend k a,
    (0 ≤ pend)%Z ∧ st.2 = active wc idleTime pend k a ∧
    filter (λ c, isSettleCall c = true) st.1 = [].

Definition settledAt (wc : nat) (idleTime : Z) (st : list Call * Page) : Prop :=
  ∃ pend k,
    (0 ≤ pend)%Z ∧ st.2 = settled wc idleTime pend k ∧
    filter (λ c, isSettleCall c = true) st.1
    = removals wc ++ [PromiseResolve wc 0].
End IdleWait.

(** ** Calls of the methods of the manager, one after the other *)

(** The methods of [BrowserManager], the methods of a page reached through
    [getProfile], the layout methods of [manager.grid] and the ['resize']
    event of the window.  [grid.addView] and [grid.removeView] are left to
    the manager itself. *)
Module ManagerOps.
Import BrowserManager.

Inductive t :=
| CreateProfile (profileId : string) (options : Options)
| DestroyProfile (profileId : string)
| Cleanup
| PageCall (profileId : string) (op : PageOp)
| SetGrid (cols rows : Z)
| AutoGrid
| Maximize (profileId : string)
| RestoreGrid
| Resize (winWidth winHeight : Z).

Definition withContentSize (size : Z * Z) (w : BrowserManager.t) : BrowserManager.t :=
  mk (_profiles w) (_profileManager w) (_gridManager w) size
    (browserViews w) (views w) (pages w) (nextRef w).

Definition run (op : t) : M BrowserManager.t unit :=
  match op with
  | CreateProfile profileId options => createProfile profileId options;; mret tt
  | DestroyProfile profileId => destroyProfile profileId
  | Cleanup => cleanup
  | PageCall profileId op =>
      w ← getState;
      match getProfile profileId w with
      | Some r => onPage r (runOp op)
      | None => mret tt
      end
  | SetGrid cols rows =>
      modifyState (layout (λ win, GridManager.setGrid win cols rows))
  | AutoGrid => modifyState (layout GridManager.autoGrid)
  | Maximize profileId =>
      modifyState (layout (λ win, GridManager.maximize win profileId))
  | RestoreGrid => modifyState (layout GridManager.restoreGrid)
  | Resize winWidth winHeight =>
      modifyState (withContentSize (winWidth, winHeight));;
      modifyState (layout GridManager._applyLayout)
  end.

(** A call that throws leaves the state it reached. *)
Fixpoint runAll (ops : list t) (env : Env) (tr : list Call) (w : BrowserManager.t)
    : list Call * BrowserManager.t :=
  match ops with
  | [] => (tr, w)
  | op :: rest =>
      match run op env tr w with
      | (_, tr', w') => runAll rest env tr' w'
      end
  end.

(** The views that the grid should track: one per profile, in the order of
    the profile map. *)
Definition tracked (w : BrowserManager.t) : list (string * nat) :=
  (λ e, (e.1, view e.2)) <$> _profiles w.

(** The profile map, the grid and the stores agree. *)
Definition consistent (w : BrowserManager.t) : Prop :=
  NoDup (JsMap.keys (_profiles w)) ∧
  GridManager._views (_gridManager w) = tracked w ∧
  NoDup (tracked w).*2 ∧
  ∀ id e, (id, e) ∈ _profiles w →
    page e = view e ∧ (view e < nextRef w)%nat ∧
    is_Some (pages w !! page e) ∧ is_Some (views w !! view e).
End ManagerOps.

(** ** A page with one [waitForNavigation] under way *)

(** The page made by [new ElectronPage(view)] with the default options, on
    which [waitForNavigation] was called once: the wait is number 0, its
    timer number 1. *)
Module NavWait.
Import IdleWait.

Definition navListeners : list (string * WcListener) :=
  [("did-finish-load"%string, NavOnFinish 0);
   ("did-fail-load"%string, NavOnFail 0)].

Definition vars (done : bool) (settled : option (Outcome unit)) : WaitVars :=
  mkWaitVars done 0 None 1 0 settled.

(** The promise is pending. *)
Definition pending (wc : nat) : Page :=
  page wc (pageListeners ++ navListeners) [(1, NavTimeout 0)] (vars false None) 2.

(** A load event settled the promise with [o]. *)
Definition loaded (wc : nat) (o : Outcome unit) : Page :=
  page wc pageListeners [] (vars true (Some o)) 2.

(** The timer settled the promise. *)
Definition timedOut (wc : nat) : Page :=
  page wc (pageListeners ++ navListeners) [] (vars true (Some (Ok tt))) 2.

Definition failMessage (code : Z) (desc : string) : string :=
  ("Navigation failed: " ++ desc ++ " (code " ++ pretty code ++ ")")%string.

(** What ['did-fail-load'] settles the promise with. *)
Definition failOutcome (code : Z) (desc : string) : Outcome unit :=
  if (code =? -3)%Z then Ok tt else Throw (failMessage code desc).

Definition settleCall (wc : nat) (o : Outcome unit) : Call :=
  match o with
  | Ok _ => PromiseResolve wc 0
  | Throw err => PromiseReject wc 0 err
  end.

Definition removals (wc : nat) : list Call :=
  [WcRemoveListener wc "did-finish-load" (NavOnFinish 0);
   WcRemoveListener wc "did-fail-load" (NavOnFail 0)].

(** [new ElectronPage(view)] followed by [waitForNavigation]. *)
Definition start (env : Env) (wc : nat) (timeout : Z) : list Call * Page :=
  runOps [Construct; WaitForNavigation timeout] env []
    (ElectronPage.blank wc false false).

(** The three states of the wait between two steps of the host, with the
    steps [seen] so far. *)
Definition pendingAt (wc : nat) (st : list Call * Page) : Prop :=
  st.2 = pending wc ∧ filter (λ c, isSettleCall c = true) st.1 = [].

Definition loadedAt (wc : nat) (seen : list PageOp) (st : list Call * Page)
    : Prop :=
  ∃ o,
    st.2 = loaded wc o ∧
    filter (λ c, isSettleCall c = true) st.1 = removals wc ++ [settleCall wc o] ∧
    (o = Ok tt ∧
     (HostEmit DidFinishLoad ∈ seen ∨
      ∃ desc, HostEmit (DidFailLoad (-3) desc) ∈ seen)
     ∨
     ∃ code desc,
       HostEmit (DidFailLoad code desc) ∈ seen ∧ code ≠ (-3)%Z ∧
       o = Throw (failMessage code desc)).

Definition timedOutAt (wc : nat) (seen : list PageOp) (st : list Call * Page)
    : Prop :=
  st.2 = timedOut wc ∧
  filter (λ c, isSettleCall c = true) st.1 = [PromiseResolve wc 0] ∧
  HostFire 1 ∈ seen.
End NavWait.

(** ** The permission handlers of a session *)

(** [ElectronPage.setPermissions], [grantAllPermissions] and
    [clearPermissions] replace the two permission handlers of the session
    of the page.  The handlers are closures; they are kept as data, and
    [request] and [check] run them.  The [permissions] object is read at
    string keys only; a key maps to the string stored there, and [None]
    stands for every value that is not a string. *)
Module Permissions.

Inductive RequestHandler :=
  | RequestByMap (own : nat) (permissions : gmap string string)
  | RequestGrantAll.

Inductive CheckHandler :=
  | CheckByMap (permissions : gmap string string)
  | CheckGrantAll.

Record Session := mkSession {
  permissionRequestHandler : option RequestHandler;
  permissionCheckHandler : option CheckHandler;
}.

Definition setPermissions (own : nat) (permissions : gmap string string)
    (s : Session) : Session :=
  {| permissionRequestHandler := Some (RequestByMap own permissions);
     permissionCheckHandler := Some (CheckByMap permissions) |}.

Definition grantAllPermissions (s : Session) : Session :=
  {| permissionRequestHandler := Some RequestGrantAll;
     permissionCheckHandler := Some CheckGrantAll |}.

Definition clearPermissions (s : Session) : Session :=
  {| permissionRequestHandler := None; permissionCheckHandler := None |}.

(** The value the request handler passes to [callback] for the request of
    [permission] by the contents [wc]. *)
Definition request (h : RequestHandler) (wc : nat) (permission : string)
    : bool :=
  match h with
  | RequestByMap own permissions =>
      if decide (wc ≠ own) then false
      else
        let setting := permissions !! permission in
        if decide (setting = Some "grant"%string) then true
        else if decide (setting = Some "deny"%string) then false
        else true
  | RequestGrantAll => true
  end.

(** The value the check handler returns for [permission]; it does not
    look at the contents that ask. *)
Definition check (h : CheckHandler) (wc : nat) (permission : string) : bool :=
  match h with
  | CheckByMap permissions =>
      let setting := permissions !! permission in
      if decide (setting = Some "grant"%string) then true
      else if decide (setting = Some "deny"%string) then false
      else true
  | CheckGrantAll => true
  end.
End Permissions.
(* ===================================================================== *)
(** * Part II: properties *)
(* ===================================================================== *)

(** ** GridManager: the layout *)

Section GridManagerProps.
Import GridManager.
Local Open Scope Z_scope.

Implicit Types (store : gmap nat BrowserView) (views : list (string * nat)).

(** Both branches of the loops overwrite the two fields of the view. *)
Lemma overwrite_fmap (r : Rect) (a : AutoResize) (o : option BrowserView) :
  (fun v => setAutoResize a (setBounds r v)) <$> o
  = (fun _ => mkView r a) <$> o.
Proof. by destruct o. Qed.

Lemma layoutGrid_untouched cols rows cw ch index views store (view : nat) :
  view ∉ views.*2 →
  layoutGrid cols rows cw ch index views store !! view = store !! view.
Proof.
  revert index store.
  induction views as [|[id r] rest IH]; intros index store Hn; [done|].
  cbn [layoutGrid]. rewrite fmap_cons in Hn. apply not_elem_of_cons in Hn as [Hne Hn].
  destruct (cols * rows <=? index); rewrite IH by done;
    by rewrite lookup_alter_ne.
Qed.

Lemma layoutMaximized_untouched w h maxId views store (view : nat) :
  view ∉ views.*2 →
  layoutMaximized w h maxId views store !! view = store !! view.
Proof.
  revert store.
  induction views as [|[id r] rest IH]; intros store Hn; [done|].
  cbn [layoutMaximized]. rewrite fmap_cons in Hn. apply not_elem_of_cons in Hn as [Hne Hn].
  rewrite IH by done.
  destruct (String.eqb id maxId); by rewrite lookup_alter_ne.
Qed.

(** A tracked view ends with a value that does not depend on what it held
    before the loop. *)
Lemma layoutGrid_overwrites cols rows cw ch index views (view : nat) :
  view ∈ views.*2 →
  ∃ c, ∀ store,
    layoutGrid cols rows cw ch index views store !! view
    = (fun _ => c) <$> store !! view.
Proof.
  revert index.
  induction views as [|[id r] rest IH]; intros index Hin.
  { by apply elem_of_nil in Hin. }
  destruct (decide (view ∈ rest.*2)) as [Hrest|Hrest].
  - destruct (IH (index + 1) Hrest) as [c Hc]. exists c. intros store.
    cbn [layoutGrid].
    destruct (cols * rows <=? index); rewrite Hc;
      (destruct (decide (r = view)) as [->|Hne];
       [rewrite lookup_alter_eq; by destruct (store !! view)
       |by rewrite lookup_alter_ne]).
  - rewrite fmap_cons in Hin. apply elem_of_cons in Hin as [Heq|Hin]; [|done].
    simpl in Heq. subst r.
    destruct (cols * rows <=? index) eqn:Hidx.
    + eexists. intros store. cbn [layoutGrid]. rewrite Hidx.
      rewrite layoutGrid_untouched by done.
      rewrite lookup_alter_eq. apply overwrite_fmap.
    + eexists. intros store. cbn [layoutGrid]. rewrite Hidx.
      rewrite layoutGrid_untouched by done.
      rewrite lookup_alter_eq. apply overwrite_fmap.
Qed.

Lemma layoutMaximized_overwrites w h maxId views (view : nat) :
  view ∈ views.*2 →
  ∃ c, ∀ store,
    layoutMaximized w h maxId views store !! view
    = (fun _ => c) <$> store !! view.
Proof.
  induction views as [|[id r] rest IH]; intros Hin.
  { by apply elem_of_nil in Hin. }
  destruct (decide (view ∈ rest.*2)) as [Hrest|Hrest].
  - destruct (IH Hrest) as [c Hc]. exists c. intros store.
    cbn [layoutMaximized]. rewrite Hc.
    destruct (String.eqb id maxId);
      (destruct (decide (r = view)) as [->|Hne];
       [rewrite lookup_alter_eq; by destruct (store !! view)
       |by rewrite lookup_alter_ne]).
  - rewrite fmap_cons in Hin. apply elem_of_cons in Hin as [Heq|Hin]; [|done].
    simpl in Heq. subst r.
    destruct (String.eqb id maxId) eqn:Hid.
    + eexists. intros store. cbn [layoutMaximized]. rewrite Hid.
      rewrite layoutMaximized_untouched by done.
      rewrite lookup_alter_eq. apply overwrite_fmap.
    + eexists. intros store. cbn [layoutMaximized]. rewrite Hid.
      rewrite layoutMaximized_untouched by done.
      rewrite lookup_alter_eq. apply overwrite_fmap.
Qed.

(** The grid loop run after the maximize loop over the same tracked views
    gives what the grid loop alone gives. *)
Lemma layoutGrid_after_layoutMaximized cols rows cw ch w h maxId views store :
  layoutGrid cols rows cw ch 0 views (layoutMaximized w h maxId views store)
  = layoutGrid cols rows cw ch 0 views store.
Proof.
  apply map_eq. intros view.
  destruct (decide (view ∈ views.*2)) as [Hin|Hout].
  - destruct (layoutGrid_overwrites cols rows cw ch 0 views view Hin) as [c Hc].
    destruct (layoutMaximized_overwrites w h maxId views view Hin) as [c' Hc'].
    rewrite !Hc, Hc'. by destruct (store !! view).
  - rewrite !layoutGrid_untouched, layoutMaximized_untouched by done. done.
Qed.

(** Running the grid loop twice is running it once (a tracked id that is
    the empty string is falsy, so [maximize] with it recomputes the grid). *)
Lemma layoutGrid_idempotent cols rows cw ch views store :
  layoutGrid cols rows cw ch 0 views (layoutGrid cols rows cw ch 0 views store)
  = layoutGrid cols rows cw ch 0 views store.
Proof.
  apply map_eq. intros view.
  destruct (decide (view ∈ views.*2)) as [Hin|Hout].
  - destruct (layoutGrid_overwrites cols rows cw ch 0 views view Hin) as [c Hc].
    rewrite !Hc. by destruct (store !! view).
  - by rewrite !layoutGrid_untouched.
Qed.

(** The cell of the [i]-th tracked view, counting from the loop's
    starting [index]. *)
Lemma layoutGrid_cell cols rows cw ch index views store
    (i : nat) (id : string) (view : nat) (bv : BrowserView) :
  NoDup views.*2 →
  views !! i = Some (id, view) →
  store !! view = Some bv →
  layoutGrid cols rows cw ch index views store !! view
  = Some (if cols * rows <=? index + Z.of_nat i
          then mkView zeroRect (mkAutoResize false false)
          else mkView (mkRect (Z.rem (index + Z.of_nat i) cols * cw)
                         ((index + Z.of_nat i) / cols * ch) cw ch)
                 (mkAutoResize false false)).
Proof.
  revert index store i.
  induction views as [|[id' r] rest IH]; intros index store i Hnd Hi Hs; [done|].
  rewrite fmap_cons in Hnd. apply NoDup_cons in Hnd as [Hfresh Hnd].
  destruct i as [|i]; simpl in Hi.
  - injection Hi as -> ->. simpl in Hfresh.
    replace (index + Z.of_nat 0) with index by lia.
    cbn [layoutGrid].
    destruct (cols * rows <=? index);
      rewrite layoutGrid_untouched by done;
      by rewrite lookup_alter_eq, Hs.
  - assert (r ≠ view) as Hne.
    { intros ->. apply Hfresh. simpl.
      apply (list_elem_of_fmap_2' snd rest (id, view)); [|done].
      by eapply list_elem_of_lookup_2. }
    replace (index + Z.of_nat (S i)) with ((index + 1) + Z.of_nat i) by lia.
    cbn [layoutGrid].
    destruct (cols * rows <=? index);
      apply IH; try done; by rewrite lookup_alter_ne.
Qed.

(** C4: [autoGrid] picks the grid from the number of tracked views by the
    fixed table 1 → 1×1, 2 → 2×1, 3..4 → 2×2, 5..6 → 3×2, 7..9 → 3×3,
    10 and more → 5×2, clears [_maximizedId], and recomputes the bounds
    with the new state. *)
Theorem autoGrid_table (win : Z * Z) (g : t) store :
  let n := JsMap.size (_views g) in
  let g' := (autoGrid win g store).1 in
  ((n = 1)%nat → (_cols g', _rows g') = (1, 1)) ∧
  ((n = 2)%nat → (_cols g', _rows g') = (2, 1)) ∧
  ((3 ≤ n ≤ 4)%nat → (_cols g', _rows g') = (2, 2)) ∧
  ((5 ≤ n ≤ 6)%nat → (_cols g', _rows g') = (3, 2)) ∧
  ((7 ≤ n ≤ 9)%nat → (_cols g', _rows g') = (3, 3)) ∧
  ((10 ≤ n)%nat → (_cols g', _rows g') = (5, 2)) ∧
  _maximizedId g' = None ∧
  _views g' = _views g ∧
  autoGrid win g store = _applyLayout win g' store.
Proof.
  intros n g'. subst g'. unfold autoGrid. fold n.
  destruct win as [w h].
  assert (∀ c r, _applyLayout (w, h)
            {| _views := _views g; _cols := c; _rows := r; _maximizedId := None |} store
          = ({| _views := _views g; _cols := c; _rows := r; _maximizedId := None |},
             layoutGrid c r (w / c) (h / r) 0 (_views g) store)) as Happly by done.
  destruct (autoGridDims n) as [c r] eqn:Hd. rewrite Happly. simpl.
  unfold autoGridDims in Hd.
  repeat case_match; injection Hd as <- <-;
    repeat match goal with H : (_ <=? _)%nat = _ |- _ =>
      first [apply Nat.leb_le in H | apply Nat.leb_gt in H] end;
    repeat split; intros; first [done | lia].
Qed.

Lemma autoGrid_table_witness :
  let g' := (autoGrid GridExample.win GridExample.three GridExample.store0).1 in
  (_cols g', _rows g') = (2, 2).
Proof.
  apply (proj1 (proj2 (proj2
           (autoGrid_table GridExample.win GridExample.three GridExample.store0)))).
  simpl. lia.
Defined.

(** C6: in the recompute with no view maximized, the cell is
    [floor(winWidth / cols)] by [floor(winHeight / rows)]; the [i]-th view
    in registration order gets column [i % cols], row [floor(i / cols)]
    and the bounds [(col * cellW, row * cellH, cellW, cellH)]; a view with
    [cols * rows <= i] gets the empty rectangle and is not shown; the set
    of tracked views is unchanged. *)
Theorem applyLayout_grid_placement (winWidth winHeight : Z) (g : t) store
    (i : nat) (id : string) (view : nat) (bv : BrowserView) :
  truthy (_maximizedId g) = false →
  NoDup (_views g).*2 →
  _views g !! i = Some (id, view) →
  store !! view = Some bv →
  let cols := _cols g in
  let rows := _rows g in
  let cellW := winWidth / cols in
  let cellH := winHeight / rows in
  let col := Z.rem (Z.of_nat i) cols in
  let row := Z.of_nat i / cols in
  let g' := (_applyLayout (winWidth, winHeight) g store).1 in
  let store' := (_applyLayout (winWidth, winHeight) g store).2 in
  (Z.of_nat i < cols * rows →
     (0 < cols → col = Z.of_nat i `mod` cols) ∧
     store' !! view
     = Some (mkView (mkRect (col * cellW) (row * cellH) cellW cellH)
               (mkAutoResize false false))) ∧
  (cols * rows ≤ Z.of_nat i →
     ∃ bv', store' !! view = Some bv' ∧
            bounds bv' = mkRect 0 0 0 0 ∧ visible bv' = false) ∧
  _views g' = _views g ∧
  (∃ view', JsMap.get id (_views g') = Some view').
Proof.
  intros Hmax Hnd Hi Hs cols rows cellW cellH col row g' store'.
  assert (_applyLayout (winWidth, winHeight) g store
          = (g, layoutGrid cols rows cellW cellH 0 (_views g) store)) as Happly.
  { unfold _applyLayout. destruct (_maximizedId g) as [m|]; [|done].
    by rewrite Hmax. }
  subst g' store'. rewrite Happly. simpl.
  pose proof (layoutGrid_cell cols rows cellW cellH 0 (_views g) store
                i id view bv Hnd Hi Hs) as Hcell.
  rewrite Z.add_0_l in Hcell.
  split; [|split; [|split]].
  - intros Hlt. split.
    + intros Hc. subst col. apply Z.rem_mod_nonneg; lia.
    + rewrite Hcell. destruct (cols * rows <=? Z.of_nat i) eqn:E; [|done].
      apply Z.leb_le in E. lia.
  - intros Hge. eexists. split; [exact Hcell|].
    apply Z.leb_le in Hge. rewrite Hge. done.
  - done.
  - clear -Hi. revert i Hi.
    induction (_views g) as [|[k v] rest IH]; intros i Hi; [done|].
    simpl. destruct (String.eqb k id) eqn:E; [by eexists|].
    destruct i as [|i]; simpl in Hi.
    + injection Hi as -> ->. by rewrite String.eqb_refl in E.
    + by eapply IH.
Qed.

Lemma applyLayout_grid_placement_witness :
  let store' := (_applyLayout (800, 600) GridExample.threeOnTwo
                   GridExample.store0).2 in
  store' !! 1%nat
  = Some (mkView (mkRect 400 0 400 600) (mkAutoResize false false)) ∧
  ∃ bv', store' !! 2%nat = Some bv' ∧
         bounds bv' = mkRect 0 0 0 0 ∧ visible bv' = false.
Proof.
  split.
  - refine (proj2 (proj1 (applyLayout_grid_placement 800 600
              GridExample.threeOnTwo GridExample.store0 1 "b" 1
              GridExample.blank _ _ _ _) _));
      [reflexivity | compute_done | reflexivity | reflexivity | simpl; lia].
  - refine (proj1 (proj2 (applyLayout_grid_placement 800 600
              GridExample.threeOnTwo GridExample.store0 2 "c" 2
              GridExample.blank _ _ _ _)) _);
      [reflexivity | compute_done | reflexivity | reflexivity | simpl; lia].
Defined.

(** [maximize] then [restoreGrid] is the grid recompute with the stored
    [(cols, rows)], whatever the state was before. *)
Lemma maximize_restoreGrid_recompute (win : Z * Z) (g : t) store (id : string) :
  let st1 := maximize win id g store in
  let st2 := restoreGrid win st1.1 st1.2 in
  st2 = restoreGrid win g store.
Proof.
  destruct win as [w h]. unfold maximize, restoreGrid. simpl.
  destruct (JsMap.has id (_views g)); [|done]. simpl.
  destruct (String.eqb id "") eqn:E; simpl; f_equal.
  - apply layoutGrid_idempotent.
  - apply layoutGrid_after_layoutMaximized.
Qed.

(** C5, the claim as stated fails: with view "a" maximized, [maximize "b"]
    followed by [restoreGrid] leaves view "a" on its grid cell, not on the
    full window it had before the call. *)
Lemma maximize_restoreGrid_counterexample :
  let g := GridExample.maximizedA.1 in
  let store := GridExample.maximizedA.2 in
  let st1 := maximize GridExample.win "b" g store in
  let st2 := restoreGrid GridExample.win st1.1 st1.2 in
  JsMap.has "b" (_views g) = true ∧
  bounds <$> store !! 0%nat = Some (mkRect 0 0 800 600) ∧
  bounds <$> st2.2 !! 0%nat = Some (mkRect 0 0 400 600) ∧
  bounds <$> st2.2 !! 0%nat ≠ bounds <$> store !! 0%nat.
Proof. vm_compute. repeat split; discriminate. Qed.

(** C5, amended: when no view is maximized and the views carry the bounds
    of the grid recompute, [maximize id] on a tracked id followed by
    [restoreGrid] gives every view the bounds it had before; [maximize]
    leaves the stored [(cols, rows)] alone and [restoreGrid] recomputes
    with them. *)
Theorem maximize_restoreGrid_roundtrip (win : Z * Z) (g : t) store (id : string) :
  JsMap.has id (_views g) = true →
  truthy (_maximizedId g) = false →
  (_applyLayout win g store).2 = store →
  let st1 := maximize win id g store in
  let st2 := restoreGrid win st1.1 st1.2 in
  st2.2 = store ∧
  (_cols st1.1, _rows st1.1) = (_cols g, _rows g) ∧
  (_cols st2.1, _rows st2.1) = (_cols g, _rows g) ∧
  _views st2.1 = _views g ∧
  _maximizedId st2.1 = None.
Proof.
  intros Hhas Hmax Hcur st1 st2.
  assert (st2 = restoreGrid win g store) as Hst2
    by apply maximize_restoreGrid_recompute.
  assert ((restoreGrid win g store).2 = store) as Hsame.
  { etrans; [|exact Hcur]. destruct win as [w h].
    unfold restoreGrid, _applyLayout. cbn [_maximizedId _views _cols _rows].
    destruct (_maximizedId g) as [m|]; [|done]. by rewrite Hmax. }
  split; [by rewrite Hst2|].
  subst st1 st2. destruct win as [w h]. unfold maximize, restoreGrid.
  rewrite Hhas. simpl.
  destruct (String.eqb id ""); simpl; done.
Qed.

Lemma maximize_restoreGrid_roundtrip_witness :
  let g := GridExample.tiled.1 in
  let store := GridExample.tiled.2 in
  let st1 := maximize GridExample.win "a" g store in
  (restoreGrid GridExample.win st1.1 st1.2).2 = store.
Proof.
  refine (proj1 (maximize_restoreGrid_roundtrip GridExample.win
            GridExample.tiled.1 GridExample.tiled.2 "a" _ _ _));
    vm_compute; reflexivity.
Defined.
End GridManagerProps.

(** ** JavaScript [Map] *)

Section JsMapProps.
Context {V : Type}.
Implicit Types (m : list (string * V)) (k : string).

Lemma JsMap_get_None k m : JsMap.get k m = None ↔ k ∉ JsMap.keys m.
Proof.
  unfold JsMap.keys. induction m as [|[k' v] rest IH]; simpl.
  - split; [intros _; apply not_elem_of_nil|done].
  - destruct (String.eqb k' k) eqn:E.
    + apply String.eqb_eq in E as ->. split; [done|].
      intros H. exfalso. apply H. left.
    + apply String.eqb_neq in E. rewrite IH, not_elem_of_cons.
      split; [intros H; split; [congruence|done]|by intros [_ H]].
Qed.

(** With distinct keys, a deleted key is gone. *)
Lemma JsMap_get_delete k m :
  NoDup (JsMap.keys m) → JsMap.get k (JsMap.delete k m) = None.
Proof.
  unfold JsMap.keys. induction m as [|[k' v] rest IH]; simpl; [done|].
  intros Hnd. apply NoDup_cons in Hnd as [Hk' Hnd].
  destruct (String.eqb k' k) eqn:E; simpl.
  - apply String.eqb_eq in E as ->. by apply JsMap_get_None.
  - rewrite E. by apply IH.
Qed.

Lemma JsMap_get_set k (v : V) m : JsMap.get k (JsMap.set k v m) = Some v.
Proof.
  induction m as [|[k' v'] rest IH]; simpl.
  - by rewrite String.eqb_refl.
  - destruct (String.eqb k' k) eqn:E; simpl.
    + by rewrite String.eqb_refl.
    + by rewrite E.
Qed.

Lemma JsMap_get_delete_ne k k' m :
  k ≠ k' → JsMap.get k' (JsMap.delete k m) = JsMap.get k' m.
Proof.
  intros Hne. induction m as [|[k0 v] rest IH]; simpl; [done|].
  destruct (String.eqb k0 k) eqn:E; simpl.
  - apply String.eqb_eq in E as ->.
    apply String.eqb_neq in Hne. by rewrite Hne.
  - by rewrite IH.
Qed.
End JsMapProps.

(** ** ProfileManager: the session registry *)

Section ProfileManagerProps.
Import ProfileManager.




(** An unknown id: nothing is called and nothing changes. *)
Lemma destroy_unknown (env : Env) (tr : Datatypes.list Call) (pm : t) (id : string) :
  JsMap.get id pm = None → destroy id env tr pm = (Ok tt, tr, pm).
Proof.
  intros Hget.
  unfold destroy, mbind, M_bind, getState, mret, M_ret. by rewrite Hget.
Qed.
End ProfileManagerProps.

(** ** poll and the waits built on it *)

Section PollProps.
Import Utils Waiter.
Local Open Scope Z_scope.

Lemma elapsed_step fn interval k :
  elapsed fn interval k + 1 ≤ elapsed fn interval (S k).
Proof. simpl. lia. Qed.

Lemma elapsed_mono fn interval k n :
  elapsed fn interval k + Z.of_nat n ≤ elapsed fn interval (k + n).
Proof.
  induction n as [|n IH].
  - rewrite Nat.add_0_r. lia.
  - rewrite Nat.add_succ_r. pose proof (elapsed_step fn interval (k + n)). lia.
Qed.

Lemma elapsed_ext fn fn' interval k :
  (∀ j, took (fn j) = took (fn' j)) →
  elapsed fn interval k = elapsed fn' interval k.
Proof. intros H. induction k as [|k IH]; simpl; [done|]. by rewrite IH, H. Qed.

(** [K] attempts that are not ready, started in time, are [K] turns of
    the loop. *)
Lemma pollLoop_skip fn start timeout interval K :
  ∀ fuel k,
    (∀ j, (k ≤ j < k + K)%nat → notReady fn j) →
    elapsed fn interval (k + K) < timeout →
    pollLoop (K + fuel) fn k start (start + elapsed fn interval k)
      timeout interval
    = pollLoop fuel fn (k + K) start (start + elapsed fn interval (k + K))
        timeout interval.
Proof.
  induction K as [|K IH]; intros fuel k Hfalsy Htime.
  - by rewrite Nat.add_0_r.
  - cbn [Nat.add pollLoop].
    pose proof (elapsed_mono fn interval k (S K)) as Hmono.
    destruct (Z.ltb_spec (start + elapsed fn interval k - start) timeout) as [_|Hge];
      [|lia].
    destruct (Hfalsy k ltac:(lia)) as (u & -> & ->).
    replace (sleep interval (start + elapsed fn interval k + Z.max 0 (took (fn k))))
      with (start + elapsed fn interval (S k)) by (unfold sleep; simpl; lia).
    replace (k + S K)%nat with (S k + K)%nat in * by lia.
    apply IH; [|done]. intros j Hj. apply Hfalsy. lia.
Qed.

Lemma poll_unfold fn now timeout interval K :
  (∀ j, (j < K)%nat → notReady fn j) →
  elapsed fn interval K < timeout →
  ∃ fuel,
    poll fn now timeout interval
    = pollLoop (S fuel) fn K now (now + elapsed fn interval K) timeout interval.
Proof.
  intros Hfalsy Htime.
  pose proof (elapsed_mono fn interval 0 K) as Hmono. simpl in Hmono.
  exists (Z.to_nat timeout - K)%nat. unfold poll.
  replace (S (Z.to_nat timeout)) with (K + S (Z.to_nat timeout - K))%nat by lia.
  replace now with (now + elapsed fn interval 0) at 2 by (simpl; lia).
  rewrite (pollLoop_skip fn now timeout interval K _ 0%nat); [done| |done].
  intros j Hj. apply Hfalsy. lia.
Qed.

(** [poll] resolves with the first truthy value. *)
Lemma poll_first_truthy fn now timeout interval K v :
  (∀ j, (j < K)%nat → notReady fn j) →
  result (fn K) = Ok v → jsTruthy v = true →
  elapsed fn interval K < timeout →
  poll fn now timeout interval = Resolved v.
Proof.
  intros Hfalsy Hres Hv Htime.
  destruct (poll_unfold fn now timeout interval K Hfalsy Htime) as [fuel ->].
  cbn [pollLoop].
  destruct (Z.ltb_spec (now + elapsed fn interval K - now) timeout); [|lia].
  by rewrite Hres, Hv.
Qed.

(** [poll] has no handler around [await fn()]: an exception of the probe
    ends the wait. *)
Lemma poll_probe_throws fn now timeout interval K e :
  (∀ j, (j < K)%nat → notReady fn j) →
  result (fn K) = Throw e →
  elapsed fn interval K < timeout →
  poll fn now timeout interval = ProbeThrew e.
Proof.
  intros Hfalsy Hres Htime.
  destruct (poll_unfold fn now timeout interval K Hfalsy Htime) as [fuel ->].
  cbn [pollLoop].
  destruct (Z.ltb_spec (now + elapsed fn interval K - now) timeout); [|lia].
  by rewrite Hres.
Qed.

Lemma pollLoop_returns fn start timeout interval fuel :
  ∀ k now,
    (0 < fuel)%nat → timeout - (now - start) < Z.of_nat fuel →
    pollLoop fuel fn k start now timeout interval ≠ OutOfFuel.
Proof.
  induction fuel as [|fuel IH]; intros k now Hpos Hfuel; [lia|].
  cbn [pollLoop].
  destruct (Z.ltb_spec (now - start) timeout) as [Hlt|Hge]; [|done].
  destruct (result (fn k)) as [v|e]; [|done].
  destruct (jsTruthy v); [done|].
  apply IH; unfold sleep; lia.
Qed.

(** [poll] always returns: the fuel of the model is never used up. *)
Lemma poll_returns fn now timeout interval :
  poll fn now timeout interval ≠ OutOfFuel.
Proof. unfold poll. apply pollLoop_returns; lia. Qed.

Lemma pollLoop_no_throw fn start timeout interval fuel :
  (∀ k, ∃ v, result (fn k) = Ok v) →
  ∀ k now e, pollLoop fuel fn k start now timeout interval ≠ ProbeThrew e.
Proof.
  intros Hok. induction fuel as [|fuel IH]; intros k now e; [done|].
  cbn [pollLoop].
  destruct (now - start <? timeout); [|done].
  destruct (Hok k) as [v ->].
  destruct (jsTruthy v); [done|]. apply IH.
Qed.

Lemma functionProbe_notReady exec k :
  attemptFails exec k → notReady (Waiter.functionProbe exec) k.
Proof.
  intros [[e He]|(u & Hu & Hf)]; unfold notReady, Waiter.functionProbe; simpl.
  - rewrite He. by exists JsNull.
  - rewrite Hu, Hf. by exists JsNull.
Qed.

Lemma selectorProbe_notReady exec k :
  attemptFails exec k → notReady (Waiter.selectorProbe exec) k.
Proof.
  intros [[e He]|(u & Hu & Hf)]; unfold notReady, Waiter.selectorProbe; simpl.
  - rewrite He. by exists JsNull.
  - rewrite Hu, Hf. by exists JsNull.
Qed.

(** C7, the claim as stated fails: a probe that throws at its first call
    ends [poll] with that exception; the probe is not called again. *)
Lemma poll_retry_counterexample :
  (∀ k, (k < 2)%nat → ∃ e, result (flakyProbe k) = Throw e) ∧
  result (flakyProbe 2%nat) = Ok (JsNum 7) ∧
  poll flakyProbe 1000 3000 100 = ProbeThrew "not ready" ∧
  poll flakyProbe 1000 3000 100 ≠ Resolved (JsNum 7).
Proof.
  split; [|split; [reflexivity|split; [reflexivity|discriminate]]].
  intros k Hk. exists "not ready"%string.
  destruct k as [|[|k]]; [reflexivity|reflexivity|lia].
Qed.

(** C7, amended: [poll] returns the first truthy value of the probe when
    that attempt starts before [timeout] has elapsed, and it always
    returns; an exception of the probe is not caught by [poll] and ends
    the wait. The waits of [Waiter] catch the exception inside their
    probe and return [null]: for them a failed attempt is "not ready
    yet", the probe is called again after the interval, no exception of
    the probe ends the wait, and [K] failed attempts followed by a value
    [v] make the wait succeed (with [v] for [waitForFunction], with
    [true] for [waitForSelector]) when that attempt starts in time. *)
Theorem poll_and_guarded_waits :
  (∀ fn now timeout interval, poll fn now timeout interval ≠ OutOfFuel) ∧
  (∀ fn now timeout interval K v,
     (∀ j, (j < K)%nat → notReady fn j) →
     result (fn K) = Ok v → jsTruthy v = true →
     elapsed fn interval K < timeout →
     poll fn now timeout interval = Resolved v) ∧
  (∀ fn now timeout interval K e,
     (∀ j, (j < K)%nat → notReady fn j) →
     result (fn K) = Throw e →
     elapsed fn interval K < timeout →
     poll fn now timeout interval = ProbeThrew e) ∧
  (∀ exec now timeout K v,
     (∀ j, (j < K)%nat → attemptFails exec j) →
     result (exec K) = Ok v → jsTruthy v = true →
     elapsed exec 100 K < timeout →
     Waiter.waitForFunction exec now timeout = Resolved v ∧
     Waiter.waitForSelector exec now timeout = Resolved (JsBool true)) ∧
  (∀ exec now timeout e,
     Waiter.waitForFunction exec now timeout ≠ ProbeThrew e ∧
     Waiter.waitForSelector exec now timeout ≠ ProbeThrew e).
Proof.
  split; [apply poll_returns|].
  split; [apply poll_first_truthy|].
  split; [apply poll_probe_throws|].
  split.
  - intros exec now timeout K v Hfails Hres Hv Htime. split.
    + apply (poll_first_truthy _ now timeout 100 K v).
      * intros j Hj. by apply functionProbe_notReady, Hfails.
      * unfold Waiter.functionProbe. simpl. by rewrite Hres, Hv.
      * done.
      * by rewrite (elapsed_ext _ exec).
    + apply (poll_first_truthy _ now timeout 100 K (JsBool true)).
      * intros j Hj. by apply selectorProbe_notReady, Hfails.
      * unfold Waiter.selectorProbe. simpl. by rewrite Hres, Hv.
      * done.
      * by rewrite (elapsed_ext _ exec).
  - intros exec now timeout e. split; apply pollLoop_no_throw; intros k;
      unfold Waiter.functionProbe, Waiter.selectorProbe; simpl;
      destruct (result (exec k)); by eexists.
Qed.

Lemma poll_and_guarded_waits_witness :
  Waiter.waitForFunction flakyProbe 1000 3000 = Resolved (JsNum 7) ∧
  Waiter.waitForSelector flakyProbe 1000 3000 = Resolved (JsBool true).
Proof.
  apply (proj1 (proj2 (proj2 (proj2 poll_and_guarded_waits)))
           flakyProbe 1000 3000 2%nat (JsNum 7)).
  - intros j Hj. left. exists "not ready"%string.
    destruct j as [|[|j]]; [reflexivity|reflexivity|lia].
  - reflexivity.
  - reflexivity.
  - vm_compute. reflexivity.
Defined.
End PollProps.

(** ** BrowserManager: profiles *)

(** Unfold the monad of the methods down to the host calls. *)
Ltac unfold_monad :=
  cbv [mbind M_bind mret M_ret getState modifyState throw zoom host note
       tryCatch BrowserManager.onPage].

(** Split on every test that the current goal still branches on. *)
Ltac split_tests :=
  repeat (match goal with
          | |- context [if ?b then _ else _] => destruct b eqn:?
          | |- context [match ?x with _ => _ end] => destruct x eqn:?
          end; simpl in *; try discriminate).

Section BrowserManagerProps.
Import BrowserManager.

(** A step of a method that returns normally. *)
Lemma bind_ok {S A B} (m : M S A) (f : A → M S B) env tr s a tr' s' :
  m env tr s = (Ok a, tr', s') → (m ≫= f) env tr s = f a env tr' s'.
Proof. unfold mbind, M_bind. by intros ->. Qed.

Lemma profiles_layout f (w : t) : _profiles (layout f w) = _profiles w.
Proof. unfold layout. by destruct (f _ _ _). Qed.

(** A call of [createProfile] that returns leaves the id registered with
    the page it returns. *)
Lemma createProfile_registers env tr (w : t) id opts p tr1 w1 :
  createProfile id opts env tr w = (Ok p, tr1, w1) →
  ∃ e, JsMap.get id (_profiles w1) = Some e ∧ page e = p.
Proof.
  unfold createProfile. unfold_monad.
  cbv [ProfileManager.create ElectronPage.constructor wcOn]. unfold_monad.
  destruct (JsMap.get id (_profiles w)) as [e|] eqn:Hget.
  - intros [= <- <- <-]. eauto.
  - split_tests; intros [= <- <- <-];
      (eexists; split;
       [rewrite profiles_layout; simpl; apply JsMap_get_set|reflexivity]).
Qed.

(** C3: a call of [createProfile] for an id of the profile map returns the
    page of that entry, makes no host call and changes nothing (the
    profile map, the session registry, the views of the layout, the views
    of the window); so a second call for an id returns the handle made by
    the first and adds no surface. *)
Theorem createProfile_idempotent :
  (∀ env tr (w : t) id opts e,
     JsMap.get id (_profiles w) = Some e →
     createProfile id opts env tr w = (Ok (page e), tr, w)) ∧
  (∀ env env' tr (w : t) id opts opts' p tr1 w1,
     createProfile id opts env tr w = (Ok p, tr1, w1) →
     createProfile id opts' env' tr1 w1 = (Ok p, tr1, w1)).
Proof.
  assert (∀ env tr (w : t) id opts e,
     JsMap.get id (_profiles w) = Some e →
     createProfile id opts env tr w = (Ok (page e), tr, w)) as Hexisting.
  { intros env tr w id opts e Hget.
    unfold createProfile. unfold_monad. by rewrite Hget. }
  split; [exact Hexisting|].
  intros env env' tr w id opts opts' p tr1 w1 Hfirst.
  destruct (createProfile_registers _ _ _ _ _ _ _ _ Hfirst) as (e & Hget & <-).
  by apply Hexisting.
Qed.

Lemma createProfile_idempotent_witness :
  createProfile "a" ManagerExample.options envOk
    (ManagerExample.calls ManagerExample.one)
    (ManagerExample.state ManagerExample.one)
  = (Ok 0%nat, ManagerExample.calls ManagerExample.one,
     ManagerExample.state ManagerExample.one).
Proof.
  apply (proj2 createProfile_idempotent envOk envOk []
           (new (800, 600)%Z) "a" ManagerExample.options ManagerExample.options).
  reflexivity.
Defined.

(** *** Teardown *)

Lemma disposes_ret : disposes (mret tt).
Proof.
  intros env tr p. exists [], p. unfold mret, M_ret.
  by rewrite app_nil_r.
Qed.

Lemma disposes_bind (m : M Page unit) (k : M Page unit) :
  disposes m → disposes k → disposes (m;; k).
Proof.
  intros Hm Hk env tr p.
  destruct (Hm env tr p) as (c1 & p1 & E1 & F1 & A1 & W1).
  destruct (Hk env (tr ++ c1) p1) as (c2 & p2 & E2 & F2 & A2 & W2).
  exists (c1 ++ c2), p2. unfold mbind, M_bind. rewrite E1, E2.
  rewrite forallb_app, F1, F2, app_assoc. repeat split; congruence.
Qed.

Lemma disposes_get (k : Page → M Page unit) :
  (∀ p, disposes (k p)) → disposes (p ← getState; k p).
Proof. intros Hk env tr p. apply (Hk p env tr p). Qed.

Lemma disposes_modify (f : Page → Page) :
  (∀ p, attached (f p) = attached p ∧ wcId (f p) = wcId p) →
  disposes (modifyState f).
Proof.
  intros Hf env tr p. exists [], (f p). unfold modifyState.
  rewrite app_nil_r. destruct (Hf p). by repeat split.
Qed.

Lemma disposes_note (c : Call) : isDisposeCall c = true → disposes (note c).
Proof.
  intros Hc env tr p. exists [c], p. unfold note. simpl. by rewrite Hc.
Qed.

(** A host call inside [try { } catch { }] with an empty handler. *)
Lemma disposes_try_host (c : Call) :
  isDisposeCall c = true →
  disposes (tryCatch (host c) (λ _, mret tt)).
Proof.
  intros Hc env tr p. exists [c], p. unfold tryCatch, host, mret, M_ret.
  destruct (env (length tr) c); simpl; by rewrite Hc.
Qed.

Lemma disposes_dbgRemoveListener l : disposes (dbgRemoveListener l).
Proof.
  apply disposes_get. intros p. apply disposes_bind.
  - by apply disposes_note.
  - by apply disposes_modify.
Qed.

Lemma disposes_wcRemoveListener ev l : disposes (wcRemoveListener ev l).
Proof.
  apply disposes_get. intros p. apply disposes_bind.
  - by apply disposes_note.
  - by apply disposes_modify.
Qed.

Lemma disposes_Network_destroy : disposes Network.destroy.
Proof.
  apply disposes_get. intros p. apply disposes_bind.
  - destruct (_onRequestPaused (network p)); [|apply disposes_ret].
    apply disposes_bind; [apply disposes_dbgRemoveListener|].
    by apply disposes_modify.
  - apply disposes_bind; by apply disposes_modify.
Qed.

Lemma disposes_DialogHandler_destroy : disposes DialogHandler.destroy.
Proof.
  apply disposes_bind; [|by apply disposes_modify].
  apply disposes_get. intros p.
  destruct (negb (dlg_enabled (dialogs p))); [apply disposes_ret|].
  apply disposes_bind; [|by apply disposes_modify].
  destruct (_onDialog (dialogs p));
    [apply disposes_dbgRemoveListener|apply disposes_ret].
Qed.

Lemma disposes_cancelActive wc ds : disposes (DownloadManager.cancelActive wc ds).
Proof.
  induction ds as [|[id info] rest IH]; simpl; [apply disposes_ret|].
  apply disposes_bind; [|exact IH].
  destruct (String.eqb (dl_state info) "progressing" && dl_hasItem info);
    [by apply disposes_try_host|apply disposes_ret].
Qed.

Lemma disposes_DownloadManager_destroy : disposes DownloadManager.destroy.
Proof.
  apply disposes_get. intros p.
  apply disposes_bind; [apply disposes_cancelActive|].
  apply disposes_bind; [|by apply disposes_modify].
  apply disposes_get. intros p1.
  destruct (negb (dls_enabled (downloads p1))); [apply disposes_ret|].
  apply disposes_bind; [|by apply disposes_modify].
  destruct (_onWillDownload (downloads p1)); [|apply disposes_ret].
  apply disposes_bind; [by apply disposes_note|by apply disposes_modify].
Qed.

Lemma detaches_bind (m k : M Page unit) :
  disposes m → detaches k → detaches (m;; k).
Proof.
  intros Hm Hk env tr p.
  destruct (Hm env tr p) as (c1 & p1 & E1 & F1 & A1 & W1).
  destruct (Hk env (tr ++ c1) p1) as (c2 & p2 & E2 & F2 & L2).
  exists (c1 ++ c2), p2. unfold mbind, M_bind. rewrite E1, E2.
  rewrite forallb_app, F1, F2, app_assoc.
  split; [done|]. split; [done|].
  intros Ha. rewrite A1, W1 in L2. specialize (L2 Ha).
  by rewrite last_app, L2.
Qed.

Lemma detaches_safeDetachDebugger : detaches Utils.safeDetachDebugger.
Proof.
  intros env tr p. unfold Utils.safeDetachDebugger. unfold_monad.
  destruct (attached p) eqn:Ha.
  - destruct (env (length tr) (DebuggerDetach (wcId p)));
      eexists [_], _; by repeat split.
  - exists [], p. by rewrite app_nil_r.
Qed.

(** [ElectronPage.destroy] on a page that is not destroyed yet: it
    returns, makes dispose calls only, and calls [debugger.detach] last
    when the debugger is attached. *)
Lemma ElectronPage_destroy_spec env tr (p : Page) :
  _destroyed p = false →
  ∃ calls p',
    ElectronPage.destroy env tr p = (Ok tt, tr ++ calls, p') ∧
    forallb isDisposeCall calls = true ∧
    (attached p = true → last calls = Some (DebuggerDetach (wcId p))).
Proof.
  intros Hd.
  assert (detaches (modifyState (withDestroyed true);;
                    wcRemoveListener "did-finish-load" PageOnFinishLoad;;
                    wcRemoveListener "render-process-gone" PageOnCrash;;
                    Network.destroy;; DialogHandler.destroy;;
                    DownloadManager.destroy;; Utils.safeDetachDebugger)) as Hchain.
  { repeat (apply detaches_bind;
      [first [apply disposes_wcRemoveListener | apply disposes_Network_destroy
             | apply disposes_DialogHandler_destroy
             | apply disposes_DownloadManager_destroy
             | by apply disposes_modify]|]).
    apply detaches_safeDetachDebugger. }
  destruct (Hchain env tr p) as (calls & p' & E & F & L).
  exists calls, p'. split; [|done]. rewrite <- E.
  unfold ElectronPage.destroy.
  transitivity ((if _destroyed p then mret tt else
    (modifyState (withDestroyed true);;
     wcRemoveListener "did-finish-load" PageOnFinishLoad;;
     wcRemoveListener "render-process-gone" PageOnCrash;;
     Network.destroy;; DialogHandler.destroy;;
     DownloadManager.destroy;; Utils.safeDetachDebugger)) env tr p);
    [reflexivity|by rewrite Hd].
Qed.

Lemma ProfileManager_destroy_calls env tr (pm : ProfileManager.t) id :
  ∃ session pm',
    ProfileManager.destroy id env tr pm = (Ok tt, tr ++ session, pm') ∧
    forallb isSessionClear session = true.
Proof.
  unfold ProfileManager.destroy. unfold_monad.
  destruct (JsMap.get id pm) as [profile|].
  - split_tests; eexists _, _; rewrite <- ?app_assoc; (split; [reflexivity|done]).
  - exists [], pm. by rewrite app_nil_r.
Qed.

Lemma forgetProfile_spec env tr (w : t) id :
  ∃ session relayout w',
    forgetProfile id env tr w = (Ok tt, tr ++ session ++ relayout, w') ∧
    forallb isSessionClear session = true ∧
    (relayout = [] ∨ relayout = [GridAutoGrid]) ∧
    _profiles w' = JsMap.delete id (_profiles w).
Proof.
  destruct (ProfileManager_destroy_calls env tr (_profileManager w) id)
    as (session & pm' & Epm & Fsession).
  unfold forgetProfile. unfold_monad. rewrite Epm. simpl.
  destruct (0 <? JsMap.size (JsMap.delete id (_profiles w)))%nat.
  - eexists session, [GridAutoGrid], _. rewrite <- app_assoc.
    split; [reflexivity|]. rewrite profiles_layout. auto.
  - eexists session, [], _. rewrite app_nil_r. auto.
Qed.



End BrowserManagerProps.

(** ** The waits built on events *)

Section EventWaits.
Import ElectronPage.

Context (env : Env) (wc : nat) (timeout : Z).

Local Abbreviation started := (WaitExample.navigating env wc timeout).
Local Abbreviation idling := (WaitExample.idling env wc timeout).

(** Success: ['did-finish-load'] removes both subscriptions, once each,
    before the promise resolves. *)
Lemma waitForNavigation_finish :
  let r := Host.emit DidFinishLoad env started.1.2 started.2 in
  r.1.2 = [SetTimeout 1 timeout;
           WcOn wc "did-finish-load" (NavOnFinish 0);
           WcOn wc "did-fail-load" (NavOnFail 0);
           ClearTimeout 1;
           WcRemoveListener wc "did-finish-load" (NavOnFinish 0);
           WcRemoveListener wc "did-fail-load" (NavOnFail 0);
           PromiseResolve wc 0] ∧
  wcListeners r.2 = [] ∧ timers r.2 = [].
Proof. by vm_compute. Qed.

(** A load aborted by a redirect (code -3) counts as success. *)
Lemma waitForNavigation_aborted (desc : string) :
  let r := Host.emit (DidFailLoad (-3) desc) env started.1.2 started.2 in
  r.1.2 = [SetTimeout 1 timeout;
           WcOn wc "did-finish-load" (NavOnFinish 0);
           WcOn wc "did-fail-load" (NavOnFail 0);
           ClearTimeout 1;
           WcRemoveListener wc "did-finish-load" (NavOnFinish 0);
           WcRemoveListener wc "did-fail-load" (NavOnFail 0);
           PromiseResolve wc 0] ∧
  wcListeners r.2 = [] ∧ timers r.2 = [].
Proof. by vm_compute. Qed.

(** Any other failure rejects, after the subscriptions are removed. *)
Lemma waitForNavigation_failed (desc : string) :
  let r := Host.emit (DidFailLoad (-105) desc) env started.1.2 started.2 in
  (∃ err, r.1.2 = [SetTimeout 1 timeout;
           WcOn wc "did-finish-load" (NavOnFinish 0);
           WcOn wc "did-fail-load" (NavOnFail 0);
           ClearTimeout 1;
           WcRemoveListener wc "did-finish-load" (NavOnFinish 0);
           WcRemoveListener wc "did-fail-load" (NavOnFail 0);
           PromiseReject wc 0 err]) ∧
  wcListeners r.2 = [] ∧ timers r.2 = [].
Proof. vm_compute. split; [by eexists|done]. Qed.

(** C8, on the timeout path of [waitForNavigation]: the timer callback
    resolves the promise and removes no subscription; both listeners stay
    registered on the webContents, and no later event removes them. *)
Theorem waitForNavigation_timeout_keeps_listeners :
  let r := Host.fire 1 env started.1.2 started.2 in
  r.1.2 = [SetTimeout 1 timeout;
           WcOn wc "did-finish-load" (NavOnFinish 0);
           WcOn wc "did-fail-load" (NavOnFail 0);
           PromiseResolve wc 0] ∧
  (w_settled <$> waits r.2 !! 0%nat) = Some (Some (Ok tt)) ∧
  wcListeners r.2 = [("did-finish-load"%string, NavOnFinish 0);
                     ("did-fail-load"%string, NavOnFail 0)] ∧
  (∀ ev, Host.emit ev env r.1.2 r.2 = (Ok tt, r.1.2, r.2)).
Proof.
  split; [by vm_compute|]. split; [by vm_compute|]. split; [by vm_compute|].
  intros ev. destruct ev; by vm_compute.
Qed.

(** The quiet timer fires with nothing pending: the four subscriptions are
    removed, once each, before the promise resolves. *)
Lemma waitForNetworkIdle_quiet :
  let r := Host.fire 2 env [] idling.2 in
  r.1.2 = [ClearTimeout 1; ClearTimeout 2;
           WcRemoveListener wc "did-start-loading" (IdleOnStart 0);
           WcRemoveListener wc "did-stop-loading" (IdleOnFinish 0);
           WcRemoveListener wc "did-finish-load" (IdleOnFinish 0);
           WcRemoveListener wc "did-fail-load" (IdleOnFinish 0);
           PromiseResolve wc 0] ∧
  wcListeners r.2 = [] ∧ timers r.2 = [].
Proof. by vm_compute. Qed.

(** The outer timer fires: the same. *)
Lemma waitForNetworkIdle_timeout :
  let r := Host.fire 1 env [] idling.2 in
  r.1.2 = [ClearTimeout 1; ClearTimeout 2;
           WcRemoveListener wc "did-start-loading" (IdleOnStart 0);
           WcRemoveListener wc "did-stop-loading" (IdleOnFinish 0);
           WcRemoveListener wc "did-finish-load" (IdleOnFinish 0);
           WcRemoveListener wc "did-fail-load" (IdleOnFinish 0);
           PromiseResolve wc 0] ∧
  wcListeners r.2 = [] ∧ timers r.2 = [].
Proof. by vm_compute. Qed.
End EventWaits.

(** ** Pending items: what a listener does when its handler fails *)

Section PendingItems.

(** C9, the claim as stated fails: a dialog whose type is none of alert,
    confirm, prompt, beforeunload is accepted, not dismissed ([accept]
    starts as [true] and the [switch] has no default case). *)
Lemma unrecognized_dialog_counterexample :
  let r := Host.message (PageJavascriptDialogOpening "weird" "msg" "" "")
             envOk [] ChannelExample.dialogsOn in
  dlg_handler (dialogs ChannelExample.dialogsOn) = None ∧
  r.1 = (Ok tt, [DebuggerSendCommand 0 (PageHandleJavaScriptDialog true "")]) ∧
  (DebuggerSendCommand 0 (PageHandleJavaScriptDialog false "") ∉ r.1.2).
Proof.
  split; [reflexivity|]. split; [by vm_compute|].
  assert ((Host.message (PageJavascriptDialogOpening "weird" "msg" "" "")
             envOk [] ChannelExample.dialogsOn).1.2
          = [DebuggerSendCommand 0 (PageHandleJavaScriptDialog true "")]) as ->
    by (by vm_compute).
  apply not_elem_of_cons. split; [discriminate|apply not_elem_of_nil].
Qed.

(** A command sent over an attached debugger, failures swallowed: one call,
    the state is left as it is. *)
Lemma cdpSendQuiet_attached env tr (p : Page) (c : Cdp) :
  attached p = true →
  Utils.cdpSendQuiet c env tr p
  = (Ok tt, tr ++ [DebuggerSendCommand (wcId p) c], p).
Proof.
  intros Ha. unfold Utils.cdpSendQuiet, Utils.cdpSend. unfold_monad.
  rewrite Ha. by destruct (env _ _).
Qed.

(** C9, amended: a listener whose handler fails falls back to a default and
    sends exactly one command for the pending item. When the interception
    handler throws, the paused request is continued unmodified. A dialog
    whose type is not one of the recognized kinds, or whose custom handler
    throws, is accepted with the default prompt text. *)
Theorem pending_item_fallbacks :
  (∀ env tr (p : Page) uid h requestId resourceType e,
     attached p = true →
     _interceptHandler (network p) = Some h →
     h (FetchRequestPaused requestId resourceType) = Throw e →
     Host.deliver (OnRequestPausedIntercept uid)
       (FetchRequestPaused requestId resourceType) env tr p
     = (Ok tt,
        tr ++ [DebuggerSendCommand (wcId p)
                 (FetchContinueRequest requestId None None)], p)) ∧
  (∀ env tr (p : Page) uid type message defaultPrompt url,
     attached p = true →
     dlg_handler (dialogs p) = None →
     type ≠ "alert"%string → type ≠ "confirm"%string →
     type ≠ "prompt"%string → type ≠ "beforeunload"%string →
     ∃ p',
       Host.deliver (OnDialog uid)
         (PageJavascriptDialogOpening type message defaultPrompt url) env tr p
       = (Ok tt,
          tr ++ [DebuggerSendCommand (wcId p)
                   (PageHandleJavaScriptDialog true
                      (def_promptText (_defaultOptions (dialogs p))))], p')) ∧
  (∀ env tr (p : Page) uid h type message defaultPrompt url e,
     attached p = true →
     dlg_handler (dialogs p) = Some h →
     h (mkDialog type message defaultPrompt url) = Throw e →
     ∃ p',
       Host.deliver (OnDialog uid)
         (PageJavascriptDialogOpening type message defaultPrompt url) env tr p
       = (Ok tt,
          tr ++ [DebuggerSendCommand (wcId p)
                   (PageHandleJavaScriptDialog true
                      (def_promptText (_defaultOptions (dialogs p))))], p')).
Proof.
  split; [|split].
  - intros env tr p uid h requestId resourceType e Ha Hh He. simpl.
    unfold Network.onRequestPausedIntercept.
    rewrite (bind_ok getState _ env tr p p tr p) by reflexivity.
    rewrite Hh, He. unfold tryCatch at 1, throw.
    by apply cdpSendQuiet_attached.
  - intros env tr p uid type message defaultPrompt url Ha Hh H1 H2 H3 H4. simpl.
    unfold DialogHandler.onDialog.
    erewrite bind_ok; [|reflexivity].
    erewrite bind_ok; [|reflexivity].
    simpl. rewrite Hh.
    unfold DialogHandler.acceptByType.
    apply String.eqb_neq in H1, H2, H3, H4. rewrite H1, H2, H3, H4.
    eexists. by rewrite cdpSendQuiet_attached.
  - intros env tr p uid h type message defaultPrompt url e Ha Hh He. simpl.
    unfold DialogHandler.onDialog.
    erewrite bind_ok; [|reflexivity].
    erewrite bind_ok; [|reflexivity].
    simpl. rewrite Hh, He.
    eexists. by rewrite cdpSendQuiet_attached.
Qed.

(** An answer whose action is neither "continue" nor "block" (the comment of
    [interceptRequests] names "modify"): no command is sent for the paused
    request. *)
Lemma intercept_other_action_sends_nothing :
  Host.deliver (OnRequestPausedIntercept 0) (FetchRequestPaused "r1" "Image")
    envOk [] ChannelExample.rewriting
  = (Ok tt, [], ChannelExample.rewriting).
Proof. reflexivity. Qed.

Lemma pending_item_fallbacks_witness :
  Host.deliver (OnRequestPausedIntercept 0) (FetchRequestPaused "r1" "Image")
    envOk [] ChannelExample.intercepting
  = (Ok tt, [DebuggerSendCommand 0 (FetchContinueRequest "r1" None None)],
     ChannelExample.intercepting).
Proof.
  apply (proj1 pending_item_fallbacks envOk [] ChannelExample.intercepting 0%nat
           ChannelExample.throwing "r1" "Image" "boom"); reflexivity.
Defined.
End PendingItems.

(** ** The debugger channel: one registration per event-method *)

Section Frames.
Context {S X : Type} (proj : S → X).

Lemma keeps_ret {A} (a : A) : keeps proj (mret a : M S A).
Proof. by intros env tr s. Qed.

Lemma keeps_throw {A} e : keeps proj (throw e : M S A).
Proof. by intros env tr s. Qed.

Lemma keeps_getState : keeps proj (getState : M S S).
Proof. by intros env tr s. Qed.

Lemma keeps_host c : keeps proj (host c : M S unit).
Proof. intros env tr s. unfold host. by destruct (env _ _). Qed.

Lemma keeps_note c : keeps proj (note c : M S unit).
Proof. by intros env tr s. Qed.

Lemma keeps_modify (f : S → S) :
  (∀ s, proj (f s) = proj s) → keeps proj (modifyState f).
Proof. intros Hf env tr s. apply Hf. Qed.

Lemma keeps_bind {A B} (m : M S A) (f : A → M S B) :
  keeps proj m → (∀ a, keeps proj (f a)) → keeps proj (m ≫= f).
Proof.
  intros Hm Hf env tr s. unfold mbind, M_bind.
  specialize (Hm env tr s).
  destruct (m env tr s) as [[[a|e] tr'] s']; simpl in *; [|done].
  by rewrite Hf.
Qed.

Lemma keeps_tryCatch {A} (m : M S A) (h : string → M S A) :
  keeps proj m → (∀ e, keeps proj (h e)) → keeps proj (tryCatch m h).
Proof.
  intros Hm Hh env tr s. unfold tryCatch.
  specialize (Hm env tr s).
  destruct (m env tr s) as [[[a|e] tr'] s']; simpl in *; [done|].
  by rewrite Hh.
Qed.
End Frames.

Section Triples.
Context {S : Type}.
Implicit Types (P Q R : S → Prop).

Lemma triple_ret {A} P Q (a : A) :
  (∀ s, P s → Q s) → triple P (mret a : M S A) Q.
Proof. intros H env tr s. apply H. Qed.

Lemma triple_bind {A B} P R Q (m : M S A) (f : A → M S B) :
  triple P m R → (∀ s, R s → Q s) → (∀ a, triple R (f a) Q) →
  triple P (m ≫= f) Q.
Proof.
  intros Hm HRQ Hf env tr s HP. unfold mbind, M_bind.
  specialize (Hm env tr s HP).
  destruct (m env tr s) as [[[a|e] tr'] s']; simpl in *; [|by apply HRQ].
  by apply Hf.
Qed.

Lemma triple_seq {A B} P (m : M S A) (f : A → M S B) :
  triple P m P → (∀ a, triple P (f a) P) → triple P (m ≫= f) P.
Proof. intros Hm Hf. by apply (triple_bind P P P). Qed.

Lemma triple_get {A} P Q (k : S → M S A) :
  (∀ s0, P s0 → triple (λ s, s = s0) (k s0) Q) → triple P (getState ≫= k) Q.
Proof. intros Hk env tr s HP. by apply (Hk s HP env tr s). Qed.

Lemma triple_tryCatch {A} P R Q (m : M S A) (h : string → M S A) :
  triple P m R → (∀ s, R s → Q s) → (∀ e, triple R (h e) Q) →
  triple P (tryCatch m h) Q.
Proof.
  intros Hm HRQ Hh env tr s HP. unfold tryCatch.
  specialize (Hm env tr s HP).
  destruct (m env tr s) as [[[a|e] tr'] s']; simpl in *; [by apply HRQ|].
  by apply Hh.
Qed.

Lemma triple_weaken {A} P P' Q (m : M S A) :
  (∀ s, P' s → P s) → triple P m Q → triple P' m Q.
Proof. intros H Hm env tr s HP. by apply Hm, H. Qed.

Lemma triple_keeps {A X} (proj : S → X) P (m : M S A) :
  (∀ s s', proj s' = proj s → P s → P s') →
  keeps proj m → triple P m P.
Proof. intros Hext Hk env tr s HP. by eapply Hext; [apply Hk|]. Qed.
End Triples.

(** Methods that leave the registrations of the channel as they are. *)
Ltac keeps_step :=
  first
    [ apply keeps_ret | apply keeps_throw | apply keeps_getState
    | apply keeps_host | apply keeps_note
    | apply keeps_modify; intros ?; reflexivity
    | apply keeps_bind; [|intros ?]
    | apply keeps_tryCatch; [|intros ?]
    | match goal with
      | |- keeps _ (if ?b then _ else _) => destruct b
      | |- keeps _ (match ?x with _ => _ end) => destruct x
      | |- keeps _ (let '(_, _) := ?x in _) => destruct x
      end
    | assumption ].

Ltac solve_keeps := repeat keeps_step.

Create HintDb keeps.

Section ChannelFrames.
Import Utils.

Lemma keeps_fresh : keeps chan fresh.
Proof. unfold fresh. solve_keeps. Qed.

Lemma keeps_wcOn ev l : keeps chan (wcOn ev l).
Proof. unfold wcOn. solve_keeps. Qed.

Lemma keeps_wcRemoveListener ev l : keeps chan (wcRemoveListener ev l).
Proof. unfold wcRemoveListener. solve_keeps. Qed.

Lemma keeps_setTimeout cb delay : keeps chan (setTimeout cb delay).
Proof. unfold setTimeout. solve_keeps. Qed.

Lemma keeps_clearTimeout id : keeps chan (clearTimeout id).
Proof. unfold clearTimeout. solve_keeps. Qed.

Lemma keeps_clearIfSet t : keeps chan (clearIfSet t).
Proof. unfold clearIfSet. solve_keeps. Qed.

Lemma keeps_settle w o : keeps chan (settle w o).
Proof. unfold settle. solve_keeps. Qed.

Lemma keeps_safeAttachDebugger : keeps chan safeAttachDebugger.
Proof. unfold safeAttachDebugger. solve_keeps. Qed.

Lemma keeps_safeDetachDebugger : keeps chan safeDetachDebugger.
Proof. unfold safeDetachDebugger. solve_keeps. Qed.

Lemma keeps_cdpSend c : keeps chan (cdpSend c).
Proof. unfold cdpSend. solve_keeps. Qed.

Lemma keeps_cdpSendQuiet c : keeps chan (cdpSendQuiet c).
Proof. unfold cdpSendQuiet. solve_keeps. Qed.

#[local] Hint Resolve keeps_fresh keeps_wcOn keeps_wcRemoveListener keeps_setTimeout
  keeps_clearTimeout keeps_clearIfSet keeps_settle keeps_safeAttachDebugger
  keeps_safeDetachDebugger keeps_cdpSend keeps_cdpSendQuiet : keeps.

Lemma keeps_Network_enable : keeps chan Network.enable.
Proof. unfold Network.enable. solve_keeps; auto with keeps. Qed.

Lemma keeps_Network_disable : keeps chan Network.disable.
Proof. unfold Network.disable. solve_keeps; auto with keeps. Qed.

Lemma keeps_onRequestPausedBlock types m :
  keeps chan (Network.onRequestPausedBlock types m).
Proof. unfold Network.onRequestPausedBlock. solve_keeps; auto with keeps. Qed.

Lemma keeps_onRequestPausedIntercept m :
  keeps chan (Network.onRequestPausedIntercept m).
Proof. unfold Network.onRequestPausedIntercept. solve_keeps; auto with keeps. Qed.

Lemma keeps_onDialog m : keeps chan (DialogHandler.onDialog m).
Proof. unfold DialogHandler.onDialog. solve_keeps; auto with keeps. Qed.

Lemma keeps_clearHistory : keeps chan DialogHandler.clearHistory.
Proof. unfold DialogHandler.clearHistory. solve_keeps. Qed.

Lemma keeps_Downloads_enable a h : keeps chan (DownloadManager.enable a h).
Proof. unfold DownloadManager.enable. solve_keeps. Qed.

Lemma keeps_Downloads_disable : keeps chan DownloadManager.disable.
Proof. unfold DownloadManager.disable. solve_keeps. Qed.

Lemma keeps_cancelActive wc ds : keeps chan (DownloadManager.cancelActive wc ds).
Proof. induction ds as [|[id info] rest IH]; simpl; solve_keeps. Qed.

Lemma keeps_Downloads_destroy : keeps chan DownloadManager.destroy.
Proof.
  unfold DownloadManager.destroy. solve_keeps;
    auto using keeps_cancelActive, keeps_Downloads_disable.
Qed.

Lemma keeps_onWillDownload url : keeps chan (DownloadManager.onWillDownload url).
Proof. unfold DownloadManager.onWillDownload. solve_keeps. Qed.

Lemma keeps_onItemState id state : keeps chan (DownloadManager.onItemState id state).
Proof. unfold DownloadManager.onItemState. solve_keeps. Qed.

Lemma keeps_Waiter_cleanup w : keeps chan (Waiter.cleanup w).
Proof. unfold Waiter.cleanup. solve_keeps; auto with keeps. Qed.

Lemma keeps_Waiter_checkIdle w : keeps chan (Waiter.checkIdle w).
Proof. unfold Waiter.checkIdle. solve_keeps; auto with keeps. Qed.

#[local] Hint Resolve keeps_Waiter_cleanup keeps_Waiter_checkIdle : keeps.

Lemma keeps_Waiter_onQuiet w : keeps chan (Waiter.onQuiet w).
Proof. unfold Waiter.onQuiet. solve_keeps; auto with keeps. Qed.

Lemma keeps_Waiter_onTimeout w : keeps chan (Waiter.onTimeout w).
Proof. unfold Waiter.onTimeout. solve_keeps; auto with keeps. Qed.

Lemma keeps_Waiter_onStart w : keeps chan (Waiter.onStart w).
Proof. unfold Waiter.onStart. solve_keeps; auto with keeps. Qed.

Lemma keeps_Waiter_onFinish w : keeps chan (Waiter.onFinish w).
Proof. unfold Waiter.onFinish. solve_keeps; auto with keeps. Qed.

Lemma keeps_waitForNetworkIdle t i : keeps chan (Waiter.waitForNetworkIdle t i).
Proof. unfold Waiter.waitForNetworkIdle. solve_keeps; auto with keeps. Qed.

Lemma keeps_constructor : keeps chan ElectronPage.constructor.
Proof. unfold ElectronPage.constructor. solve_keeps; auto with keeps. Qed.

Lemma keeps_Page_onFinish w : keeps chan (ElectronPage.onFinish w).
Proof. unfold ElectronPage.onFinish. solve_keeps; auto with keeps. Qed.

Lemma keeps_Page_onFail w code desc : keeps chan (ElectronPage.onFail w code desc).
Proof. unfold ElectronPage.onFail. solve_keeps; auto with keeps. Qed.

Lemma keeps_Page_onTimeout w : keeps chan (ElectronPage.onTimeout w).
Proof. unfold ElectronPage.onTimeout. solve_keeps; auto with keeps. Qed.

Lemma keeps_waitForNavigation t : keeps chan (ElectronPage.waitForNavigation t).
Proof. unfold ElectronPage.waitForNavigation. solve_keeps; auto with keeps. Qed.
End ChannelFrames.

Section RemoveLast.
Context {A : Type} `{EqDecision A}.
Implicit Types (x y : A) (l : list A).

Lemma elem_of_removeLast x y l : y ∈ removeLast x l → y ∈ l.
Proof.
  induction l as [|z l IH]; simpl; [done|].
  repeat case_bool_decide; intros Hy.
  - apply elem_of_cons in Hy as [->|Hy]; [left|right; by apply IH].
  - by right.
  - done.
Qed.

Lemma NoDup_removeLast x l : NoDup l → NoDup (removeLast x l).
Proof.
  induction l as [|z l IH]; simpl; [done|].
  intros [Hz Hl]%NoDup_cons.
  repeat case_bool_decide.
  - apply NoDup_cons. split; [|by apply IH].
    intros H'. by apply Hz, (elem_of_removeLast x).
  - done.
  - by apply NoDup_cons.
Qed.

Lemma removeLast_gone x l : NoDup l → x ∉ removeLast x l.
Proof.
  induction l as [|z l IH]; simpl; [intros _; apply not_elem_of_nil|].
  intros [Hz Hl]%NoDup_cons.
  repeat case_bool_decide.
  - apply not_elem_of_cons. split; [|by apply IH].
    intros ->. done.
  - by subst.
  - apply not_elem_of_cons. done.
Qed.
End RemoveLast.

Section ChannelInvariant.
Import Utils.

Lemma channelInv_ext (p p' : Page) : chan p' = chan p → channelInv p → channelInv p'.
Proof.
  unfold chan. intros [= H0 H1 H2 H3 H4 H5] [Hnd Hown]. split.
  - by rewrite H1.
  - intros l Hl. rewrite H1 in Hl. specialize (Hown l Hl).
    destruct l; simpl in *; congruence.
Qed.

Lemma triple_inv_keeps {A} (m : M Page A) :
  keeps chan m → triple channelInv m channelInv.
Proof. apply triple_keeps. intros s s'. apply channelInv_ext. Qed.

(** The listeners that stay when the one remembered for the method of
    [new] is removed: none of them reacts to that method. *)
Lemma others_after_removal (p : Page) (slot : option Listener) (new l : Listener) :
  channelInv p →
  (∀ l', l' ∈ dbgListeners p → listensTo l' = listensTo new → slot = Some l') →
  l ∈ match slot with
      | Some old => removeLast old (dbgListeners p)
      | None => dbgListeners p
      end →
  l ∈ dbgListeners p ∧ listensTo l ≠ listensTo new.
Proof.
  intros [Hnd Hown] Hslot Hl. destruct slot as [old|].
  - split; [by eapply elem_of_removeLast|].
    intros Hkind.
    assert (Some old = Some l) as [= ->]
      by (apply Hslot; [by eapply elem_of_removeLast|done]).
    by apply (removeLast_gone l (dbgListeners p)).
  - split; [done|]. intros Hkind. by specialize (Hslot l Hl Hkind).
Qed.

Lemma NoDup_after_install (p : Page) (slot : option Listener) (new : Listener) :
  channelInv p →
  (∀ l', l' ∈ dbgListeners p → listensTo l' = listensTo new → slot = Some l') →
  NoDup (match slot with
         | Some old => removeLast old (dbgListeners p)
         | None => dbgListeners p
         end ++ [new]).
Proof.
  intros Hinv Hslot. apply NoDup_app. split; [|split].
  - destruct Hinv as [Hnd _]. destruct slot; [by apply NoDup_removeLast|done].
  - intros l Hl Hnew. apply list_elem_of_singleton in Hnew as ->.
    by destruct (others_after_removal p slot new new Hinv Hslot Hl).
  - apply NoDup_singleton.
Qed.

(** The slot of [Network] names every listener for ['Fetch.requestPaused'],
    and so for the other two slots. *)
Lemma slot_requestPaused (p : Page) (l : Listener) :
  channelInv p → l ∈ dbgListeners p →
  listensTo l = "Fetch.requestPaused"%string →
  _onRequestPaused (network p) = Some l.
Proof. intros [_ Hown] Hl Hkind. specialize (Hown l Hl). by destruct l. Qed.

Lemma slot_fileChooser (p : Page) (l : Listener) :
  channelInv p → l ∈ dbgListeners p →
  listensTo l = "Page.fileChooserOpened"%string →
  _fileChooserListener p = Some l.
Proof. intros [_ Hown] Hl Hkind. specialize (Hown l Hl). by destruct l. Qed.

Lemma slot_dialog (p : Page) (l : Listener) :
  channelInv p → l ∈ dbgListeners p →
  listensTo l = "Page.javascriptDialogOpening"%string →
  _onDialog (dialogs p) = Some l ∧ dlg_enabled (dialogs p) = true.
Proof. intros [_ Hown] Hl Hkind. specialize (Hown l Hl). by destruct l. Qed.
End ChannelInvariant.

Section ChannelRegistration.
Import Utils.

(** What a registration leaves: the other listeners are still owned by
    their slots. *)
Ltac other_kind Hothers Hinv Hmk l Hl :=
  let Hin := fresh "Hin" in
  let Hk := fresh "Hk" in
  let Hown := fresh "Hown" in
  destruct (Hothers l Hl) as [Hin Hk];
  destruct Hinv as [_ Hown]; specialize (Hown l Hin);
  rewrite Hmk in Hk; destruct l; simpl in *; done.

Lemma inv_Network_register (mk : nat → Listener) :
  (∀ uid, listensTo (mk uid) = "Fetch.requestPaused"%string) →
  triple channelInv (Network.register mk) channelInv.
Proof.
  intros Hmk env tr p Hinv.
  set (new := mk (nextId p)).
  assert (listensTo new = "Fetch.requestPaused"%string) as Hnew by apply Hmk.
  assert (∀ l', l' ∈ dbgListeners p → listensTo l' = listensTo new →
               _onRequestPaused (network p) = Some l') as Hslot
    by (intros l' H1 H2; apply slot_requestPaused; [done|done|]; by rewrite H2).
  pose proof (NoDup_after_install p _ new Hinv Hslot) as Hnd.
  pose proof (λ l, others_after_removal p _ new l Hinv Hslot) as Hothers.
  unfold Network.register, Network.removeOldListener, dbgRemoveListener, fresh, dbgOn.
  unfold_monad.
  destruct (_onRequestPaused (network p)) as [old|]; simpl; (split; simpl; [exact Hnd|]);
    intros l [Hl| ->%list_elem_of_singleton]%elem_of_app;
    first [ other_kind Hothers Hinv Hnew l Hl
          | fold new; destruct new; simpl in *; done ].
Qed.

Lemma inv_FileChooser_register files persistent :
  triple channelInv (ElectronPage.register files persistent) channelInv.
Proof.
  intros env tr p Hinv.
  set (new := FileChooserListener (nextId p) files persistent).
  assert (listensTo new = "Page.fileChooserOpened"%string) as Hnew by done.
  assert (∀ l', l' ∈ dbgListeners p → listensTo l' = listensTo new →
               _fileChooserListener p = Some l') as Hslot
    by (intros l' H1 H2; apply slot_fileChooser; [done|done|]; by rewrite H2).
  pose proof (NoDup_after_install p _ new Hinv Hslot) as Hnd.
  pose proof (λ l, others_after_removal p _ new l Hinv Hslot) as Hothers.
  unfold ElectronPage.register, dbgRemoveListener, fresh, dbgOn.
  unfold_monad.
  destruct (_fileChooserListener p) as [old|]; simpl; (split; simpl; [exact Hnd|]);
    intros l [Hl| ->%list_elem_of_singleton]%elem_of_app;
    first [ other_kind Hothers Hinv Hnew l Hl | done ].
Qed.

(** [DialogHandler.enable] registers only when [_enabled] is not set, and
    then no dialog listener is registered. *)
Lemma inv_Dialog_register options :
  triple (λ p, channelInv p ∧ dlg_enabled (dialogs p) = false)
    (DialogHandler.register options) channelInv.
Proof.
  intros env tr p [Hinv Hoff].
  set (new := OnDialog (nextId p)).
  assert (listensTo new = "Page.javascriptDialogOpening"%string) as Hnew by done.
  assert (∀ l', l' ∈ dbgListeners p → listensTo l' = listensTo new →
               (None : option Listener) = Some l') as Hslot.
  { intros l' H1 H2. rewrite Hnew in H2.
    destruct (slot_dialog p l' Hinv H1 H2) as [_ Hon]. congruence. }
  pose proof (NoDup_after_install p _ new Hinv Hslot) as Hnd.
  pose proof (λ l, others_after_removal p _ new l Hinv Hslot) as Hothers.
  unfold DialogHandler.register, fresh, dbgOn.
  unfold_monad. simpl. split; simpl; [exact Hnd|].
  intros l [Hl| ->%list_elem_of_singleton]%elem_of_app;
    first [ other_kind Hothers Hinv Hnew l Hl | done ].
Qed.

(** Removing the listener that a slot names and clearing the slot. *)
Lemma inv_Network_destroy : triple channelInv Network.destroy channelInv.
Proof.
  intros env tr p Hinv.
  assert (∀ l', l' ∈ dbgListeners p →
               listensTo l' = listensTo (OnRequestPausedIntercept 0) →
               _onRequestPaused (network p) = Some l') as Hslot
    by (intros l' H1 H2; by apply slot_requestPaused).
  pose proof (λ l, others_after_removal p _ _ l Hinv Hslot) as Hothers.
  assert (Hnew : listensTo (OnRequestPausedIntercept 0)
                 = "Fetch.requestPaused"%string) by done.
  unfold Network.destroy, dbgRemoveListener. unfold_monad.
  destruct (_onRequestPaused (network p)) as [old|]; simpl; split; simpl;
    try (intros l Hl; other_kind Hothers Hinv Hnew l Hl).
  - apply NoDup_removeLast, Hinv.
  - apply Hinv.
Qed.

Lemma inv_Dialog_disable : triple channelInv DialogHandler.disable channelInv.
Proof.
  intros env tr p Hinv.
  unfold DialogHandler.disable, dbgRemoveListener. unfold_monad.
  destruct (dlg_enabled (dialogs p)) eqn:Hon; simpl; [|done].
  assert (∀ l', l' ∈ dbgListeners p → listensTo l' = listensTo (OnDialog 0) →
               _onDialog (dialogs p) = Some l') as Hslot
    by (intros l' H1 H2; by apply slot_dialog).
  pose proof (λ l, others_after_removal p _ _ l Hinv Hslot) as Hothers.
  assert (Hnew : listensTo (OnDialog 0) = "Page.javascriptDialogOpening"%string)
    by done.
  destruct (_onDialog (dialogs p)) as [old|]; simpl; split; simpl;
    try (intros l Hl; other_kind Hothers Hinv Hnew l Hl).
  - apply NoDup_removeLast, Hinv.
  - apply Hinv.
Qed.

Lemma inv_Dialog_destroy : triple channelInv DialogHandler.destroy channelInv.
Proof.
  apply triple_seq; [apply inv_Dialog_disable|].
  intros ?. apply triple_inv_keeps; solve_keeps.
Qed.

Lemma inv_stopInterceptFileChooser :
  triple channelInv ElectronPage.stopInterceptFileChooser channelInv.
Proof.
  apply triple_get. intros p Hinv.
  apply (triple_bind _ channelInv);
    [|done|intros ?; apply triple_inv_keeps; solve_keeps].
  intros env tr ? ->.
  assert (∀ l', l' ∈ dbgListeners p →
               listensTo l' = listensTo (FileChooserListener 0 [] false) →
               _fileChooserListener p = Some l') as Hslot
    by (intros l' H1 H2; by apply slot_fileChooser).
  pose proof (λ l, others_after_removal p _ _ l Hinv Hslot) as Hothers.
  assert (Hnew : listensTo (FileChooserListener 0 [] false)
                 = "Page.fileChooserOpened"%string) by done.
  unfold dbgRemoveListener. unfold_monad.
  destruct (_fileChooserListener p) as [old|]; simpl; [|done]. split; simpl;
    try (intros l Hl; other_kind Hothers Hinv Hnew l Hl).
  apply NoDup_removeLast, Hinv.
Qed.
End ChannelRegistration.

Section ChannelOps.
Import Utils.

(** A step that leaves the channel alone, then the rest. *)
Ltac skip_step := apply triple_seq; [apply triple_inv_keeps; solve_keeps|intros ?].

Lemma inv_blockResourceTypes types :
  triple channelInv (Network.blockResourceTypes types) channelInv.
Proof.
  unfold Network.blockResourceTypes. do 3 skip_step.
  by apply inv_Network_register.
Qed.

Lemma inv_interceptRequests h :
  triple channelInv (Network.interceptRequests h) channelInv.
Proof.
  unfold Network.interceptRequests. do 3 skip_step.
  by apply inv_Network_register.
Qed.

Lemma inv_interceptFileChooser files persistent :
  triple channelInv (ElectronPage.interceptFileChooser files persistent) channelInv.
Proof.
  unfold ElectronPage.interceptFileChooser. do 3 skip_step.
  apply inv_FileChooser_register.
Qed.

Lemma inv_Dialog_enable options :
  triple channelInv (DialogHandler.enable options) channelInv.
Proof.
  apply triple_get. intros p Hinv.
  destruct (dlg_enabled (dialogs p)) eqn:Hoff.
  - by intros env tr ? ->.
  - apply (triple_weaken (λ s, channelInv s ∧ dlg_enabled (dialogs s) = false));
      [by intros ? ->|].
    assert (∀ A (m : M Page A), keeps chan m →
              triple (λ s, channelInv s ∧ dlg_enabled (dialogs s) = false) m
                (λ s, channelInv s ∧ dlg_enabled (dialogs s) = false)) as Hskip.
    { intros A m. apply triple_keeps. intros s s' Hc [Hi Hd]. split.
      - by eapply channelInv_ext.
      - unfold chan in Hc. congruence. }
    eapply triple_bind; [apply Hskip; solve_keeps|by intros ? []|intros ?].
    eapply triple_bind; [apply Hskip; solve_keeps|by intros ? []|intros ?].
    apply inv_Dialog_register.
Qed.

Lemma inv_Page_destroy : triple channelInv ElectronPage.destroy channelInv.
Proof.
  apply triple_get. intros p Hinv.
  apply (triple_weaken channelInv); [by intros ? ->|].
  destruct (_destroyed p); [by apply triple_ret|].
  do 3 skip_step.
  apply triple_seq; [apply inv_Network_destroy|intros ?].
  apply triple_seq; [apply inv_Dialog_destroy|intros ?].
  apply triple_inv_keeps.
  apply keeps_bind; [apply keeps_Downloads_destroy|intros ?; solve_keeps].
Qed.

Lemma inv_applyPerformanceOptions :
  triple channelInv ElectronPage._applyPerformanceOptions channelInv.
Proof.
  apply triple_get. intros p Hinv.
  apply (triple_weaken channelInv); [by intros ? ->|].
  destruct (_destroyed p); [by apply triple_ret|].
  apply (triple_tryCatch _ channelInv); [|done|intros ?; by apply triple_ret].
  apply triple_seq.
  - destruct (disableImages p); [apply inv_blockResourceTypes|by apply triple_ret].
  - intros ?. apply triple_inv_keeps. solve_keeps.
Qed.

Lemma inv_deliver l m : triple channelInv (Host.deliver l m) channelInv.
Proof.
  destruct l; simpl.
  - apply triple_inv_keeps, keeps_onRequestPausedBlock.
  - apply triple_inv_keeps, keeps_onRequestPausedIntercept.
  - apply triple_inv_keeps, keeps_onDialog.
  - unfold ElectronPage.fileChooserListener. destruct m; try by apply triple_ret.
    skip_step. destruct persistent; [by apply triple_ret|].
    apply inv_stopInterceptFileChooser.
Qed.

Lemma inv_deliverAll ls m : triple channelInv (Host.deliverAll ls m) channelInv.
Proof.
  induction ls as [|l ls IH]; simpl; [by apply triple_ret|].
  apply triple_seq; [apply inv_deliver|by intros ?].
Qed.

Lemma inv_invoke l ev : triple channelInv (Host.invoke l ev) channelInv.
Proof.
  destruct l; simpl.
  - apply inv_applyPerformanceOptions.
  - by apply triple_ret.
  - apply triple_inv_keeps, keeps_Page_onFinish.
  - destruct ev; apply triple_inv_keeps, keeps_Page_onFail.
  - apply triple_inv_keeps, keeps_Waiter_onStart.
  - apply triple_inv_keeps, keeps_Waiter_onFinish.
Qed.

Lemma inv_invokeAll ls ev : triple channelInv (Host.invokeAll ls ev) channelInv.
Proof.
  induction ls as [|[name l] ls IH]; simpl; [by apply triple_ret|].
  apply triple_seq; [|by intros ?].
  destruct (String.eqb name (eventName ev)); [apply inv_invoke|by apply triple_ret].
Qed.

(** Every call of a method and every event of the host keeps the
    registrations on the channel consistent. *)
Lemma inv_runOp op : triple channelInv (runOp op) channelInv.
Proof.
  destruct op; cbn [runOp].
  - apply triple_inv_keeps, keeps_constructor.
  - apply triple_inv_keeps, keeps_Network_enable.
  - apply triple_inv_keeps, keeps_Network_disable.
  - apply inv_blockResourceTypes.
  - apply inv_interceptRequests.
  - apply inv_Network_destroy.
  - apply inv_Dialog_enable.
  - apply inv_Dialog_disable.
  - apply inv_Dialog_destroy.
  - apply triple_inv_keeps, keeps_Downloads_enable.
  - apply triple_inv_keeps, keeps_Downloads_disable.
  - apply triple_inv_keeps, keeps_Downloads_destroy.
  - apply inv_interceptFileChooser.
  - apply inv_stopInterceptFileChooser.
  - apply triple_inv_keeps, keeps_bind;
      [apply keeps_waitForNavigation|intros ?; apply keeps_ret].
  - apply triple_inv_keeps, keeps_bind;
      [apply keeps_waitForNetworkIdle|intros ?; apply keeps_ret].
  - apply inv_Page_destroy.
  - apply triple_get. intros p Hinv.
    apply (triple_weaken channelInv); [by intros ? ->|]. apply inv_deliverAll.
  - apply triple_get. intros p Hinv.
    apply (triple_weaken channelInv); [by intros ? ->|]. apply inv_invokeAll.
  - apply triple_get. intros p Hinv.
    apply (triple_weaken channelInv); [by intros ? ->|].
    destruct (armed timer (timers p)) as [cb|]; [|by apply triple_ret].
    apply triple_seq; [apply triple_inv_keeps, keeps_modify; by intros ?|intros ?].
    destruct cb; apply triple_inv_keeps;
      [apply keeps_Page_onTimeout|apply keeps_Waiter_onTimeout
      |apply keeps_Waiter_onQuiet].
  - apply triple_inv_keeps, keeps_onWillDownload.
  - apply triple_inv_keeps, keeps_onItemState.
Qed.

Lemma inv_runOps ops env tr (p : Page) :
  channelInv p → channelInv (runOps ops env tr p).2.
Proof.
  revert tr p. induction ops as [|op ops IH]; intros tr p Hinv; [done|].
  simpl. pose proof (inv_runOp op env tr p Hinv) as Hstep.
  destruct (runOp op env tr p) as [[r tr'] p']. by apply IH.
Qed.

Lemma inv_blank wc images animations :
  channelInv (ElectronPage.blank wc images animations).
Proof.
  split; simpl; [apply NoDup_nil_2|]. intros l Hl. by apply elem_of_nil in Hl.
Qed.

(** With consistent registrations, at most one listener reacts to a
    method. *)
Lemma channelInv_one_handler (p : Page) (method : string) :
  channelInv p → length (handlersOf method p) ≤ 1.
Proof.
  intros [Hnd Hown]. unfold handlersOf.
  assert (NoDup (filter (λ l, listensTo l = method) (dbgListeners p))) as Hnd'
    by by apply NoDup_filter.
  assert (∀ l1 l2,
            l1 ∈ filter (λ l, listensTo l = method) (dbgListeners p) →
            l2 ∈ filter (λ l, listensTo l = method) (dbgListeners p) →
            l1 = l2) as Hsame.
  { intros l1 l2 [K1 H1]%list_elem_of_filter [K2 H2]%list_elem_of_filter.
    pose proof (Hown l1 H1) as O1. pose proof (Hown l2 H2) as O2.
    destruct l1, l2; simpl in *; subst; try done; try congruence.
    all: destruct O1, O2; congruence. }
  destruct (filter _ _) as [|a [|b rest]]; simpl; [lia|lia|].
  exfalso. apply NoDup_cons in Hnd' as [Hnotin _]. apply Hnotin.
  rewrite (Hsame a b); [left|left|right; left].
Qed.
End ChannelOps.

Section OneHandler.
Import Utils.

(** A listener ignores the messages of the other methods. *)
Lemma deliver_other (l : Listener) (m : Message) env tr (p : Page) :
  listensTo l ≠ methodOf m → Host.deliver l m env tr p = (Ok tt, tr, p).
Proof. destruct l, m; simpl; done. Qed.

(** A prefix that leaves the channel alone, in a call that returns. *)
Lemma bind_keeps_ok {A B} (m : M Page A) (k : A → M Page B) env tr p b tr' p' :
  keeps chan m →
  (m ≫= k) env tr p = (Ok b, tr', p') →
  ∃ a tr1 p1, chan p1 = chan p ∧ k a env tr1 p1 = (Ok b, tr', p').
Proof.
  intros Hk. unfold mbind, M_bind. specialize (Hk env tr p).
  destruct (m env tr p) as [[[a|e] tr1] p1]; simpl in *; [|done].
  intros E. by exists a, tr1, p1.
Qed.

Lemma handlersOf_registered (p : Page) (l : Listener) :
  channelInv p → l ∈ dbgListeners p →
  handlersOf (listensTo l) p = [l].
Proof.
  intros Hinv Hl.
  pose proof (channelInv_one_handler p (listensTo l) Hinv) as Hlen.
  assert (l ∈ handlersOf (listensTo l) p) as Hin
    by (by apply list_elem_of_filter).
  destruct (handlersOf (listensTo l) p) as [|a [|b rest]]; simpl in *.
  - by apply elem_of_nil in Hin.
  - by apply list_elem_of_singleton in Hin as ->.
  - lia.
Qed.

(** What the registration of [Network] does: the old listener is removed
    first, then the new one is added. *)
Lemma Network_register_result (mk : nat → Listener) env tr (p : Page) :
  ∃ p',
    Network.register mk env tr p
    = (Ok tt,
       tr ++ match _onRequestPaused (network p) with
             | Some old => [DebuggerRemoveListener (wcId p) old]
             | None => []
             end ++ [DebuggerOn (wcId p) (mk (nextId p))], p') ∧
    mk (nextId p) ∈ dbgListeners p'.
Proof.
  unfold Network.register, Network.removeOldListener, dbgRemoveListener, fresh, dbgOn.
  unfold_monad.
  destruct (_onRequestPaused (network p)) as [old|]; simpl; eexists;
    (split; [by rewrite <- ?app_assoc|]); simpl;
    apply elem_of_app; right; left.
Qed.

Lemma FileChooser_register_result files persistent env tr (p : Page) :
  ∃ p',
    ElectronPage.register files persistent env tr p
    = (Ok tt,
       tr ++ match _fileChooserListener p with
             | Some old => [DebuggerRemoveListener (wcId p) old]
             | None => []
             end ++ [DebuggerOn (wcId p)
                       (FileChooserListener (nextId p) files persistent)], p') ∧
    FileChooserListener (nextId p) files persistent ∈ dbgListeners p'.
Proof.
  unfold ElectronPage.register, dbgRemoveListener, fresh, dbgOn.
  unfold_monad.
  destruct (_fileChooserListener p) as [old|]; simpl; eexists;
    (split; [by rewrite <- ?app_assoc|]); simpl;
    apply elem_of_app; right; left.
Qed.

(** The equalities that [chan p1 = chan p] stands for. *)
Lemma chan_eq (p1 p : Page) :
  chan p1 = chan p →
  wcId p1 = wcId p ∧
  _onRequestPaused (network p1) = _onRequestPaused (network p) ∧
  _fileChooserListener p1 = _fileChooserListener p.
Proof. unfold chan. by intros [= -> _ -> _ _ ->]. Qed.


End OneHandler.

(* ===================================================================== *)
(** * Part III: further properties of the code *)
(* ===================================================================== *)

(** ** GridManager: the maximized layout, the cells, the capacity *)

Section GridManagerMore.
Import GridManager.
Local Open Scope Z_scope.

Implicit Types (store : gmap nat BrowserView) (views : list (string * nat)).

(** What the maximize loop leaves in the [i]-th tracked view. *)
Lemma layoutMaximized_cell w h maxId views store
    (i : nat) (id : string) (view : nat) (bv : BrowserView) :
  NoDup views.*2 →
  views !! i = Some (id, view) →
  store !! view = Some bv →
  layoutMaximized w h maxId views store !! view
  = Some (if String.eqb id maxId then maximizedView w h else hiddenView).
Proof.
  revert store i.
  induction views as [|[id' r] rest IH]; intros store i Hnd Hi Hs; [done|].
  rewrite fmap_cons in Hnd. apply NoDup_cons in Hnd as [Hfresh Hnd].
  destruct i as [|i]; simpl in Hi.
  - injection Hi as -> ->. simpl in Hfresh.
    cbn [layoutMaximized].
    rewrite layoutMaximized_untouched by done.
    destruct (String.eqb id maxId); by rewrite lookup_alter_eq, Hs.
  - assert (r ≠ view) as Hne.
    { intros ->. apply Hfresh. simpl.
      apply (list_elem_of_fmap_2' snd rest (id, view)); [|done].
      by eapply list_elem_of_lookup_2. }
    cbn [layoutMaximized].
    destruct (String.eqb id' maxId);
      eapply IH; try done; by rewrite lookup_alter_ne.
Qed.

Lemma layoutMaximized_idempotent w h maxId views store :
  layoutMaximized w h maxId views (layoutMaximized w h maxId views store)
  = layoutMaximized w h maxId views store.
Proof.
  apply map_eq. intros view.
  destruct (decide (view ∈ views.*2)) as [Hin|Hout].
  - destruct (layoutMaximized_overwrites w h maxId views view Hin) as [c Hc].
    rewrite !Hc. by destruct (store !! view).
  - by rewrite !layoutMaximized_untouched.
Qed.

(** X1: [maximize(id)] of a tracked, non-empty id records the id, gives
    the view of that id the whole content area with auto-resize on, and
    gives every other tracked view the empty rectangle, so that it is not
    shown; the grid dimensions and the tracked views stay. *)
Theorem maximize_fills_window (winWidth winHeight : Z) (g : t) store (id : string) :
  JsMap.has id (_views g) = true →
  id ≠ ""%string →
  NoDup (_views g).*2 →
  let g' := (maximize (winWidth, winHeight) id g store).1 in
  let store' := (maximize (winWidth, winHeight) id g store).2 in
  _maximizedId g' = Some id ∧
  (_views g', _cols g', _rows g') = (_views g, _cols g, _rows g) ∧
  ∀ (i : nat) (id' : string) (view : nat) (bv : BrowserView),
    _views g !! i = Some (id', view) →
    store !! view = Some bv →
    (id' = id → store' !! view = Some (maximizedView winWidth winHeight)) ∧
    (id' ≠ id → store' !! view = Some hiddenView ∧ visible hiddenView = false).
Proof.
  intros Hhas Hid Hnd g' store'. subst g' store'.
  unfold maximize. rewrite Hhas. cbn [negb].
  unfold _applyLayout. cbn [_maximizedId _views _cols _rows truthy].
  apply String.eqb_neq in Hid. rewrite Hid. cbn [negb fst snd].
  split; [done|]. split; [done|].
  intros i id' view bv Hi Hs.
  rewrite (layoutMaximized_cell _ _ _ _ _ i id' view bv Hnd Hi Hs).
  split.
  - intros ->. by rewrite String.eqb_refl.
  - intros Hne. apply String.eqb_neq in Hne. by rewrite Hne.
Qed.

Lemma maximize_fills_window_witness :
  let store' := (maximize (800, 600) "a" GridExample.tiled.1 GridExample.tiled.2).2 in
  store' !! 0%nat = Some (maximizedView 800 600) ∧
  store' !! 1%nat = Some hiddenView.
Proof.
  assert (JsMap.has "a" (_views GridExample.tiled.1) = true) as H1 by reflexivity.
  assert ("a"%string ≠ ""%string) as H2 by discriminate.
  assert (NoDup (_views GridExample.tiled.1).*2) as H3 by compute_done.
  destruct (maximize_fills_window 800 600 GridExample.tiled.1 GridExample.tiled.2
              "a" H1 H2 H3) as (_ & _ & Hviews).
  split.
  - refine (proj1 (Hviews 0%nat "a"%string 0%nat _ _ _) _);
      [reflexivity | vm_compute; reflexivity | reflexivity].
  - refine (proj1 (proj2 (Hviews 1%nat "b"%string 1%nat _ _ _) _));
      [reflexivity | vm_compute; reflexivity | discriminate].
Defined.

(** X2: in the grid recompute with a positive number of columns and rows
    and a window of non-negative size, every view that fits gets a cell
    that lies inside the content area, and two different views that fit
    get cells that do not overlap. *)
Theorem grid_cells_inside_and_apart (winWidth winHeight : Z) (g : t) store
    (i j : nat) (idi idj : string) (vi vj : nat) (bi bj : BrowserView) :
  truthy (_maximizedId g) = false →
  NoDup (_views g).*2 →
  0 < _cols g → 0 < _rows g → 0 ≤ winWidth → 0 ≤ winHeight →
  _views g !! i = Some (idi, vi) → store !! vi = Some bi →
  _views g !! j = Some (idj, vj) → store !! vj = Some bj →
  Z.of_nat i < _cols g * _rows g →
  Z.of_nat j < _cols g * _rows g →
  let store' := (_applyLayout (winWidth, winHeight) g store).2 in
  ∃ ri rj,
    bounds <$> store' !! vi = Some ri ∧
    bounds <$> store' !! vj = Some rj ∧
    within ri winWidth winHeight ∧
    (i ≠ j → apart ri rj).
Proof.
  intros Hmax Hnd Hc Hr Hw Hh Hi Hsi Hj Hsj Hfi Hfj store'.
  assert (_applyLayout (winWidth, winHeight) g store
          = (g, layoutGrid (_cols g) (_rows g) (winWidth / _cols g)
                  (winHeight / _rows g) 0 (_views g) store)) as Happly.
  { unfold _applyLayout. destruct (_maximizedId g) as [m|]; [|done].
    by rewrite Hmax. }
  subst store'. rewrite Happly. cbn [snd].
  rewrite (layoutGrid_cell _ _ _ _ 0 _ _ i idi vi bi Hnd Hi Hsi).
  rewrite (layoutGrid_cell _ _ _ _ 0 _ _ j idj vj bj Hnd Hj Hsj).
  rewrite !Z.add_0_l.
  destruct (_cols g * _rows g <=? Z.of_nat i) eqn:Ei;
    [apply Z.leb_le in Ei; lia|].
  destruct (_cols g * _rows g <=? Z.of_nat j) eqn:Ej;
    [apply Z.leb_le in Ej; lia|].
  eexists _, _. split; [reflexivity|]. split; [reflexivity|].
  set (c := _cols g) in *. set (r := _rows g) in *.
  set (cw := winWidth / c). set (ch := winHeight / r).
  rewrite !Z.rem_mod_nonneg by lia.
  pose proof (Z.mod_pos_bound (Z.of_nat i) c Hc) as Hai.
  pose proof (Z.mod_pos_bound (Z.of_nat j) c Hc) as Haj.
  pose proof (Z.div_mod (Z.of_nat i) c ltac:(lia)) as Hdi.
  pose proof (Z.div_mod (Z.of_nat j) c ltac:(lia)) as Hdj.
  assert (0 ≤ Z.of_nat i / c) as Hqi by (apply Z.div_pos; lia).
  assert (0 ≤ Z.of_nat j / c) as Hqj by (apply Z.div_pos; lia).
  assert (Z.of_nat i / c < r) as Hri by (apply Z.div_lt_upper_bound; lia).
  assert (Z.of_nat j / c < r) as Hrj by (apply Z.div_lt_upper_bound; lia).
  assert (0 ≤ cw ∧ c * cw ≤ winWidth) as [Hcw0 Hcw].
  { split; [apply Z.div_pos; lia|]. subst cw. apply Z.mul_div_le. lia. }
  assert (0 ≤ ch ∧ r * ch ≤ winHeight) as [Hch0 Hch].
  { split; [apply Z.div_pos; lia|]. subst ch. apply Z.mul_div_le. lia. }
  set (ai := Z.of_nat i `mod` c) in *. set (qi := Z.of_nat i / c) in *.
  set (aj := Z.of_nat j `mod` c) in *. set (qj := Z.of_nat j / c) in *.
  assert (∀ a b k, 0 ≤ k → a + 1 ≤ b → a * k + k ≤ b * k) as Hstep.
  { intros a b k Hk Hab.
    replace (a * k + k) with ((a + 1) * k) by ring.
    by apply Z.mul_le_mono_nonneg_r. }
  split.
  - unfold within. cbn [x y width height bounds].
    pose proof (Hstep ai c cw Hcw0 ltac:(lia)).
    pose proof (Hstep qi r ch Hch0 ltac:(lia)).
    repeat split; try lia; apply Z.mul_nonneg_nonneg; lia.
  - intros Hne. unfold apart. cbn [x y width height bounds].
    destruct (Z.lt_trichotomy ai aj) as [Hlt|[Heq|Hgt]].
    + left. apply Hstep; lia.
    + destruct (Z.lt_trichotomy qi qj) as [Hlt|[Heq'|Hgt]].
      * right; right; left. apply Hstep; lia.
      * exfalso. apply Hne. apply Nat2Z.inj. lia.
      * right; right; right. apply Hstep; lia.
    + right; left. apply Hstep; lia.
Qed.

Lemma grid_cells_inside_and_apart_witness :
  ∃ ri rj,
    bounds <$> GridExample.tiled.2 !! 0%nat = Some ri ∧
    bounds <$> GridExample.tiled.2 !! 1%nat = Some rj ∧
    within ri 800 600 ∧ apart ri rj.
Proof.
  destruct (grid_cells_inside_and_apart 800 600
              {| _views := _views GridExample.two; _cols := 2; _rows := 1;
                 _maximizedId := None |}
              GridExample.store0 0 1 "a" "b" 0 1 GridExample.blank GridExample.blank)
    as (ri & rj & Hi & Hj & Hin & Hap);
    [reflexivity | compute_done | simpl; lia | simpl; lia | lia | lia
    | reflexivity | reflexivity | reflexivity | reflexivity
    | simpl; lia | simpl; lia |].
  exists ri, rj. repeat split; try assumption; try apply Hin.
  apply Hap. lia.
Defined.

(** X3: the grid chosen by [autoGrid] has a cell for every tracked view
    when there are ten views or fewer, never has more than ten cells, and
    so hides every view from the eleventh on. *)
Theorem autoGrid_capacity (win : Z * Z) (g : t) store :
  let n := JsMap.size (_views g) in
  let g' := (autoGrid win g store).1 in
  let store' := (autoGrid win g store).2 in
  ((n ≤ 10)%nat → Z.of_nat n ≤ _cols g' * _rows g') ∧
  _cols g' * _rows g' ≤ 10 ∧
  (NoDup (_views g).*2 →
   ∀ (i : nat) (id : string) (view : nat) (bv : BrowserView),
     _views g !! i = Some (id, view) →
     store !! view = Some bv →
     (10 ≤ i)%nat →
     store' !! view = Some hiddenView).
Proof.
  intros n g' store'. subst g' store'. unfold autoGrid. fold n.
  destruct win as [w h].
  assert (∀ c r, _applyLayout (w, h)
            {| _views := _views g; _cols := c; _rows := r; _maximizedId := None |} store
          = ({| _views := _views g; _cols := c; _rows := r; _maximizedId := None |},
             layoutGrid c r (w / c) (h / r) 0 (_views g) store)) as Happly by done.
  destruct (autoGridDims n) as [c r] eqn:Hd. rewrite Happly. cbn [fst snd _cols _rows].
  assert (((n ≤ 10)%nat → Z.of_nat n ≤ c * r) ∧ c * r ≤ 10) as [Hfit Hcap].
  { unfold autoGridDims in Hd.
    repeat case_match; injection Hd as <- <-;
      repeat match goal with H : (_ <=? _)%nat = _ |- _ =>
        first [apply Nat.leb_le in H | apply Nat.leb_gt in H] end;
      split; intros; lia. }
  split; [done|]. split; [done|].
  intros Hnd i id view bv Hi Hs Hge.
  rewrite (layoutGrid_cell _ _ _ _ 0 _ _ i id view bv Hnd Hi Hs).
  rewrite Z.add_0_l.
  destruct (c * r <=? Z.of_nat i) eqn:E; [done|].
  apply Z.leb_gt in E. lia.
Qed.

Lemma autoGrid_capacity_witness :
  let g' := (autoGrid GridExample.win GridExample.three GridExample.store0).1 in
  3 ≤ _cols g' * _rows g'.
Proof.
  apply (proj1 (autoGrid_capacity GridExample.win GridExample.three
                  GridExample.store0)).
  simpl. lia.
Defined.

(** X4: no layout method touches a view that the manager does not track. *)
Theorem layout_leaves_untracked_views (win : Z * Z) (g : t) store (view : nat)
    (cols rows : Z) (id : string) :
  view ∉ (_views g).*2 →
  (_applyLayout win g store).2 !! view = store !! view ∧
  (setGrid win cols rows g store).2 !! view = store !! view ∧
  (autoGrid win g store).2 !! view = store !! view ∧
  (maximize win id g store).2 !! view = store !! view ∧
  (restoreGrid win g store).2 !! view = store !! view.
Proof.
  intros Hout. destruct win as [w h].
  assert (∀ g0, _views g0 = _views g →
            (_applyLayout (w, h) g0 store).2 !! view = store !! view) as Happly.
  { intros g0 Hv. unfold _applyLayout.
    destruct (_maximizedId g0) as [m|]; [destruct (truthy (Some m))|];
      cbn [snd]; rewrite Hv;
      first [by apply layoutGrid_untouched | by apply layoutMaximized_untouched]. }
  repeat split.
  - by apply Happly.
  - by apply Happly.
  - unfold autoGrid. destruct (autoGridDims _) as [c r]. by apply Happly.
  - unfold maximize. destruct (JsMap.has id (_views g)); [|done].
    by apply Happly.
  - by apply Happly.
Qed.

Lemma layout_leaves_untracked_views_witness :
  (autoGrid GridExample.win GridExample.two GridExample.store0).2 !! 2%nat
  = GridExample.store0 !! 2%nat.
Proof.
  refine (proj1 (proj2 (proj2 (layout_leaves_untracked_views GridExample.win
            GridExample.two GridExample.store0 2 1 1 "a" _)))).
  compute_done.
Defined.

(** X5: the recompute is idempotent: running [_applyLayout] again on its
    own result (a second ['resize'] event with the same size) changes
    nothing. *)
Theorem applyLayout_idempotent (win : Z * Z) (g : t) store :
  let st := _applyLayout win g store in
  _applyLayout win st.1 st.2 = st.
Proof.
  destruct win as [w h]. unfold _applyLayout.
  destruct (_maximizedId g) as [m|] eqn:Hm.
  - destruct (truthy (Some m)) eqn:Ht; cbn [fst snd]; rewrite Hm, Ht; f_equal.
    + apply layoutMaximized_idempotent.
    + apply layoutGrid_idempotent.
  - cbn [fst snd]. rewrite Hm. f_equal. apply layoutGrid_idempotent.
Qed.

(** The maximized id names a tracked view. *)
Lemma maximized_tracked_step (op : GridOps.t) (st : GridOps.State) :
  (∀ id, _maximizedId st.2.1 = Some id → JsMap.has id (_views st.2.1) = true) →
  ∀ id, _maximizedId (GridOps.run op st).2.1 = Some id →
        JsMap.has id (_views (GridOps.run op st).2.1) = true.
Proof.
  destruct st as [win [g store]]. cbn [fst snd]. intros Hinv id.
  assert (∀ win0 g0, (_applyLayout win0 g0 store).1 = g0) as Happly.
  { intros [w h] g0. unfold _applyLayout.
    by destruct (_maximizedId g0) as [m|]; [destruct (truthy (Some m))|]. }
  destruct op as [k v|k|c r| |k| |w' h']; cbn [GridOps.run fst snd].
  - cbn [addView _maximizedId _views]. intros Hm. specialize (Hinv id Hm).
    unfold JsMap.has in *.
    destruct (decide (k = id)) as [->|Hne]; [by rewrite JsMap_get_set|].
    clear -Hinv Hne. induction (_views g) as [|[k0 v0] rest IH]; [done|].
    simpl in *. destruct (String.eqb k0 k) eqn:E.
    + apply String.eqb_eq in E as ->. simpl.
      apply String.eqb_neq in Hne. rewrite Hne.
      by rewrite Hne in Hinv.
    + simpl. destruct (String.eqb k0 id); [done|]. by apply IH.
  - cbn [removeView _maximizedId _views].
    destruct (_maximizedId g) as [m|] eqn:Hm; [|done].
    destruct (String.eqb m k) eqn:E; [done|].
    intros [= ->]. apply String.eqb_neq in E.
    unfold JsMap.has. rewrite JsMap_get_delete_ne by done.
    by apply Hinv.
  - unfold setGrid. by rewrite Happly.
  - unfold autoGrid. destruct (autoGridDims _) as [c r]. by rewrite Happly.
  - unfold maximize. destruct (JsMap.has k (_views g)) eqn:Hk; cbn [negb fst snd].
    + rewrite Happly. cbn [_maximizedId _views]. by intros [= <-].
    + by apply Hinv.
  - unfold restoreGrid. by rewrite Happly.
  - rewrite Happly. by apply Hinv.
Qed.

(** X6: after any sequence of [addView], [removeView], [setGrid],
    [autoGrid], [maximize], [restoreGrid] calls and window resizes on a
    new manager, the id recorded as maximized, if any, is the id of a
    tracked view. *)
Theorem maximized_id_is_tracked (ops : list GridOps.t) (win : Z * Z) store :
  let g := (GridOps.runAll ops (win, (new, store))).2.1 in
  ∀ id, _maximizedId g = Some id → JsMap.has id (_views g) = true.
Proof.
  cbn zeta.
  assert (∀ st : GridOps.State,
            (∀ id, _maximizedId st.2.1 = Some id →
                   JsMap.has id (_views st.2.1) = true) →
            ∀ id, _maximizedId (GridOps.runAll ops st).2.1 = Some id →
                  JsMap.has id (_views (GridOps.runAll ops st).2.1) = true) as Hgen.
  { induction ops as [|op rest IH]; intros st Hinv; [done|].
    cbn [GridOps.runAll]. apply IH. by apply maximized_tracked_step. }
  apply Hgen. done.
Qed.

Lemma maximized_id_is_tracked_witness :
  let g := (GridOps.runAll
              [GridOps.AddView "a" 0; GridOps.AddView "b" 1; GridOps.Maximize "b";
               GridOps.RemoveView "a"]
              (GridExample.win, (new, GridExample.store0))).2.1 in
  JsMap.has "b" (_views g) = true.
Proof.
  apply (maximized_id_is_tracked
           [GridOps.AddView "a" 0; GridOps.AddView "b" 1; GridOps.Maximize "b";
            GridOps.RemoveView "a"]
           GridExample.win GridExample.store0).
  reflexivity.
Defined.
End GridManagerMore.

(** ** ProfileManager: the registry *)

Section JsMapMore.
Context {V : Type}.
Implicit Types (m : list (string * V)) (k : string).

Lemma JsMap_get_set_ne k k' (v : V) m :
  k ≠ k' → JsMap.get k' (JsMap.set k v m) = JsMap.get k' m.
Proof.
  intros Hne. apply String.eqb_neq in Hne.
  induction m as [|[k0 v0] rest IH]; simpl.
  - by rewrite Hne.
  - destruct (String.eqb k0 k) eqn:E; simpl.
    + apply String.eqb_eq in E as ->. by rewrite Hne.
    + by rewrite IH.
Qed.

(** [set] keeps the place of a key that is there and appends a new one. *)
Lemma JsMap_keys_set k (v : V) m :
  JsMap.keys (JsMap.set k v m)
  = if JsMap.has k m then JsMap.keys m else JsMap.keys m ++ [k].
Proof.
  unfold JsMap.keys, JsMap.has.
  induction m as [|[k0 v0] rest IH]; cbn [JsMap.set JsMap.get]; [done|].
  destruct (String.eqb k0 k) eqn:E.
  - apply String.eqb_eq in E as ->. by rewrite !fmap_cons.
  - rewrite !fmap_cons, IH. by destruct (JsMap.get k rest).
Qed.

Lemma JsMap_delete_absent k m : JsMap.get k m = None → JsMap.delete k m = m.
Proof.
  induction m as [|[k0 v0] rest IH]; simpl; [done|].
  destruct (String.eqb k0 k); [done|]. intros H. by rewrite IH.
Qed.

Lemma JsMap_keys_delete_NoDup k m :
  NoDup (JsMap.keys m) → NoDup (JsMap.keys (JsMap.delete k m)).
Proof.
  unfold JsMap.keys. induction m as [|[k0 v0] rest IH]; simpl; [done|].
  intros Hnd. apply NoDup_cons in Hnd as [Hk0 Hnd].
  destruct (String.eqb k0 k); [done|]. simpl.
  apply NoDup_cons. split; [|by apply IH].
  intros Hin. apply Hk0. clear -Hin.
  induction rest as [|[k1 v1] rest IH]; simpl in *; [done|].
  destruct (String.eqb k1 k); simpl in *.
  - by apply elem_of_cons; right.
  - apply elem_of_cons in Hin as [->|Hin]; [by apply elem_of_cons; left|].
    apply elem_of_cons; right. by apply IH.
Qed.

Lemma JsMap_keys_set_NoDup k (v : V) m :
  NoDup (JsMap.keys m) → NoDup (JsMap.keys (JsMap.set k v m)).
Proof.
  intros Hnd. rewrite JsMap_keys_set. unfold JsMap.has.
  destruct (JsMap.get k m) eqn:E; [done|].
  apply NoDup_app. split; [done|]. split; [|apply NoDup_singleton].
  intros x Hx Hk. apply list_elem_of_singleton in Hk as ->.
  by apply JsMap_get_None in E.
Qed.
End JsMapMore.

Section ProfileManagerMore.
Import ProfileManager.

(** X7: [create] never throws, also when [setProxy] rejects; the profile
    it returns has the partition ["persist:" ++ id] and is the one that
    [get] then finds; the other ids keep their profiles; a new id is
    appended to [list()] and an id that exists keeps its place; the only
    host call is [setProxy], made when a non-empty proxy is given. *)
Theorem create_then_get (env : Env) (tr : Datatypes.list Call) (pm : t)
    (id : string) (options : Options) :
  ∃ profile pm',
    create id options env tr pm
    = (Ok profile,
       tr ++ (if truthy (opt_proxy options)
              then [SessionSetProxy ("persist:" ++ id)
                      (default ""%string (opt_proxy options))]
              else []),
       pm') ∧
    partition profile = ("persist:" ++ id)%string ∧
    get id pm' = Some profile ∧
    (∀ id', id ≠ id' → get id' pm' = get id' pm) ∧
    list pm' = (if JsMap.has id pm then list pm else list pm ++ [id]).
Proof.
  unfold create. unfold_monad.
  eexists _, (JsMap.set id _ pm).
  split.
  - destruct (truthy (opt_proxy options)); [|by rewrite app_nil_r].
    by destruct (env (length tr) _).
  - cbn [partition]. split; [done|]. unfold get, list.
    split; [apply JsMap_get_set|].
    split; [intros id' Hne; by apply JsMap_get_set_ne|].
    apply JsMap_keys_set.
Qed.

Lemma create_then_get_witness :
  ∃ profile pm',
    create "u2" (mkOptions (Some "http://proxy:8080"%string) None)
      (λ _ _, true) [] registryU1
    = (Ok profile, [SessionSetProxy "persist:u2" "http://proxy:8080"], pm') ∧
    get "u1" pm' = get "u1" registryU1 ∧
    list pm' = ["u1"; "u2"]%string.
Proof.
  destruct (create_then_get (λ _ _, true) [] registryU1 "u2"
              (mkOptions (Some "http://proxy:8080"%string) None))
    as (profile & pm' & Hrun & _ & _ & Hothers & Hlist).
  exists profile, pm'. split; [exact Hrun|]. split.
  - apply Hothers. discriminate.
  - exact Hlist.
Defined.

Lemma ProfileManager_destroy_result env tr (pm : t) id :
  ∃ session,
    destroy id env tr pm = (Ok tt, tr ++ session, JsMap.delete id pm) ∧
    forallb isSessionClear session = true.
Proof.
  unfold destroy. unfold_monad.
  destruct (JsMap.get id pm) as [profile|] eqn:Hget.
  - split_tests; eexists; rewrite <- ?app_assoc; (split; [reflexivity|done]).
  - exists []. rewrite app_nil_r, JsMap_delete_absent by done. done.
Qed.

Lemma ProfileManager_destroyEach_keys env tr (pm : t) :
  ∃ session,
    destroyEach (JsMap.keys pm) env tr pm = (Ok tt, tr ++ session, []) ∧
    forallb isSessionClear session = true.
Proof.
  revert tr. induction pm as [|[k v] rest IH]; intros tr.
  - exists []. by rewrite app_nil_r.
  - unfold JsMap.keys. rewrite fmap_cons. cbn [fst destroyEach].
    destruct (ProfileManager_destroy_result env tr ((k, v) :: rest) k)
      as (s1 & E1 & F1).
    cbn [JsMap.delete] in E1. rewrite String.eqb_refl in E1.
    destruct (IH (tr ++ s1)) as (s2 & E2 & F2).
    exists (s1 ++ s2). unfold mbind, M_bind. rewrite E1.
    unfold JsMap.keys in E2. rewrite E2, app_assoc.
    split; [done|]. by rewrite forallb_app, F1, F2.
Qed.

(** X8: [cleanup] never throws and leaves the registry empty, whatever
    the session calls do; it makes session-clearing calls only. *)
Theorem cleanup_empties_registry (env : Env) (tr : Datatypes.list Call) (pm : t) :
  ∃ session,
    cleanup env tr pm = (Ok tt, tr ++ session, new) ∧
    forallb isSessionClear session = true.
Proof.
  unfold cleanup, list. unfold mbind at 1. unfold M_bind, getState.
  apply ProfileManager_destroyEach_keys.
Qed.
End ProfileManagerMore.

(** ** utils.js: the guards of the debugger channel, [poll] at its limit *)

Section UtilsMore.
Import Utils.

(** X9: [safeAttachDebugger] and [safeDetachDebugger] never throw.
    Attaching returns whether the debugger is attached afterwards and
    makes no call when it already is; detaching makes no call when the
    debugger is not attached, and leaves it attached when [detach]
    throws. *)
Theorem safe_attach_detach (env : Env) (tr : list Call) (p : Page) :
  (∃ p',
     safeAttachDebugger env tr p
     = (Ok (attached p'),
        tr ++ (if attached p then [] else [DebuggerAttach (wcId p)]), p') ∧
     p' = (if attached p then p
           else if env (length tr) (DebuggerAttach (wcId p)) then p
           else withAttached true p)) ∧
  (∃ p',
     safeDetachDebugger env tr p
     = (Ok tt, tr ++ (if attached p then [DebuggerDetach (wcId p)] else []), p') ∧
     p' = (if attached p
           then if env (length tr) (DebuggerDetach (wcId p)) then p
                else withAttached false p
           else p)).
Proof.
  split.
  - unfold safeAttachDebugger. unfold_monad.
    destruct (attached p) eqn:Hatt.
    + exists p. by rewrite Hatt, app_nil_r.
    + destruct (env (length tr) _); eexists; (split; [|reflexivity]);
        by rewrite ?Hatt.
  - unfold safeDetachDebugger. unfold_monad.
    destruct (attached p) eqn:Hatt.
    + destruct (env (length tr) _); eexists; (split; [|reflexivity]); done.
    + exists p. by rewrite app_nil_r.
Qed.

(** X10: [cdpSend] sends the command only over an attached debugger: when
    the debugger is attached it makes the one [sendCommand] call; when it
    is not, it attaches first, and if attaching fails it throws "Cannot
    attach debugger for CDP command" without sending anything. *)
Theorem cdpSend_needs_attachment (env : Env) (tr : list Call) (p : Page) (c : Cdp) :
  let attach := DebuggerAttach (wcId p) in
  let send := DebuggerSendCommand (wcId p) c in
  let sent (n : nat) : Outcome unit :=
    if env n send then Throw "host call failed" else Ok tt in
  (attached p = true →
   cdpSend c env tr p = (sent (length tr), tr ++ [send], p)) ∧
  (attached p = false → env (length tr) attach = false →
   cdpSend c env tr p
   = (sent (S (length tr)), tr ++ [attach; send], withAttached true p)) ∧
  (attached p = false → env (length tr) attach = true →
   cdpSend c env tr p
   = (Throw "Cannot attach debugger for CDP command", tr ++ [attach], p)).
Proof.
  intros attach send sent. subst attach send sent.
  unfold cdpSend, safeAttachDebugger. unfold_monad.
  repeat split.
  - intros ->. by destruct (env (length tr) _).
  - intros Hatt Hattach. rewrite !Hatt, Hattach.
    rewrite length_app, Nat.add_1_r. cbn [length].
    rewrite <- app_assoc. by destruct (env (S (length tr)) _).
  - intros Hatt Hattach. by rewrite !Hatt, Hattach.
Qed.

Lemma cdpSend_needs_attachment_witness :
  cdpSend PageEnable (λ _ _, true) [] (ElectronPage.blank 0 false false)
  = (Throw "Cannot attach debugger for CDP command", [DebuggerAttach 0],
     ElectronPage.blank 0 false false).
Proof.
  apply (proj2 (proj2 (cdpSend_needs_attachment (λ _ _, true) []
                         (ElectronPage.blank 0 false false) PageEnable)));
    reflexivity.
Defined.

Local Open Scope Z_scope.

Lemma pollLoop_never_ready fn start timeout interval fuel :
  (∀ k, notReady fn k) →
  ∀ k now,
    pollLoop fuel fn k start now timeout interval = PollTimedOut timeout ∨
    pollLoop fuel fn k start now timeout interval = OutOfFuel.
Proof.
  intros Hnr. induction fuel as [|fuel IH]; intros k now; [by right|].
  cbn [pollLoop].
  destruct (now - start <? timeout); [|by left].
  destruct (Hnr k) as (u & -> & ->). apply IH.
Qed.

(** X11: [poll] rejects with the timeout error when the probe is never
    ready, and so do [waitForSelector] and [waitForFunction] when every
    evaluation throws or gives a falsy value; with a timeout that is not
    positive, [poll] rejects at once, whatever the probe would return. *)
Theorem poll_times_out (fn exec : Probe) (now timeout interval : Z) :
  ((∀ k, notReady fn k) →
   poll fn now timeout interval = PollTimedOut timeout) ∧
  ((∀ k, Waiter.attemptFails exec k) →
   Waiter.waitForSelector exec now timeout = PollTimedOut timeout ∧
   Waiter.waitForFunction exec now timeout = PollTimedOut timeout) ∧
  (timeout ≤ 0 → poll fn now timeout interval = PollTimedOut timeout).
Proof.
  assert (∀ f i, (∀ k, notReady f k) →
            poll f now timeout i = PollTimedOut timeout) as Hpoll.
  { intros f i Hnr.
    destruct (pollLoop_never_ready f now timeout i (S (Z.to_nat timeout))
                Hnr 0%nat now) as [H|H]; [exact H|].
    by apply poll_returns in H. }
  split; [apply Hpoll|]. split.
  - intros Hfails. split; apply Hpoll; intros k.
    + by apply selectorProbe_notReady.
    + by apply functionProbe_notReady.
  - intros Hle. unfold poll. cbn [pollLoop].
    destruct (Z.ltb_spec (now - now) timeout); [lia|done].
Qed.

Lemma poll_times_out_witness :
  Waiter.waitForSelector (λ _, mkAttempt (Throw "no context") 3) 0 1000
  = PollTimedOut 1000 ∧
  poll flakyProbe 0 0 100 = PollTimedOut 0.
Proof.
  split.
  - apply (proj1 (proj2 (poll_times_out flakyProbe
                           (λ _, mkAttempt (Throw "no context") 3) 0 1000 100))).
    intros k. left. by eexists.
  - apply (proj2 (proj2 (poll_times_out flakyProbe flakyProbe 0 0 100))). lia.
Defined.
End UtilsMore.

(** ** The listeners of the debugger channel: what they send *)

Section ListenerAnswers.
Import Utils.

(** A command sent over an attached debugger by [cdpSend]: one call. *)
Lemma cdpSend_attached env tr (p : Page) (c : Cdp) :
  attached p = true →
  cdpSend c env tr p
  = (if env (length tr) (DebuggerSendCommand (wcId p) c)
     then Throw "host call failed" else Ok tt,
     tr ++ [DebuggerSendCommand (wcId p) c], p).
Proof.
  intros Ha. unfold cdpSend. unfold_monad. rewrite Ha.
  by destruct (env _ _).
Qed.

(** [cdpSend(...).catch(() => {})] never throws; it may attach the
    debugger, and changes nothing else. *)
Lemma cdpSendQuiet_total env tr (p : Page) (c : Cdp) :
  ∃ calls p',
    cdpSendQuiet c env tr p = (Ok tt, tr ++ calls, p') ∧
    (p' = p ∨ p' = withAttached true p) ∧
    (attached p = true → calls = [DebuggerSendCommand (wcId p) c]).
Proof.
  destruct (attached p) eqn:Ha.
  - rewrite cdpSendQuiet_attached by done.
    eexists _, _. split; [reflexivity|]. split; [by left|done].
  - unfold cdpSendQuiet, cdpSend, safeAttachDebugger. unfold_monad.
    rewrite !Ha.
    destruct (env (length tr) (DebuggerAttach (wcId p))).
    + eexists _, _. split; [reflexivity|]. split; [by left|done].
    + destruct (env (length (tr ++ [DebuggerAttach (wcId p)])) _);
        eexists _, _; rewrite <- app_assoc;
        (split; [reflexivity|]); (split; [by right|done]).
Qed.

(** X12: the listener made by [blockResourceTypes], on an attached
    debugger, answers every paused request with one command and never
    throws: [Fetch.failRequest] when the resource type is in the list
    given to [blockResourceTypes], [Fetch.continueRequest] otherwise. A
    message of another method is left alone. *)
Theorem block_listener_answers (env : Env) (tr : list Call) (p : Page)
    (uid : nat) (typesArray : list string) :
  attached p = true →
  (∀ requestId resourceType,
     Host.deliver (OnRequestPausedBlock uid typesArray)
       (FetchRequestPaused requestId resourceType) env tr p
     = (Ok tt,
        tr ++ [DebuggerSendCommand (wcId p)
                 (if bool_decide (resourceType ∈ typesArray)
                  then FetchFailRequest requestId "BlockedByClient"
                  else FetchContinueRequest requestId None None)], p)) ∧
  (∀ m, methodOf m ≠ "Fetch.requestPaused"%string →
     Host.deliver (OnRequestPausedBlock uid typesArray) m env tr p
     = (Ok tt, tr, p)).
Proof.
  intros Ha. split.
  - intros requestId resourceType. cbn [Host.deliver Network.onRequestPausedBlock].
    destruct (bool_decide (resourceType ∈ typesArray));
      by apply cdpSendQuiet_attached.
  - intros m Hm. apply deliver_other. simpl. congruence.
Qed.

Lemma block_listener_answers_witness :
  Host.deliver (OnRequestPausedBlock 0 ["Image"%string])
    (FetchRequestPaused "r1" "Image") (λ _ _, true) [] ChannelExample.blocking
  = (Ok tt, [DebuggerSendCommand 0 (FetchFailRequest "r1" "BlockedByClient")],
     ChannelExample.blocking).
Proof.
  apply (proj1 (block_listener_answers (λ _ _, true) [] ChannelExample.blocking
                  0 ["Image"%string] eq_refl) "r1"%string "Image"%string).
Defined.

(** X13: when the interception handler returns an object whose [action]
    is neither "continue" nor "block" (a missing action, or the "modify"
    that the comment of [interceptRequests] names), the listener sends no
    command at all: the request stays paused. *)
Theorem intercept_unknown_action_sends_nothing (env : Env) (tr : list Call)
    (p : Page) (uid : nat) (h : InterceptHandler) (requestId resourceType : string)
    (res : InterceptResult) :
  _interceptHandler (network p) = Some h →
  h (FetchRequestPaused requestId resourceType) = Ok (Some res) →
  action res ≠ Some "continue"%string →
  action res ≠ Some "block"%string →
  Host.deliver (OnRequestPausedIntercept uid)
    (FetchRequestPaused requestId resourceType) env tr p
  = (Ok tt, tr, p).
Proof.
  intros Hh Hres Hc Hb. cbn [Host.deliver Network.onRequestPausedIntercept].
  rewrite (bind_ok getState _ env tr p p tr p) by reflexivity.
  rewrite Hh, Hres. rewrite !bool_decide_eq_false_2 by done.
  reflexivity.
Qed.

Lemma intercept_unknown_action_sends_nothing_witness :
  Host.deliver (OnRequestPausedIntercept 0) (FetchRequestPaused "r1" "Image")
    envOk [] ChannelExample.rewriting
  = (Ok tt, [], ChannelExample.rewriting).
Proof.
  apply (intercept_unknown_action_sends_nothing envOk [] ChannelExample.rewriting
           0 ChannelExample.modifying "r1" "Image"
           (mkInterceptResult (Some "modify"%string)
              (Some "https://example.org/"%string) None));
    [reflexivity | reflexivity | discriminate | discriminate].
Defined.

(** X14: the verdicts of an interception handler, on an attached
    debugger.  A falsy result or the action "continue" continues the
    request, with the [url] of the result when it is not empty and with
    its [headers]; the action "block" fails the request.  When the host
    rejects that command, the listener sends a plain
    [Fetch.continueRequest] after it, and never throws. *)
Theorem intercept_verdicts (env : Env) (tr : list Call) (p : Page) (uid : nat)
    (h : InterceptHandler) (requestId resourceType : string)
    (res : option InterceptResult) (c : Cdp) :
  attached p = true →
  _interceptHandler (network p) = Some h →
  h (FetchRequestPaused requestId resourceType) = Ok res →
  (res = None ∧ c = FetchContinueRequest requestId None None) ∨
  (∃ r, res = Some r ∧
        ((action r = Some "continue"%string ∧
          c = FetchContinueRequest requestId
                (if truthy (res_url r) then res_url r else None) (res_headers r)) ∨
         (action r = Some "block"%string ∧
          c = FetchFailRequest requestId "BlockedByClient"))) →
  let send := DebuggerSendCommand (wcId p) in
  Host.deliver (OnRequestPausedIntercept uid)
    (FetchRequestPaused requestId resourceType) env tr p
  = (Ok tt,
     tr ++ (if env (length tr) (send c)
            then [send c; send (FetchContinueRequest requestId None None)]
            else [send c]),
     p).
Proof.
  intros Ha Hh Hres Hcases send. subst send.
  cbn [Host.deliver Network.onRequestPausedIntercept].
  rewrite (bind_ok getState _ env tr p p tr p) by reflexivity.
  rewrite Hh, Hres.
  assert (tryCatch (cdpSend c)
            (λ _, cdpSendQuiet (FetchContinueRequest requestId None None)) env tr p
          = (Ok tt,
             tr ++ (if env (length tr) (DebuggerSendCommand (wcId p) c)
                    then [DebuggerSendCommand (wcId p) c;
                          DebuggerSendCommand (wcId p)
                            (FetchContinueRequest requestId None None)]
                    else [DebuggerSendCommand (wcId p) c]), p)) as Hsend.
  { unfold tryCatch at 1. rewrite cdpSend_attached by done.
    destruct (env (length tr) _); [|done].
    rewrite cdpSendQuiet_attached by done. by rewrite <- app_assoc. }
  destruct Hcases as [[-> ->]|(r & -> & [[Hact ->]|[Hact ->]])].
  - exact Hsend.
  - rewrite bool_decide_eq_true_2 by done. exact Hsend.
  - rewrite bool_decide_eq_false_2 by (rewrite Hact; discriminate).
    rewrite bool_decide_eq_true_2 by done. exact Hsend.
Qed.

Lemma intercept_verdicts_witness :
  Host.deliver (OnRequestPausedIntercept 0) (FetchRequestPaused "r1" "Image")
    (λ _ _, true) [] InterceptExample.refusing
  = (Ok tt,
     [DebuggerSendCommand 0 (FetchFailRequest "r1" "BlockedByClient");
      DebuggerSendCommand 0 (FetchContinueRequest "r1" None None)],
     InterceptExample.refusing).
Proof.
  refine (intercept_verdicts (λ _ _, true) [] InterceptExample.refusing 0
            InterceptExample.blockAll "r1" "Image"
            (Some (mkInterceptResult (Some "block"%string) None None))
            (FetchFailRequest "r1" "BlockedByClient") eq_refl eq_refl eq_refl _).
  right. eexists. split; [reflexivity|]. right. split; reflexivity.
Defined.

(** X15: the listener made by [DialogHandler.enable] never throws; it
    appends every dialog to the history, also when no answer can be
    sent; on an attached debugger it sends exactly one
    [Page.handleJavaScriptDialog] for the dialog, whatever the custom
    handler returns or throws; and it leaves the registrations on the
    channel as they are. *)
Theorem dialog_listener_answers_once (env : Env) (tr : list Call) (p : Page)
    (uid : nat) (type message defaultPrompt url : string) :
  let m := PageJavascriptDialogOpening type message defaultPrompt url in
  ∃ calls p',
    Host.deliver (OnDialog uid) m env tr p = (Ok tt, tr ++ calls, p') ∧
    _dialogHistory (dialogs p')
    = _dialogHistory (dialogs p) ++ [mkDialog type message defaultPrompt url] ∧
    chan p' = chan p ∧
    (attached p = true →
     ∃ accept text,
       calls = [DebuggerSendCommand (wcId p)
                  (PageHandleJavaScriptDialog accept text)]).
Proof.
  intros m. subst m. cbn [Host.deliver DialogHandler.onDialog].
  erewrite bind_ok; [|reflexivity].
  erewrite bind_ok; [|reflexivity].
  cbn [dialogs withDialogs dlg_handler _defaultOptions].
  match goal with
  | |- context [let '(_, _) := ?d in _] => destruct d as [accept text]
  end.
  set (p1 := withDialogs _ p).
  destruct (cdpSendQuiet_total env tr p1 (PageHandleJavaScriptDialog accept text))
    as (calls & p' & -> & Hp' & Hone).
  exists calls, p'. split; [done|].
  split; [by destruct Hp' as [->| ->]|].
  split; [by destruct Hp' as [->| ->]|].
  intros Ha. exists accept, text. by apply Hone.
Qed.

Lemma dialog_listener_answers_once_witness :
  ∃ calls p',
    Host.deliver (OnDialog 0) (PageJavascriptDialogOpening "alert" "hi" "" "")
      envOk [] ChannelExample.dialogsOn = (Ok tt, [] ++ calls, p') ∧
    ∃ accept text,
      calls = [DebuggerSendCommand 0 (PageHandleJavaScriptDialog accept text)].
Proof.
  destruct (dialog_listener_answers_once envOk [] ChannelExample.dialogsOn 0
              "alert" "hi" "" "") as (calls & p' & Hrun & _ & _ & Hone).
  exists calls, p'. split; [exact Hrun|]. apply Hone. reflexivity.
Defined.

(** X16: [Network.enable] and [DialogHandler.enable] return normally
    exactly when their [_enabled] flag is set afterwards, so a failed
    enable is tried again by the next call; when the flag is set already
    they make no call and change nothing. *)
Theorem enable_flag_follows_result (env : Env) (tr : list Call) (p : Page)
    (options : DialogOptions) :
  let rn := Network.enable env tr p in
  let rd := DialogHandler.enable options env tr p in
  (rn.1.1 = Ok tt ↔ net_enabled (network rn.2) = true) ∧
  (net_enabled (network p) = true → rn = (Ok tt, tr, p)) ∧
  (rd.1.1 = Ok tt ↔ dlg_enabled (dialogs rd.2) = true) ∧
  (dlg_enabled (dialogs p) = true → rd = (Ok tt, tr, p)).
Proof.
  cbn zeta.
  split; [|split; [|split]].
  - unfold Network.enable.
    rewrite (bind_ok getState _ env tr p p tr p) by reflexivity.
    destruct (net_enabled (network p)) eqn:Hen; [done|].
    assert (keeps (λ p, net_enabled (network p)) safeAttachDebugger) as Hk
      by (unfold safeAttachDebugger; solve_keeps).
    pose proof (Hk env tr p) as H1. unfold mbind, M_bind.
    destruct (safeAttachDebugger env tr p) as [[[b|e] tr1] p1];
      cbn [fst snd] in *; [|by rewrite H1, Hen].
    assert (keeps (λ p, net_enabled (network p)) (cdpSend NetworkEnable)) as Hk2
      by (unfold cdpSend; solve_keeps).
    pose proof (Hk2 env tr1 p1) as H2.
    destruct (cdpSend NetworkEnable env tr1 p1) as [[[u|e] tr2] p2];
      cbn [snd fst] in *; [by destruct u|].
    rewrite H2, H1, Hen. done.
  - intros Hen. unfold Network.enable. unfold_monad. by rewrite Hen.
  - unfold DialogHandler.enable.
    rewrite (bind_ok getState _ env tr p p tr p) by reflexivity.
    destruct (dlg_enabled (dialogs p)) eqn:Hen; [done|].
    assert (keeps (λ p, dlg_enabled (dialogs p)) safeAttachDebugger) as Hk
      by (unfold safeAttachDebugger; solve_keeps).
    pose proof (Hk env tr p) as H1. unfold mbind, M_bind.
    destruct (safeAttachDebugger env tr p) as [[[b|e] tr1] p1];
      cbn [fst snd] in *; [|by rewrite H1, Hen].
    assert (keeps (λ p, dlg_enabled (dialogs p)) (cdpSend PageEnable)) as Hk2
      by (unfold cdpSend; solve_keeps).
    pose proof (Hk2 env tr1 p1) as H2.
    destruct (cdpSend PageEnable env tr1 p1) as [[[u|e] tr2] p2];
      cbn [snd fst] in *; [done|].
    rewrite H2, H1, Hen. done.
  - intros Hen. unfold DialogHandler.enable. unfold_monad. by rewrite Hen.
Qed.

Lemma enable_flag_follows_result_witness :
  Network.enable (λ _ _, true) [] (ChannelExample.blocking)
  = (Ok tt, [], ChannelExample.blocking).
Proof.
  apply (proj1 (proj2 (enable_flag_follows_result (λ _ _, true) []
                         ChannelExample.blocking ChannelExample.defaults))).
  reflexivity.
Defined.
End ListenerAnswers.

(** ** DownloadManager: teardown, and the ids of the downloads *)

Section DownloadManagerMore.
Import DownloadManager.

Lemma cancelActive_calls env tr (p : Page) wc ds :
  cancelActive wc ds env tr p
  = (Ok tt, tr ++ (DownloadItemCancel wc <$> activeDownloads ds), p).
Proof.
  revert tr. induction ds as [|[id info] rest IH]; intros tr.
  - by rewrite app_nil_r.
  - cbn [cancelActive]. unfold activeDownloads. rewrite filter_cons.
    cbn [snd]. unfold mbind, M_bind.
    destruct (String.eqb (dl_state info) "progressing" && dl_hasItem info) eqn:E.
    + rewrite decide_True by done. rewrite !fmap_cons. cbn [fst].
      unfold tryCatch, host.
      destruct (env (length tr) _); unfold mret, M_ret;
        rewrite IH; unfold activeDownloads; by rewrite <- app_assoc.
    + rewrite decide_False by (by intros ?). unfold mret at 1, M_ret. by rewrite IH.
Qed.

(** [destroy], run: the calls it makes and the state it leaves. *)
Lemma DownloadManager_destroy_run env tr (p : Page) :
  ∃ p',
    destroy env tr p
    = (Ok tt,
       tr ++ (DownloadItemCancel (wcId p) <$> activeDownloads (_downloads (downloads p)))
          ++ (if dls_enabled (downloads p) && _onWillDownload (downloads p)
              then [SessionRemoveWillDownload (wcId p)] else []),
       p') ∧
    _downloads (downloads p') = [] ∧
    dls_enabled (downloads p') = false ∧
    _downloadCounter (downloads p') = _downloadCounter (downloads p) ∧
    chan p' = chan p.
Proof.
  unfold destroy.
  rewrite (bind_ok getState _ env tr p p tr p) by reflexivity.
  erewrite bind_ok; [|apply cancelActive_calls].
  unfold disable. unfold_monad.
  destruct (dls_enabled (downloads p)) eqn:Hen; cbn [negb andb].
  - destruct (_onWillDownload (downloads p)) eqn:Hl; cbn [andb].
    + eexists. rewrite <- app_assoc. split; [reflexivity|]. by simpl.
    + eexists. rewrite !app_nil_r. split; [reflexivity|]. by simpl.
  - eexists. rewrite !app_nil_r. split; [reflexivity|]. by simpl.
Qed.

(** X17: [DownloadManager.destroy] never throws, whatever the calls on
    the items do.  It cancels the downloads in progress, in the order in
    which they started, and no other; then it removes the
    ['will-download'] listener when the manager is enabled; it leaves no
    download record, and the counter of the ids as it is. *)
Theorem downloads_destroy_cancels_active (env : Env) (tr : list Call) (p : Page) :
  let d := downloads p in
  ∃ p',
    destroy env tr p
    = (Ok tt,
       tr ++ (DownloadItemCancel (wcId p) <$> activeDownloads (_downloads d))
          ++ (if dls_enabled d && _onWillDownload d
              then [SessionRemoveWillDownload (wcId p)] else []),
       p') ∧
    _downloads (downloads p') = [] ∧
    dls_enabled (downloads p') = false ∧
    _downloadCounter (downloads p') = _downloadCounter d ∧
    chan p' = chan p.
Proof. apply DownloadManager_destroy_run. Qed.

(** What holds of the records after any calls of the download manager:
    the ids are distinct and each is the id of a download counted so
    far. *)
Lemma download_ids_step (op : PageOp) env tr (p : Page) :
  isDownloadOp op = true →
  (NoDup (JsMap.keys (_downloads (downloads p))) ∧
   ∀ id, id ∈ JsMap.keys (_downloads (downloads p)) →
         ∃ i, (1 ≤ i ≤ _downloadCounter (downloads p))%nat ∧ id = downloadId i) →
  let p' := (runOp op env tr p).2 in
  (_downloadCounter (downloads p) ≤ _downloadCounter (downloads p'))%nat ∧
  NoDup (JsMap.keys (_downloads (downloads p'))) ∧
  ∀ id, id ∈ JsMap.keys (_downloads (downloads p')) →
        ∃ i, (1 ≤ i ≤ _downloadCounter (downloads p'))%nat ∧ id = downloadId i.
Proof.
  intros Hop [Hnd Hids]. destruct op; try discriminate; cbn [runOp].
  - unfold enable. unfold_monad.
    destruct (dls_enabled (downloads p)); simpl; eauto.
  - unfold disable. unfold_monad.
    destruct (dls_enabled (downloads p)); simpl; [|by eauto].
    destruct (_onWillDownload (downloads p)); simpl; eauto.
  - destruct (DownloadManager_destroy_run env tr p)
      as (p' & -> & Hempty & _ & Hcount & _).
    cbn [snd]. rewrite Hempty, Hcount. split; [done|].
    split; [apply NoDup_nil_2|]. intros id Hin. by apply elem_of_nil in Hin.
  - unfold onWillDownload. unfold_monad.
    set (n := S (_downloadCounter (downloads p))).
    assert (∀ info,
              NoDup (JsMap.keys (JsMap.set (downloadId n) info
                                   (_downloads (downloads p)))) ∧
              ∀ id, id ∈ JsMap.keys (JsMap.set (downloadId n) info
                                       (_downloads (downloads p))) →
                    ∃ i, (1 ≤ i ≤ n)%nat ∧ id = downloadId i) as Hset.
    { intros info. split; [by apply JsMap_keys_set_NoDup|].
      intros id. rewrite JsMap_keys_set.
      destruct (JsMap.has _ _).
      - intros Hin. destruct (Hids id Hin) as (i & Hi & ->).
        exists i. split; [lia|done].
      - intros [Hin| ->%list_elem_of_singleton]%elem_of_app.
        + destruct (Hids id Hin) as (i & Hi & ->). exists i. split; [lia|done].
        + exists n. split; [lia|done]. }
    match goal with
    | |- context [if ?b then _ else _] => destruct b
    end; simpl.
    + split; [lia|]. apply Hset.
    + destruct (env (length tr) _); simpl.
      * split; [lia|]. eauto.
      * split; [lia|]. apply Hset.
  - unfold onItemState. unfold_monad. simpl. split; [done|].
    destruct (JsMap.get download (_downloads (downloads p))) as [info|] eqn:Hg;
      [|by eauto].
    destruct (dl_listening info); [|by eauto].
    assert (JsMap.has download (_downloads (downloads p)) = true) as Hhas
      by (unfold JsMap.has; by rewrite Hg).
    split.
    + by apply JsMap_keys_set_NoDup.
    + intros id. rewrite JsMap_keys_set, Hhas. apply Hids.
Qed.


End DownloadManagerMore.

(** ** ElectronPage: teardown and the file chooser *)

Section OpsInvariant.
Import Utils.

(** A property of the registrations that the registering and removing
    steps keep is kept by every call and every event. *)
Context (I : Page → Prop).
Context (I_ext : ∀ p p' : Page, chan p' = chan p → I p → I p').
Context (I_Network_register :
  ∀ mk : nat → Listener,
    (∀ uid, listensTo (mk uid) = "Fetch.requestPaused"%string) →
    triple I (Network.register mk) I).
Context (I_FileChooser_register :
  ∀ files persistent, triple I (ElectronPage.register files persistent) I).
Context (I_Dialog_register :
  ∀ options,
    triple (λ p, I p ∧ dlg_enabled (dialogs p) = false)
      (DialogHandler.register options) I).
Context (I_Network_destroy : triple I Network.destroy I).
Context (I_Dialog_disable : triple I DialogHandler.disable I).
Context (I_stop : triple I ElectronPage.stopInterceptFileChooser I).

Lemma ops_keeps {A} (m : M Page A) : keeps chan m → triple I m I.
Proof using I_ext. apply triple_keeps. intros s s'. apply I_ext. Qed.

Ltac skip_step := apply triple_seq; [apply ops_keeps; solve_keeps|intros ?].

Lemma ops_blockResourceTypes types :
  triple I (Network.blockResourceTypes types) I.
Proof using I_ext I_Network_register.
  unfold Network.blockResourceTypes. do 3 skip_step.
  by apply I_Network_register.
Qed.

Lemma ops_interceptRequests h : triple I (Network.interceptRequests h) I.
Proof using I_ext I_Network_register.
  unfold Network.interceptRequests. do 3 skip_step.
  by apply I_Network_register.
Qed.

Lemma ops_interceptFileChooser files persistent :
  triple I (ElectronPage.interceptFileChooser files persistent) I.
Proof using I_ext I_FileChooser_register.
  unfold ElectronPage.interceptFileChooser. do 3 skip_step.
  apply I_FileChooser_register.
Qed.

Lemma ops_Dialog_enable options : triple I (DialogHandler.enable options) I.
Proof using I_ext I_Dialog_register.
  apply triple_get. intros p Hinv.
  destruct (dlg_enabled (dialogs p)) eqn:Hoff.
  - by intros env tr ? ->.
  - apply (triple_weaken (λ s, I s ∧ dlg_enabled (dialogs s) = false));
      [by intros ? ->|].
    assert (∀ A (m : M Page A), keeps chan m →
              triple (λ s, I s ∧ dlg_enabled (dialogs s) = false) m
                (λ s, I s ∧ dlg_enabled (dialogs s) = false)) as Hskip.
    { intros A m. apply triple_keeps. intros s s' Hc [Hi Hd]. split.
      - by eapply I_ext.
      - unfold chan in Hc. congruence. }
    eapply triple_bind; [apply Hskip; solve_keeps|by intros ? []|intros ?].
    eapply triple_bind; [apply Hskip; solve_keeps|by intros ? []|intros ?].
    apply I_Dialog_register.
Qed.

Lemma ops_Dialog_destroy : triple I DialogHandler.destroy I.
Proof using I_ext I_Dialog_disable.
  apply triple_seq; [apply I_Dialog_disable|].
  intros ?. apply ops_keeps; solve_keeps.
Qed.

Lemma ops_Page_destroy : triple I ElectronPage.destroy I.
Proof using I_ext I_Network_destroy I_Dialog_disable.
  apply triple_get. intros p Hinv.
  apply (triple_weaken I); [by intros ? ->|].
  destruct (_destroyed p); [by apply triple_ret|].
  do 3 skip_step.
  apply triple_seq; [apply I_Network_destroy|intros ?].
  apply triple_seq; [apply ops_Dialog_destroy|intros ?].
  apply ops_keeps.
  apply keeps_bind; [apply keeps_Downloads_destroy|intros ?; solve_keeps].
Qed.

Lemma ops_applyPerformanceOptions :
  triple I ElectronPage._applyPerformanceOptions I.
Proof using I_ext I_Network_register.
  apply triple_get. intros p Hinv.
  apply (triple_weaken I); [by intros ? ->|].
  destruct (_destroyed p); [by apply triple_ret|].
  apply (triple_tryCatch _ I); [|done|intros ?; by apply triple_ret].
  apply triple_seq.
  - destruct (disableImages p); [apply ops_blockResourceTypes|by apply triple_ret].
  - intros ?. apply ops_keeps. solve_keeps.
Qed.

Lemma ops_deliver l m : triple I (Host.deliver l m) I.
Proof using I_ext I_stop.
  destruct l; simpl.
  - apply ops_keeps, keeps_onRequestPausedBlock.
  - apply ops_keeps, keeps_onRequestPausedIntercept.
  - apply ops_keeps, keeps_onDialog.
  - unfold ElectronPage.fileChooserListener. destruct m; try by apply triple_ret.
    skip_step. destruct persistent; [by apply triple_ret|].
    apply I_stop.
Qed.

Lemma ops_deliverAll ls m : triple I (Host.deliverAll ls m) I.
Proof using I_ext I_stop.
  induction ls as [|l ls IH]; simpl; [by apply triple_ret|].
  apply triple_seq; [apply ops_deliver|by intros ?].
Qed.

Lemma ops_invoke l ev : triple I (Host.invoke l ev) I.
Proof using I_ext I_Network_register.
  destruct l; simpl.
  - apply ops_applyPerformanceOptions.
  - by apply triple_ret.
  - apply ops_keeps, keeps_Page_onFinish.
  - destruct ev; apply ops_keeps, keeps_Page_onFail.
  - apply ops_keeps, keeps_Waiter_onStart.
  - apply ops_keeps, keeps_Waiter_onFinish.
Qed.

Lemma ops_invokeAll ls ev : triple I (Host.invokeAll ls ev) I.
Proof using I_ext I_Network_register.
  induction ls as [|[name l] ls IH]; simpl; [by apply triple_ret|].
  apply triple_seq; [|by intros ?].
  destruct (String.eqb name (eventName ev)); [apply ops_invoke|by apply triple_ret].
Qed.

Lemma ops_runOp op : triple I (runOp op) I.
Proof using All.
  destruct op; cbn [runOp].
  - apply ops_keeps, keeps_constructor.
  - apply ops_keeps, keeps_Network_enable.
  - apply ops_keeps, keeps_Network_disable.
  - apply ops_blockResourceTypes.
  - apply ops_interceptRequests.
  - apply I_Network_destroy.
  - apply ops_Dialog_enable.
  - apply I_Dialog_disable.
  - apply ops_Dialog_destroy.
  - apply ops_keeps, keeps_Downloads_enable.
  - apply ops_keeps, keeps_Downloads_disable.
  - apply ops_keeps, keeps_Downloads_destroy.
  - apply ops_interceptFileChooser.
  - apply I_stop.
  - apply ops_keeps, keeps_bind;
      [apply keeps_waitForNavigation|intros ?; apply keeps_ret].
  - apply ops_keeps, keeps_bind;
      [apply keeps_waitForNetworkIdle|intros ?; apply keeps_ret].
  - apply ops_Page_destroy.
  - apply triple_get. intros p Hinv.
    apply (triple_weaken I); [by intros ? ->|]. apply ops_deliverAll.
  - apply triple_get. intros p Hinv.
    apply (triple_weaken I); [by intros ? ->|]. apply ops_invokeAll.
  - apply triple_get. intros p Hinv.
    apply (triple_weaken I); [by intros ? ->|].
    destruct (armed timer (timers p)) as [cb|]; [|by apply triple_ret].
    apply triple_seq; [apply ops_keeps, keeps_modify; by intros ?|intros ?].
    destruct cb; apply ops_keeps;
      [apply keeps_Page_onTimeout|apply keeps_Waiter_onTimeout
      |apply keeps_Waiter_onQuiet].
  - apply ops_keeps, keeps_onWillDownload.
  - apply ops_keeps, keeps_onItemState.
Qed.

Lemma ops_runOps ops env tr (p : Page) : I p → I (runOps ops env tr p).2.
Proof using All.
  revert tr p. induction ops as [|op ops IH]; intros tr p Hinv; [done|].
  simpl. pose proof (ops_runOp op env tr p Hinv) as Hstep.
  destruct (runOp op env tr p) as [[r tr'] p']. by apply IH.
Qed.
End OpsInvariant.

Section PageLifecycle.
Import Utils.

Lemma slotKinds_ext (p p' : Page) : chan p' = chan p → slotKinds p → slotKinds p'.
Proof.
  unfold chan, slotKinds. intros [= H0 H1 H2 H3 H4 H5]. by rewrite H2, H3, H5.
Qed.

(** Every slot of a page reached by calls and events holds a listener for
    its own method. *)
Lemma slotKinds_runOps ops env tr (p : Page) :
  slotKinds p → slotKinds (runOps ops env tr p).2.
Proof.
  apply ops_runOps.
  - apply slotKinds_ext.
  - intros mk Hmk env' tr' s (H1 & H2 & H3).
    unfold Network.register, Network.removeOldListener, dbgRemoveListener,
      fresh, dbgOn. unfold_monad.
    destruct (_onRequestPaused (network s)) as [old|]; simpl;
      (split; [|by split]); intros l [= <-]; apply Hmk.
  - intros files persistent env' tr' s (H1 & H2 & H3).
    unfold ElectronPage.register, dbgRemoveListener, fresh, dbgOn. unfold_monad.
    destruct (_fileChooserListener s) as [old|]; simpl;
      (split; [done|split; [done|]]); by intros l [= <-].
  - intros options env' tr' s [(H1 & H2 & H3) _].
    unfold DialogHandler.register, fresh, dbgOn. unfold_monad. simpl.
    split; [done|split; [|done]]. by intros l [= <-].
  - intros env' tr' s (H1 & H2 & H3).
    unfold Network.destroy, dbgRemoveListener. unfold_monad.
    destruct (_onRequestPaused (network s)) eqn:E; unfold slotKinds; simpl;
      (split; [|by split]); intros l0 Hl; first [done | by rewrite E in Hl].
  - intros env' tr' s (H1 & H2 & H3).
    unfold DialogHandler.disable, dbgRemoveListener. unfold_monad.
    destruct (dlg_enabled (dialogs s)); simpl; [|by split].
    destruct (_onDialog (dialogs s)) eqn:E; unfold slotKinds; simpl;
      (split; [done|split; [|done]]); intros l0 Hl; first [done | by rewrite E in Hl].
  - apply triple_get. intros s (H1 & H2 & H3).
    apply (triple_bind _ slotKinds);
      [|done|intros ?; apply (triple_keeps chan);
             [intros ??; apply slotKinds_ext|solve_keeps]].
    intros env' tr' ? ->. unfold dbgRemoveListener. unfold_monad.
    destruct (_fileChooserListener s) eqn:E; unfold slotKinds; simpl;
      (split; [done|split; [done|]]); intros l0 Hl;
      first [done | by rewrite E in Hl].
Qed.

Lemma slotKinds_blank wc images animations :
  slotKinds (ElectronPage.blank wc images animations).
Proof. by split; [|split]. Qed.

Lemma keeps_cancelActive_any {X} (proj : Page → X) wc ds :
  keeps proj (DownloadManager.cancelActive wc ds).
Proof. induction ds as [|[id info] rest IH]; simpl; solve_keeps. Qed.

Lemma destroy_rest_keeps_destroyed :
  keeps _destroyed
    (wcRemoveListener "did-finish-load" PageOnFinishLoad;;
     wcRemoveListener "render-process-gone" PageOnCrash;;
     Network.destroy;; DialogHandler.destroy;; DownloadManager.destroy;;
     safeDetachDebugger).
Proof.
  pose proof (keeps_cancelActive_any _destroyed) as Hc.
  unfold wcRemoveListener, Network.destroy, dbgRemoveListener,
    DialogHandler.destroy, DialogHandler.disable, DialogHandler.clearHistory,
    DownloadManager.destroy, DownloadManager.disable, safeDetachDebugger.
  repeat first [keeps_step | apply Hc].
Qed.

(** X19: [ElectronPage.destroy] leaves the page marked as destroyed, so
    that a second [destroy] makes no call and changes nothing, and so
    that the ['did-finish-load'] handler of the page
    ([_applyPerformanceOptions]) does nothing any more. *)
Theorem page_destroy_idempotent (env env' : Env) (tr : list Call) (p : Page) :
  let r := ElectronPage.destroy env tr p in
  _destroyed r.2 = true ∧
  ElectronPage.destroy env' r.1.2 r.2 = (Ok tt, r.1.2, r.2) ∧
  ElectronPage._applyPerformanceOptions env' r.1.2 r.2 = (Ok tt, r.1.2, r.2).
Proof.
  cbn zeta.
  assert (_destroyed (ElectronPage.destroy env tr p).2 = true) as Hd.
  { unfold ElectronPage.destroy.
    rewrite (bind_ok getState _ env tr p p tr p) by reflexivity.
    destruct (_destroyed p) eqn:E; [done|].
    erewrite bind_ok; [|reflexivity].
    by rewrite destroy_rest_keeps_destroyed. }
  destruct (ElectronPage.destroy env tr p) as [[o tr1] p1]. cbn [fst snd] in *.
  split; [done|]. split.
  - unfold ElectronPage.destroy.
    rewrite (bind_ok getState _ env' tr1 p1 p1 tr1 p1) by reflexivity.
    by rewrite Hd.
  - unfold ElectronPage._applyPerformanceOptions.
    rewrite (bind_ok getState _ env' tr1 p1 p1 tr1 p1) by reflexivity.
    by rewrite Hd.
Qed.

Lemma filter_removeLast_other {A} `{EqDecision A} (P : A → Prop)
    `{∀ x, Decision (P x)} (x : A) (l : list A) :
  ¬ P x → filter P (removeLast x l) = filter P l.
Proof.
  intros Hx. induction l as [|y l IH]; simpl; [done|].
  repeat case_bool_decide.
  - by rewrite !filter_cons, IH.
  - subst. rewrite filter_cons. by rewrite decide_False.
  - done.
Qed.

(** The registrations that [Network.destroy], [DialogHandler.destroy] and
    [ElectronPage.destroy] leave. *)
Lemma Network_destroy_chan env tr (p : Page) :
  chan (Network.destroy env tr p).2
  = (wcId p,
     match _onRequestPaused (network p) with
     | Some o => removeLast o (dbgListeners p)
     | None => dbgListeners p
     end,
     None, _onDialog (dialogs p), dlg_enabled (dialogs p), _fileChooserListener p).
Proof.
  unfold Network.destroy, dbgRemoveListener. unfold_monad.
  destruct (_onRequestPaused (network p)) eqn:E; unfold chan; simpl;
    by rewrite ?E.
Qed.

Lemma Dialog_destroy_chan env tr (p : Page) :
  chan (DialogHandler.destroy env tr p).2
  = (wcId p,
     if dlg_enabled (dialogs p) then
       match _onDialog (dialogs p) with
       | Some o => removeLast o (dbgListeners p)
       | None => dbgListeners p
       end
     else dbgListeners p,
     _onRequestPaused (network p),
     if dlg_enabled (dialogs p) then None else _onDialog (dialogs p),
     false, _fileChooserListener p).
Proof.
  unfold DialogHandler.destroy, DialogHandler.disable, DialogHandler.clearHistory,
    dbgRemoveListener. unfold_monad.
  destruct (dlg_enabled (dialogs p)) eqn:E; simpl.
  - destruct (_onDialog (dialogs p)) eqn:E'; unfold chan; simpl; by rewrite ?E'.
  - unfold chan. simpl. by rewrite E.
Qed.

Lemma Page_destroy_chan env tr (p : Page) :
  _destroyed p = false →
  ∃ p3 : Page,
    chan p3 = (wcId p,
               match _onRequestPaused (network p) with
               | Some o => removeLast o (dbgListeners p)
               | None => dbgListeners p
               end,
               None, _onDialog (dialogs p), dlg_enabled (dialogs p),
               _fileChooserListener p) ∧
    chan (ElectronPage.destroy env tr p).2
    = (wcId p,
       if dlg_enabled (dialogs p3) then
         match _onDialog (dialogs p3) with
         | Some o => removeLast o (dbgListeners p3)
         | None => dbgListeners p3
         end
       else dbgListeners p3,
       None,
       if dlg_enabled (dialogs p3) then None else _onDialog (dialogs p3),
       false, _fileChooserListener p).
Proof.
  intros Hd. unfold ElectronPage.destroy.
  rewrite (bind_ok getState _ env tr p p tr p) by reflexivity. rewrite Hd.
  erewrite bind_ok; [|reflexivity].
  set (p0 := withDestroyed true p).
  destruct (disposes_wcRemoveListener "did-finish-load" PageOnFinishLoad env tr p0)
    as (c1 & p1 & E1 & _).
  pose proof (keeps_wcRemoveListener "did-finish-load" PageOnFinishLoad env tr p0)
    as K1. rewrite E1 in K1. cbn [snd] in K1.
  erewrite bind_ok; [|exact E1].
  destruct (disposes_wcRemoveListener "render-process-gone" PageOnCrash env
              (tr ++ c1) p1) as (c2 & p2 & E2 & _).
  pose proof (keeps_wcRemoveListener "render-process-gone" PageOnCrash env
                (tr ++ c1) p1) as K2. rewrite E2 in K2. cbn [snd] in K2.
  erewrite bind_ok; [|exact E2].
  destruct (disposes_Network_destroy env ((tr ++ c1) ++ c2) p2)
    as (c3 & p3 & E3 & _).
  pose proof (Network_destroy_chan env ((tr ++ c1) ++ c2) p2) as K3.
  rewrite E3 in K3. cbn [snd] in K3.
  erewrite bind_ok; [|exact E3].
  destruct (disposes_DialogHandler_destroy env (((tr ++ c1) ++ c2) ++ c3) p3)
    as (c4 & p4 & E4 & _).
  pose proof (Dialog_destroy_chan env (((tr ++ c1) ++ c2) ++ c3) p3) as K4.
  rewrite E4 in K4. cbn [snd] in K4.
  erewrite bind_ok; [|exact E4].
  assert (keeps chan (DownloadManager.destroy;; safeDetachDebugger)) as K5
    by (apply keeps_bind; [apply keeps_Downloads_destroy|intros ?; solve_keeps]).
  rewrite K5.
  assert (chan p2 = chan p) as K0 by (by rewrite K2, K1).
  unfold chan in K0. injection K0 as W0 L0 R0 D0 N0 F0.
  exists p3. split.
  - rewrite K3. by rewrite W0, L0, R0, D0, N0, F0.
  - rewrite K4. unfold chan in K3. injection K3 as W3 L3 R3 D3 N3 F3.
    by rewrite W3, R3, F3, W0, F0.
Qed.



(** A message goes to the one listener of its method. *)
Lemma deliverAll_others ls (m : Message) env tr (p : Page) :
  (∀ l, l ∈ ls → listensTo l ≠ methodOf m) →
  Host.deliverAll ls m env tr p = (Ok tt, tr, p).
Proof.
  induction ls as [|l ls IH]; intros Hno; [done|].
  cbn [Host.deliverAll]. unfold mbind, M_bind.
  rewrite deliver_other by (apply Hno; left).
  apply IH. intros l' Hl'. apply Hno. by right.
Qed.

Lemma deliverAll_single ls (l0 : Listener) (m : Message) env tr (p : Page) :
  NoDup ls → l0 ∈ ls →
  (∀ l, l ∈ ls → listensTo l = methodOf m → l = l0) →
  Host.deliverAll ls m env tr p = Host.deliver l0 m env tr p.
Proof.
  induction ls as [|l ls IH]; intros Hnd Hin Hone.
  { by apply elem_of_nil in Hin. }
  apply NoDup_cons in Hnd as [Hl Hnd].
  cbn [Host.deliverAll]. unfold mbind, M_bind.
  destruct (decide (l = l0)) as [->|Hne].
  - destruct (Host.deliver l0 m env tr p) as [[[[]|e] tr1] p1]; [|done].
    apply deliverAll_others. intros l' Hl' Hk.
    assert (l' = l0) as -> by (apply Hone; [by right|done]). done.
  - rewrite deliver_other.
    + apply IH; [done| |].
      * apply elem_of_cons in Hin as [->|Hin]; done.
      * intros l' Hl'. apply Hone. by right.
    + intros Hk. apply Hne, Hone; [left|done].
Qed.

(** X21: the listener that [interceptFileChooser] registers without
    [persistent] serves one file chooser.  When [Page.fileChooserOpened]
    arrives over an attached debugger, the files are set on the input of
    the message, the listener is removed and forgotten, and interception
    is switched off; no listener for the method remains.  A persistent
    listener sets the files and stays. *)
Theorem file_chooser_listener_one_shot (env : Env) (tr : list Call) (p : Page)
    (uid : nat) (files : list string) (persistent : bool) (backendNodeId : Z) :
  let l := FileChooserListener uid files persistent in
  let send := DebuggerSendCommand (wcId p) in
  channelInv p →
  attached p = true →
  _fileChooserListener p = Some l →
  l ∈ dbgListeners p →
  ∃ p',
    Host.message (PageFileChooserOpened backendNodeId) env tr p
    = (Ok tt,
       tr ++ [send (DOMSetFileInputFiles backendNodeId files)]
          ++ (if persistent then []
              else [DebuggerRemoveListener (wcId p) l;
                    send (PageSetInterceptFileChooserDialog false)]),
       p') ∧
    handlersOf "Page.fileChooserOpened" p' = (if persistent then [l] else []) ∧
    _fileChooserListener p' = (if persistent then Some l else None).
Proof.
  intros l send Hinv Ha Hslot Hl. subst send.
  unfold Host.message.
  rewrite (bind_ok getState _ env tr p p tr p) by reflexivity.
  rewrite (deliverAll_single _ l); [|apply Hinv|done|].
  2:{ intros l' Hl' Hk. simpl in Hk.
      pose proof (slot_fileChooser p l' Hinv Hl' Hk). congruence. }
  unfold l at 1. cbn [Host.deliver ElectronPage.fileChooserListener].
  erewrite bind_ok; [|by apply cdpSendQuiet_attached].
  destruct persistent.
  - exists p. split; [done|]. split; [|done].
    by apply (handlersOf_registered p l).
  - unfold ElectronPage.stopInterceptFileChooser.
    erewrite bind_ok; [|reflexivity]. rewrite Hslot.
    unfold dbgRemoveListener.
    erewrite bind_ok; [|reflexivity].
    set (p1 := withFileChooserListener None (withDbgListeners (removeLast l) p)).
    rewrite (cdpSendQuiet_attached _ _ p1) by done.
    exists p1. rewrite <- !app_assoc. split; [done|]. split; [|done].
    unfold handlersOf. cbn [p1 dbgListeners withFileChooserListener withDbgListeners].
    destruct (filter _ _) as [|l' rest] eqn:E; [done|].
    assert (l' ∈ filter (λ l, listensTo l = "Page.fileChooserOpened"%string)
                   (removeLast l (dbgListeners p))) as Hin by (rewrite E; left).
    apply list_elem_of_filter in Hin as [Hk Hin].
    assert (l' = l) as ->.
    { pose proof (slot_fileChooser p l' Hinv
                    (elem_of_removeLast _ _ _ Hin) Hk). congruence. }
    by apply removeLast_gone in Hin; [|apply Hinv].
Qed.

Lemma file_chooser_listener_one_shot_witness :
  ∃ p',
    Host.message (PageFileChooserOpened 7) envOk [] FileChooserExample.once
    = (Ok tt,
       [DebuggerSendCommand 0 (DOMSetFileInputFiles 7 ["/tmp/a.png"%string]);
        DebuggerRemoveListener 0 (FileChooserListener 0 ["/tmp/a.png"%string] false);
        DebuggerSendCommand 0 (PageSetInterceptFileChooserDialog false)],
       p') ∧
    handlersOf "Page.fileChooserOpened" p' = [] ∧
    _fileChooserListener p' = None.
Proof.
  apply (file_chooser_listener_one_shot envOk [] FileChooserExample.once 0
           ["/tmp/a.png"%string] false 7).
  - apply (inv_runOps [InterceptFileChooser ["/tmp/a.png"%string] false]),
      inv_blank.
  - reflexivity.
  - reflexivity.
  - by left.
Defined.
End PageLifecycle.

(** ** waitForNetworkIdle under any schedule of events and timers *)

Section IdleSchedules.
Import IdleWait.
Local Open Scope Z_scope.

Implicit Types (ls : list (string * WcListener)) (ts : list (nat * TimerCallback)).

Lemma start_active env wc timeout idleTime :
  start env wc timeout idleTime
  = ([WcOn wc "did-finish-load" PageOnFinishLoad;
      WcOn wc "render-process-gone" PageOnCrash;
      SetTimeout 1 timeout;
      WcOn wc "did-start-loading" (IdleOnStart 0);
      WcOn wc "did-stop-loading" (IdleOnFinish 0);
      WcOn wc "did-finish-load" (IdleOnFinish 0);
      WcOn wc "did-fail-load" (IdleOnFinish 0);
      SetTimeout 2 idleTime],
     active wc idleTime 0 0 true).
Proof. by vm_compute. Qed.

Lemma waits_page wc ls ts v n : waits (page wc ls ts v n) !! 0%nat = Some v.
Proof. apply lookup_insert_eq. Qed.

Lemma withWaits_page f wc ls ts v n :
  withWaits (alter f 0%nat) (page wc ls ts v n) = page wc ls ts (f v) n.
Proof. unfold withWaits, page. simpl. by rewrite alter_insert_eq. Qed.

Lemma withTimers_page f wc ls ts v n :
  withTimers f (page wc ls ts v n) = page wc ls (f ts) v n.
Proof. reflexivity. Qed.

Lemma withWcListeners_page f wc ls ts v n :
  withWcListeners f (page wc ls ts v n) = page wc (f ls) ts v n.
Proof. reflexivity. Qed.

Lemma withNextId_page m wc ls ts v n :
  withNextId m (page wc ls ts v n) = page wc ls ts v m.
Proof. reflexivity. Qed.

Lemma nextId_page wc ls ts v n : nextId (page wc ls ts v n) = n.
Proof. reflexivity. Qed.

Lemma wcId_page wc ls ts v n : wcId (page wc ls ts v n) = wc.
Proof. reflexivity. Qed.

Ltac page_norm :=
  repeat first
    [ rewrite withTimers_page | rewrite withWcListeners_page
    | rewrite withNextId_page | rewrite withWaits_page
    | rewrite nextId_page | rewrite wcId_page ].

Lemma applyPerformanceOptions_page env tr wc ls ts v n :
  ElectronPage._applyPerformanceOptions env tr (page wc ls ts v n)
  = (Ok tt, tr, page wc ls ts v n).
Proof. reflexivity. Qed.

(** The closures of the wait, run on such a page. *)
Lemma cleanup_page env tr wc ls ts d pend t idleTime st n :
  Waiter.cleanup 0 env tr
    (page wc ls ts (mkWaitVars d pend (Some t) 1 idleTime st) n)
  = (Ok tt, tr ++ [ClearTimeout 1; ClearTimeout t] ++ removals wc,
     page wc
       (removeLast ("did-fail-load"%string, IdleOnFinish 0)
          (removeLast ("did-finish-load"%string, IdleOnFinish 0)
             (removeLast ("did-stop-loading"%string, IdleOnFinish 0)
                (removeLast ("did-start-loading"%string, IdleOnStart 0) ls))))
       (filter (λ x, x.1 ≠ t) (filter (λ x, x.1 ≠ 1%nat) ts))
       (mkWaitVars d pend (Some t) 1 idleTime st) n).
Proof.
  unfold Waiter.cleanup.
  erewrite bind_ok; [|reflexivity]. rewrite waits_page.
  cbn [w_timeoutId w_timer clearIfSet].
  unfold clearTimeout, wcRemoveListener. unfold_monad.
  page_norm. rewrite <- !app_assoc. reflexivity.
Qed.

Lemma checkIdle_page env tr wc ls ts pend t idleTime st n :
  Waiter.checkIdle 0 env tr
    (page wc ls ts (mkWaitVars false pend (Some t) 1 idleTime st) n)
  = (Ok tt, tr ++ [ClearTimeout t; SetTimeout n idleTime],
     page wc ls (filter (λ x, x.1 ≠ t) ts ++ [(n, IdleQuiet 0)])
       (mkWaitVars false pend (Some n) 1 idleTime st) (S n)).
Proof.
  unfold Waiter.checkIdle.
  erewrite bind_ok; [|reflexivity]. rewrite waits_page.
  cbn [w_done w_timer w_idleTime clearIfSet].
  erewrite bind_ok; [|reflexivity].
  erewrite bind_ok; [|reflexivity].
  unfold modifyState. rewrite <- app_assoc. by page_norm.
Qed.

Lemma onStart_page env tr wc ls ts d pend t idleTime st n :
  Waiter.onStart 0 env tr
    (page wc ls ts (mkWaitVars d pend (Some t) 1 idleTime st) n)
  = (Ok tt, tr ++ [ClearTimeout t],
     page wc ls (filter (λ x, x.1 ≠ t) ts)
       (mkWaitVars d (pend + 1) (Some t) 1 idleTime st) n).
Proof.
  unfold Waiter.onStart.
  erewrite bind_ok; [|reflexivity]. rewrite waits_page.
  cbn [w_pending w_timer clearIfSet].
  erewrite bind_ok; [|unfold modifyState; by rewrite withWaits_page].
  unfold clearTimeout. unfold_monad. by page_norm.
Qed.

Lemma onFinish_page env tr wc ls ts pend t idleTime st n :
  Waiter.onFinish 0 env tr
    (page wc ls ts (mkWaitVars false pend (Some t) 1 idleTime st) n)
  = (Ok tt, tr ++ [ClearTimeout t; SetTimeout n idleTime],
     page wc ls (filter (λ x, x.1 ≠ t) ts ++ [(n, IdleQuiet 0)])
       (mkWaitVars false (Z.max 0 (pend - 1)) (Some n) 1 idleTime st) (S n)).
Proof.
  unfold Waiter.onFinish.
  erewrite bind_ok; [|reflexivity]. rewrite waits_page.
  cbn [w_pending].
  erewrite bind_ok; [|unfold modifyState; by rewrite withWaits_page].
  apply checkIdle_page.
Qed.

Lemma settle_page env tr wc ls ts d pend t idleTime n :
  settle 0 (Ok tt) env tr (page wc ls ts (mkWaitVars d pend t 1 idleTime None) n)
  = (Ok tt, tr ++ [PromiseResolve wc 0],
     page wc ls ts (mkWaitVars d pend t 1 idleTime (Some (Ok tt))) n).
Proof.
  unfold settle.
  erewrite bind_ok; [|reflexivity]. rewrite waits_page.
  cbn [w_settled].
  erewrite bind_ok; [|reflexivity].
  unfold modifyState. by page_norm.
Qed.

Lemma onQuiet_page env tr wc ls ts pend t idleTime n :
  Waiter.onQuiet 0 env tr
    (page wc ls ts (mkWaitVars false pend (Some t) 1 idleTime None) n)
  = if pend <=? 0
    then (Ok tt,
          tr ++ [ClearTimeout 1; ClearTimeout t] ++ removals wc
             ++ [PromiseResolve wc 0],
          page wc
            (removeLast ("did-fail-load"%string, IdleOnFinish 0)
               (removeLast ("did-finish-load"%string, IdleOnFinish 0)
                  (removeLast ("did-stop-loading"%string, IdleOnFinish 0)
                     (removeLast ("did-start-loading"%string, IdleOnStart 0) ls))))
            (filter (λ x, x.1 ≠ t) (filter (λ x, x.1 ≠ 1%nat) ts))
            (mkWaitVars true pend (Some t) 1 idleTime (Some (Ok tt))) n)
    else (Ok tt, tr, page wc ls ts (mkWaitVars false pend (Some t) 1 idleTime None) n).
Proof.
  unfold Waiter.onQuiet.
  erewrite bind_ok; [|reflexivity]. rewrite waits_page.
  cbn [w_done w_pending negb andb].
  destruct (pend <=? 0); [|done].
  erewrite bind_ok; [|unfold modifyState; by rewrite withWaits_page].
  unfold setDone. cbn [w_done w_pending w_timer w_timeoutId w_idleTime w_settled].
  erewrite bind_ok; [|apply cleanup_page].
  cbn [w_done w_pending w_timer w_timeoutId w_idleTime w_settled].
  rewrite settle_page. by rewrite <- !app_assoc.
Qed.

Lemma onTimeout_page env tr wc ls ts pend t idleTime n :
  Waiter.onTimeout 0 env tr
    (page wc ls ts (mkWaitVars false pend (Some t) 1 idleTime None) n)
  = (Ok tt,
     tr ++ [ClearTimeout 1; ClearTimeout t] ++ removals wc
        ++ [PromiseResolve wc 0],
     page wc
       (removeLast ("did-fail-load"%string, IdleOnFinish 0)
          (removeLast ("did-finish-load"%string, IdleOnFinish 0)
             (removeLast ("did-stop-loading"%string, IdleOnFinish 0)
                (removeLast ("did-start-loading"%string, IdleOnStart 0) ls))))
       (filter (λ x, x.1 ≠ t) (filter (λ x, x.1 ≠ 1%nat) ts))
       (mkWaitVars true pend (Some t) 1 idleTime (Some (Ok tt))) n).
Proof.
  unfold Waiter.onTimeout.
  erewrite bind_ok; [|apply cleanup_page].
  erewrite bind_ok; [|reflexivity]. rewrite waits_page.
  cbn [w_done negb].
  erewrite bind_ok; [|unfold modifyState; by rewrite withWaits_page].
  unfold setDone. cbn [w_done w_pending w_timer w_timeoutId w_idleTime w_settled].
  rewrite settle_page. by rewrite <- !app_assoc.
Qed.

Lemma wcListeners_page wc ls ts v n : wcListeners (page wc ls ts v n) = ls.
Proof. reflexivity. Qed.

Lemma timers_page wc ls ts v n : timers (page wc ls ts v n) = ts.
Proof. reflexivity. Qed.

Lemma listeners_after_removals :
  removeLast ("did-fail-load"%string, IdleOnFinish 0)
    (removeLast ("did-finish-load"%string, IdleOnFinish 0)
       (removeLast ("did-stop-loading"%string, IdleOnFinish 0)
          (removeLast ("did-start-loading"%string, IdleOnStart 0)
             (pageListeners ++ idleListeners))))
  = pageListeners.
Proof. by vm_compute. Qed.

Ltac solve_timers :=
  unfold quietTimer;
  repeat first
    [ rewrite filter_nil
    | rewrite filter_cons; cbn [fst];
      first [rewrite decide_True by lia | rewrite decide_False by lia] ];
  reflexivity.

Lemma quiet_cleared k a cb :
  filter (λ x : nat * TimerCallback, x.1 ≠ (2 + k)%nat)
    ((1%nat, cb) :: quietTimer k a)
  = [(1%nat, cb)].
Proof. destruct a; solve_timers. Qed.

Lemma all_cleared k a cb :
  filter (λ x : nat * TimerCallback, x.1 ≠ (2 + k)%nat)
    (filter (λ x : nat * TimerCallback, x.1 ≠ 1%nat)
       (filter (λ x : nat * TimerCallback, x.1 ≠ 1%nat)
          ((1%nat, cb) :: quietTimer k a)))
  = [].
Proof. destruct a; solve_timers. Qed.

Lemma all_cleared_quiet k cb :
  filter (λ x : nat * TimerCallback, x.1 ≠ (2 + k)%nat)
    (filter (λ x : nat * TimerCallback, x.1 ≠ 1%nat)
       (filter (λ x : nat * TimerCallback, x.1 ≠ (2 + k)%nat)
          ((1%nat, cb) :: quietTimer k true)))
  = [].
Proof. solve_timers. Qed.

(** The calls that settle the wait. *)
Local Abbreviation settleCalls wc k :=
  ([ClearTimeout 1; ClearTimeout (2 + k)] ++ removals wc ++ [PromiseResolve wc 0]).

(** An event of the webContents while the wait is pending. *)
Lemma emit_active env tr wc idleTime pend k a ev :
  Host.emit ev env tr (active wc idleTime pend k a)
  = match ev with
    | DidStartLoading =>
        (Ok tt, tr ++ [ClearTimeout (2 + k)],
         active wc idleTime (pend + 1) k false)
    | RenderProcessGone => (Ok tt, tr, active wc idleTime pend k a)
    | _ =>
        (Ok tt, tr ++ [ClearTimeout (2 + k); SetTimeout (3 + k) idleTime],
         active wc idleTime (Z.max 0 (pend - 1)) (S k) true)
    end.
Proof.
  unfold Host.emit, active.
  erewrite bind_ok; [|reflexivity]. rewrite wcListeners_page.
  destruct ev;
    cbn [pageListeners idleListeners app Host.invokeAll eventName Host.invoke
         String.eqb Ascii.eqb Bool.eqb andb];
    cbv [mbind M_bind mret M_ret];
    repeat (first [rewrite applyPerformanceOptions_page | rewrite onStart_page
                  | rewrite onFinish_page]; cbv beta iota);
    rewrite ?quiet_cleared; reflexivity.
Qed.

(** A timer fires while the wait is pending. *)
Lemma fire_active env tr wc idleTime pend k a (id : nat) :
  Host.fire id env tr (active wc idleTime pend k a)
  = if decide (id = 1%nat) then
      (Ok tt, tr ++ settleCalls wc k, settled wc idleTime pend k)
    else if decide (id = (2 + k)%nat) then
      if a then
        if pend <=? 0
        then (Ok tt, tr ++ settleCalls wc k, settled wc idleTime pend k)
        else (Ok tt, tr, active wc idleTime pend k false)
      else (Ok tt, tr, active wc idleTime pend k a)
    else (Ok tt, tr, active wc idleTime pend k a).
Proof.
  unfold Host.fire, active.
  erewrite bind_ok; [|reflexivity]. rewrite timers_page.
  destruct (decide (id = 1%nat)) as [->|H1].
  - cbn [armed Nat.eqb].
    erewrite bind_ok; [|unfold modifyState; by rewrite withTimers_page].
    rewrite onTimeout_page, all_cleared, listeners_after_removals. done.
  - cbn [armed]. apply Nat.eqb_neq in H1. rewrite Nat.eqb_sym, H1.
    destruct (decide (id = (2 + k)%nat)) as [->|H2].
    + destruct a; cbn [quietTimer armed]; [|done].
      rewrite Nat.eqb_refl.
      erewrite bind_ok; [|unfold modifyState; by rewrite withTimers_page].
      rewrite onQuiet_page.
      destruct (pend <=? 0).
      * rewrite all_cleared_quiet, listeners_after_removals. done.
      * by rewrite (quiet_cleared k true).
    + destruct a; cbn [quietTimer armed]; [|done].
      apply Nat.eqb_neq in H2. by rewrite Nat.eqb_sym, H2.
Qed.

(** Once the promise is resolved, nothing of the wait is left to run. *)
Lemma emit_settled env tr wc idleTime pend k ev :
  Host.emit ev env tr (settled wc idleTime pend k)
  = (Ok tt, tr, settled wc idleTime pend k).
Proof. destruct ev; reflexivity. Qed.

Lemma fire_settled env tr wc idleTime pend k (id : nat) :
  Host.fire id env tr (settled wc idleTime pend k)
  = (Ok tt, tr, settled wc idleTime pend k).
Proof. reflexivity. Qed.

Lemma schedule_step env wc idleTime op (st : list Call * Page) :
  isHostStep op = true →
  let st' := ((runOp op env st.1 st.2).1.2, (runOp op env st.1 st.2).2) in
  (pendingAt wc idleTime st →
   (pendingAt wc idleTime st' ∨ settledAt wc idleTime st') ∧
   (op = HostFire 1 → settledAt wc idleTime st')) ∧
  (settledAt wc idleTime st → settledAt wc idleTime st').
Proof.
  destruct st as [tr p]. intros Hop. unfold pendingAt, settledAt.
  cbn [fst snd]. split.
  - intros (pend & k & a & Hpend & -> & Htr).
    destruct op; try discriminate; cbn [runOp].
    + rewrite emit_active. split; [|done]. left.
      destruct ev; cbn [fst snd].
      * exists (pend + 1), k, false. rewrite filter_app, Htr. split; [lia|done].
      * exists (Z.max 0 (pend - 1)), (S k), true.
        rewrite filter_app, Htr. split; [lia|done].
      * exists (Z.max 0 (pend - 1)), (S k), true.
        rewrite filter_app, Htr. split; [lia|done].
      * exists (Z.max 0 (pend - 1)), (S k), true.
        rewrite filter_app, Htr. split; [lia|done].
      * exists pend, k, a. done.
    + rewrite fire_active.
      assert (∃ pend0 k0,
                0 ≤ pend0 ∧
                settled wc idleTime pend k = settled wc idleTime pend0 k0 ∧
                filter (λ c, isSettleCall c = true) (tr ++ settleCalls wc k)
                = removals wc ++ [PromiseResolve wc 0]) as Hdone.
      { exists pend, k. rewrite filter_app, Htr.
        split; [done|]. split; [done|]. reflexivity. }
      destruct (decide (timer = 1%nat)) as [->|H1]; cbn [fst snd].
      { split; [by right|done]. }
      split; [|by intros [= ->]].
      destruct (decide (timer = (2 + k)%nat)) as [->|H2]; cbn [fst snd].
      * destruct a; [destruct (pend <=? 0)|]; cbn [fst snd];
          [by right|left|left]; by eexists pend, k, _.
      * left. by exists pend, k, a.
  - intros (pend & k & Hpend & -> & Htr).
    destruct op; try discriminate; cbn [runOp].
    + rewrite emit_settled. by exists pend, k.
    + rewrite fire_settled. by exists pend, k.
Qed.

Lemma schedule_runOps env wc idleTime ops (st : list Call * Page) :
  forallb isHostStep ops = true →
  let st' := runOps ops env st.1 st.2 in
  (pendingAt wc idleTime st →
   (pendingAt wc idleTime st' ∨ settledAt wc idleTime st') ∧
   (HostFire 1 ∈ ops → settledAt wc idleTime st')) ∧
  (settledAt wc idleTime st → settledAt wc idleTime st').
Proof.
  revert st. induction ops as [|op rest IH]; intros [tr p] Hops.
  { cbn [runOps fst snd]. split; [|done]. intros Hp. split; [by left|].
    intros Hin. by apply elem_of_nil in Hin. }
  cbn [forallb] in Hops. apply andb_prop in Hops as [Hop Hrest].
  cbn [runOps fst snd].
  pose proof (schedule_step env wc idleTime op (tr, p) Hop) as Hstep.
  cbn [fst snd] in Hstep.
  destruct (runOp op env tr p) as [[r tr'] p'].
  cbn [fst snd] in Hstep. destruct Hstep as [Hpend Hsettled].
  specialize (IH (tr', p') Hrest). cbn [fst snd] in IH.
  destruct IH as [IHp IHs].
  split.
  - intros Hp. destruct (Hpend Hp) as [[Hp'|Hs'] Hfire].
    + destruct (IHp Hp') as [Hres Hlater]. split; [done|].
      intros [Heq|Hin]%elem_of_cons; [|by apply Hlater].
      by apply IHs, Hfire.
    + split; [right; by apply IHs|]. intros _. by apply IHs.
  - intros Hs. by apply IHs, Hsettled.
Qed.

(** X22: [waitForNetworkIdle] under any schedule.  On a page made with
    the default options, after [waitForNetworkIdle] has returned its
    promise, let the host emit any events and fire any timers, in any
    order.  Then either the promise is still pending, the four
    subscriptions of the wait are registered, its outer timer is armed
    and no subscription was removed; or the promise is resolved, the
    subscriptions of the wait are gone, no timer is left, and each
    subscription was removed exactly once before the one [resolve].  The
    number of pending loads is never negative, the promise is never
    rejected, and once the outer timer has fired the promise is
    resolved. *)
Theorem waitForNetworkIdle_any_schedule (env : Env) (wc : nat)
    (timeout idleTime : Z) (ops : list PageOp) :
  forallb isHostStep ops = true →
  let s0 := start env wc timeout idleTime in
  let final := runOps ops env s0.1 s0.2 in
  ∃ v,
    waits final.2 !! 0%nat = Some v ∧
    0 ≤ w_pending v ∧
    ((w_settled v = None ∧ w_done v = false ∧
      wcListeners final.2 = pageListeners ++ idleListeners ∧
      armed 1 (timers final.2) = Some (IdleTimeout 0) ∧
      filter (λ c, isSettleCall c = true) final.1 = [])
     ∨
     (w_settled v = Some (Ok tt) ∧ w_done v = true ∧
      wcListeners final.2 = pageListeners ∧
      timers final.2 = [] ∧
      filter (λ c, isSettleCall c = true) final.1
      = removals wc ++ [PromiseResolve wc 0])) ∧
    (HostFire 1 ∈ ops → w_settled v = Some (Ok tt)).
Proof.
  intros Hops s0 final.
  assert (pendingAt wc idleTime s0) as Hstart.
  { subst s0. rewrite start_active. exists 0, 0%nat, true. by cbn. }
  destruct (schedule_runOps env wc idleTime ops s0 Hops) as [Hp _].
  destruct (Hp Hstart) as [Hres Hfire]. fold final in Hres, Hfire.
  destruct Hres as [(pend & k & a & Hpend & Hst & Htr)
                   |(pend & k & Hpend & Hst & Htr)].
  - eexists. rewrite Hst. split; [apply waits_page|]. split; [done|].
    split; [left; by repeat split|].
    intros Hin. destruct (Hfire Hin) as (pend' & k' & _ & Hst' & _).
    rewrite Hst in Hst'. exfalso.
    assert (wcListeners (active wc idleTime pend k a)
            = wcListeners (settled wc idleTime pend' k')) as Habs
      by (by rewrite Hst').
    discriminate Habs.
  - eexists. rewrite Hst. split; [apply waits_page|]. split; [done|].
    split; [right; by repeat split|]. done.
Qed.

Lemma waitForNetworkIdle_any_schedule_witness :
  let s0 := start envOk 7 30000 500 in
  let final := runOps [HostEmit DidStartLoading; HostEmit DidStopLoading;
                       HostFire 3; HostEmit DidFinishLoad; HostFire 1]
                 envOk s0.1 s0.2 in
  ∃ v, waits final.2 !! 0%nat = Some v ∧ w_settled v = Some (Ok tt).
Proof.
  destruct (waitForNetworkIdle_any_schedule envOk 7 30000 500
              [HostEmit DidStartLoading; HostEmit DidStopLoading;
               HostFire 3; HostEmit DidFinishLoad; HostFire 1] eq_refl)
    as (v & Hv & _ & _ & Hfire).
  exists v. split; [exact Hv|]. apply Hfire.
  do 4 right. left.
Defined.
End IdleSchedules.

(** ** BrowserManager: the profile map, the grid and the stores agree *)

Section JsMapMaps.
Context {V W : Type}.
Implicit Types (m : list (string * V)) (k : string).

Lemma JsMap_delete_sublist k m : JsMap.delete k m `sublist_of` m.
Proof.
  induction m as [|[k0 v0] rest IH]; simpl; [constructor|].
  destruct (String.eqb k0 k); by constructor.
Qed.

Lemma JsMap_fmap_delete (f : V → W) k m :
  (λ e, (e.1, f e.2)) <$> JsMap.delete k m
  = JsMap.delete k ((λ e, (e.1, f e.2)) <$> m).
Proof.
  induction m as [|[k0 v0] rest IH]; [done|].
  cbn [JsMap.delete]. rewrite !fmap_cons. cbn [fst snd JsMap.delete].
  destruct (String.eqb k0 k); [done|]. by rewrite fmap_cons, IH.
Qed.

Lemma JsMap_fmap_set (f : V → W) k (v : V) m :
  (λ e, (e.1, f e.2)) <$> JsMap.set k v m
  = JsMap.set k (f v) ((λ e, (e.1, f e.2)) <$> m).
Proof.
  induction m as [|[k0 v0] rest IH]; [done|].
  cbn [JsMap.set]. rewrite !fmap_cons. cbn [fst snd JsMap.set].
  destruct (String.eqb k0 k); [done|]. by rewrite fmap_cons, IH.
Qed.

Lemma JsMap_set_fresh k (v : V) m :
  JsMap.get k m = None → JsMap.set k v m = m ++ [(k, v)].
Proof.
  induction m as [|[k0 v0] rest IH]; simpl; [done|].
  destruct (String.eqb k0 k); [done|]. intros H. by rewrite IH.
Qed.

Lemma JsMap_get_elem_of k (v : V) m : JsMap.get k m = Some v → (k, v) ∈ m.
Proof.
  induction m as [|[k0 v0] rest IH]; simpl; [done|].
  destruct (String.eqb k0 k) eqn:E.
  - apply String.eqb_eq in E as ->. intros [= ->]. left.
  - intros H. right. by apply IH.
Qed.

Lemma JsMap_elem_of_get k (v : V) m :
  NoDup (JsMap.keys m) → (k, v) ∈ m → JsMap.get k m = Some v.
Proof.
  unfold JsMap.keys. induction m as [|[k0 v0] rest IH]; simpl.
  { intros _ Hin. by apply elem_of_nil in Hin. }
  intros [Hk0 Hnd]%NoDup_cons [[= -> ->]|Hin]%elem_of_cons.
  - by rewrite String.eqb_refl.
  - destruct (String.eqb k0 k) eqn:E; [|by apply IH].
    apply String.eqb_eq in E as ->. exfalso. apply Hk0.
    by apply (list_elem_of_fmap_2' fst rest (k, v)).
Qed.
End JsMapMaps.

Section ManagerMore.
Import BrowserManager ManagerOps.
Local Open Scope Z_scope.

Implicit Types (w : BrowserManager.t) (store : gmap nat BrowserView).

(** The layout writes the views it finds; it makes none and loses none. *)
Lemma layoutGrid_dom cols rows cw ch index (vs : list (string * nat)) store
    (r : nat) :
  is_Some (GridManager.layoutGrid cols rows cw ch index vs store !! r)
  ↔ is_Some (store !! r).
Proof.
  destruct (decide (r ∈ vs.*2)) as [Hin|Hout].
  - destruct (layoutGrid_overwrites cols rows cw ch index vs r Hin) as [c ->].
    apply fmap_is_Some.
  - by rewrite layoutGrid_untouched.
Qed.

Lemma layoutMaximized_dom (ww hh : Z) maxId (vs : list (string * nat)) store
    (r : nat) :
  is_Some (GridManager.layoutMaximized ww hh maxId vs store !! r)
  ↔ is_Some (store !! r).
Proof.
  destruct (decide (r ∈ vs.*2)) as [Hin|Hout].
  - destruct (layoutMaximized_overwrites ww hh maxId vs r Hin) as [c ->].
    apply fmap_is_Some.
  - by rewrite layoutMaximized_untouched.
Qed.

Lemma applyLayout_frame win (g : GridManager.t) store :
  (GridManager._applyLayout win g store).1 = g ∧
  ∀ r : nat, is_Some ((GridManager._applyLayout win g store).2 !! r)
             ↔ is_Some (store !! r).
Proof.
  destruct win as [ww hh]. unfold GridManager._applyLayout.
  destruct (GridManager._maximizedId g) as [m|];
    [destruct (truthy (Some m))|]; cbn [fst snd]; (split; [done|]); intros r;
    first [apply layoutGrid_dom | apply layoutMaximized_dom].
Qed.

(** Every layout method keeps the tracked ids and the set of views. *)
Lemma layout_methods_frame win (g : GridManager.t) store cols rows id :
  let keeps_views (res : GridManager.t * gmap nat BrowserView) :=
    GridManager._views res.1 = GridManager._views g ∧
    ∀ r : nat, is_Some (res.2 !! r) ↔ is_Some (store !! r) in
  keeps_views (GridManager._applyLayout win g store) ∧
  keeps_views (GridManager.setGrid win cols rows g store) ∧
  keeps_views (GridManager.autoGrid win g store) ∧
  keeps_views (GridManager.maximize win id g store) ∧
  keeps_views (GridManager.restoreGrid win g store).
Proof.
  cbn zeta.
  assert (∀ g0, GridManager._views g0 = GridManager._views g →
            GridManager._views (GridManager._applyLayout win g0 store).1
            = GridManager._views g ∧
            ∀ r : nat, is_Some ((GridManager._applyLayout win g0 store).2 !! r)
                       ↔ is_Some (store !! r)) as Happly.
  { intros g0 Hv. destruct (applyLayout_frame win g0 store) as [-> Hdom]. done. }
  split; [by apply Happly|]. split; [by apply Happly|]. split; [|split].
  - unfold GridManager.autoGrid. destruct (GridManager.autoGridDims _) as [c r].
    by apply Happly.
  - unfold GridManager.maximize.
    destruct (JsMap.has id (GridManager._views g)); cbn [negb]; [|done].
    by apply Happly.
  - by apply Happly.
Qed.

Lemma consistent_layout f w :
  (∀ win g store,
     GridManager._views (f win g store).1 = GridManager._views g ∧
     ∀ r : nat, is_Some ((f win g store).2 !! r) ↔ is_Some (store !! r)) →
  consistent w → consistent (layout f w).
Proof.
  intros Hf (Hkeys & Hgrid & Hrefs & Hentries). unfold layout.
  destruct (Hf (contentSize w) (_gridManager w) (views w)) as [Hv Hdom].
  destruct (f (contentSize w) (_gridManager w) (views w)) as [g store].
  cbn [fst snd] in *. unfold consistent, tracked in *.
  cbn [_profiles _gridManager pages views nextRef].
  split; [done|]. split; [by rewrite Hv|]. split; [done|].
  intros id e Hin. destruct (Hentries id e Hin) as (Hp & Hlt & Hpage & Hview).
  repeat split; try done. by apply Hdom.
Qed.

Lemma host_bind {S B} (c : Call) (k : unit → M S B) env tr (s : S) :
  (host c ≫= k) env tr s
  = if env (length tr) c then (Throw "host call failed", tr ++ [c], s)
    else k tt env (tr ++ [c]) s.
Proof. unfold mbind, M_bind, host. by destruct (env (length tr) c). Qed.

Lemma ProfileManager_create_ok env tr (pm : ProfileManager.t) id options :
  ∃ profile tr' pm',
    ProfileManager.create id options env tr pm = (Ok profile, tr', pm') ∧
    ProfileManager.get id pm' = Some profile ∧
    ProfileManager.partition profile = ("persist:" ++ id)%string.
Proof.
  unfold ProfileManager.create, ProfileManager.get. unfold_monad.
  destruct (truthy (ProfileManager.opt_proxy options));
    [destruct (env (length tr) _)|];
    eexists _, _, _; (split; [reflexivity|]); (split; [apply JsMap_get_set|done]).
Qed.

Lemma constructor_ok env tr (p : Page) :
  ∃ tr' p', ElectronPage.constructor env tr p = (Ok tt, tr', p').
Proof. unfold ElectronPage.constructor, wcOn. unfold_monad. by eauto. Qed.

Lemma page_destroy_returns env tr (p : Page) :
  ∃ tr' p', ElectronPage.destroy env tr p = (Ok tt, tr', p').
Proof.
  destruct (_destroyed p) eqn:Hd.
  - exists tr, p. unfold ElectronPage.destroy.
    rewrite (bind_ok getState _ env tr p p tr p) by reflexivity. by rewrite Hd.
  - destruct (ElectronPage_destroy_spec env tr p Hd) as (calls & p' & E & _).
    by eauto.
Qed.

(** What [createProfile] leaves for a new id: the profile is registered in
    the profile map and in the grid, or, when a host call throws, in
    neither. *)
Lemma createProfile_world env tr w id options :
  JsMap.get id (_profiles w) = None →
  ∃ r tr' w',
    createProfile id options env tr w = (r, tr', w') ∧
    nextRef w' = S (nextRef w) ∧
    (∀ x : nat, is_Some (pages w !! x) → is_Some (pages w' !! x)) ∧
    (∀ x : nat, is_Some (views w !! x) → is_Some (views w' !! x)) ∧
    (∃ profile,
       ProfileManager.get id (_profileManager w') = Some profile ∧
       ProfileManager.partition profile = ("persist:" ++ id)%string) ∧
    (((∃ err, r = Throw err) ∧ _profiles w' = _profiles w ∧
      _gridManager w' = _gridManager w)
     ∨
     (r = Ok (nextRef w) ∧
      _profiles w' = _profiles w ++ [(id, mkEntry (nextRef w) (nextRef w))] ∧
      GridManager._views (_gridManager w')
      = JsMap.set id (nextRef w) (GridManager._views (_gridManager w)) ∧
      is_Some (pages w' !! nextRef w) ∧ is_Some (views w' !! nextRef w))).
Proof.
  intros Hget. unfold createProfile.
  rewrite (bind_ok getState _ env tr w w tr w) by reflexivity. rewrite Hget.
  destruct (ProfileManager_create_ok env tr (_profileManager w) id
              (ProfileManager.mkOptions (opt_proxy options) (opt_userAgent options)))
    as (profile & tr1 & pm' & Ecreate & Hprofile & Hpartition).
  erewrite bind_ok; [|unfold zoom; by rewrite Ecreate].
  erewrite bind_ok; [|reflexivity].
  set (n := nextRef w).
  set (w2 := newBrowserView _ _ (withProfileManager pm' w)).
  assert (nextRef w2 = S n ∧
          (∀ x : nat, is_Some (pages w !! x) → is_Some (pages w2 !! x)) ∧
          (∀ x : nat, is_Some (views w !! x) → is_Some (views w2 !! x)) ∧
          _profiles w2 = _profiles w ∧ _gridManager w2 = _gridManager w ∧
          _profileManager w2 = pm')
    as (Hn2 & Hp2 & Hv2 & Hpr2 & Hg2 & Hpm2).
  { subst w2. cbn. repeat split; try done.
    - intros x Hx. apply lookup_insert_is_Some'. by right.
    - intros x Hx. apply lookup_insert_is_Some'. by right. }
  assert (∀ tr2,
            ∃ r tr' w',
              (host (WindowAddBrowserView n);;
               modifyState (withBrowserViews (λ vs, vs ++ [n]));;
               onPage n ElectronPage.constructor;;
               modifyState (withProfiles (JsMap.set id (mkEntry n n)));;
               note (GridAddView id n);;
               modifyState (withGrid (GridManager.addView id n));;
               note GridAutoGrid;;
               modifyState (layout GridManager.autoGrid);;
               mret n) env tr2 w2 = (r, tr', w') ∧
              nextRef w' = S n ∧
              (∀ x : nat, is_Some (pages w !! x) → is_Some (pages w' !! x)) ∧
              (∀ x : nat, is_Some (views w !! x) → is_Some (views w' !! x)) ∧
              (∃ profile,
                 ProfileManager.get id (_profileManager w') = Some profile ∧
                 ProfileManager.partition profile = ("persist:" ++ id)%string) ∧
              (((∃ err, r = Throw err) ∧ _profiles w' = _profiles w ∧
                _gridManager w' = _gridManager w)
               ∨
               (r = Ok n ∧
                _profiles w' = _profiles w ++ [(id, mkEntry n n)] ∧
                GridManager._views (_gridManager w')
                = JsMap.set id n (GridManager._views (_gridManager w)) ∧
                is_Some (pages w' !! n) ∧ is_Some (views w' !! n)))) as Hrest.
  { intros tr2. rewrite host_bind.
    destruct (env (length tr2) (WindowAddBrowserView n)).
    { eexists _, _, _. split; [reflexivity|].
      split; [done|]. split; [done|]. split; [done|].
      split; [rewrite Hpm2; by eauto|].
      left. split; [by eexists|done]. }
    erewrite bind_ok; [|reflexivity].
    set (w3 := withBrowserViews _ w2).
    assert (pages w3 !! n = Some (ElectronPage.blank n
              (default false (opt_disableImages options))
              (default false (opt_disableAnimations options)))) as Hblank
      by (subst w3 w2; cbn; apply lookup_insert_eq).
    destruct (constructor_ok env (tr2 ++ [WindowAddBrowserView n])
                (ElectronPage.blank n
                   (default false (opt_disableImages options))
                   (default false (opt_disableAnimations options))))
      as (tr3 & p' & Econs).
    erewrite bind_ok; [|unfold onPage; by rewrite Hblank, Econs].
    do 5 (erewrite bind_ok; [|reflexivity]).
    unfold mret, M_ret.
    eexists _, _, _. split; [reflexivity|].
    set (w4 := withGrid _ (withProfiles _ (withPage n p' w3))).
    assert (consistent_fields :
              nextRef w4 = S n ∧
              (∀ x : nat, is_Some (pages w !! x) → is_Some (pages w4 !! x)) ∧
              (∀ x : nat, is_Some (views w !! x) → is_Some (views w4 !! x)) ∧
              is_Some (pages w4 !! n) ∧ is_Some (views w4 !! n) ∧
              _profiles w4 = JsMap.set id (mkEntry n n) (_profiles w) ∧
              GridManager._views (_gridManager w4)
              = JsMap.set id n (GridManager._views (_gridManager w)) ∧
              _profileManager w4 = pm').
    { subst w4 w3. cbn. rewrite ?Hpr2, ?Hg2. repeat split; try done.
      - intros x Hx. apply lookup_insert_is_Some'. right. by apply Hp2.
      - apply lookup_insert_is_Some'. by left.
      - subst w2. cbn. apply lookup_insert_is_Some'. by left. }
    destruct consistent_fields as (H1 & H2 & H3 & H4 & H5 & H6 & H7 & H8).
    destruct (layout_methods_frame (contentSize w4) (_gridManager w4) (views w4)
                0 0 id) as (_ & _ & [Hv Hdom] & _).
    unfold layout.
    destruct (GridManager.autoGrid (contentSize w4) (_gridManager w4) (views w4))
      as [g store]. cbn [fst snd] in Hv, Hdom. cbn [nextRef pages views _profiles
      _gridManager _profileManager].
    split; [done|]. split; [done|].
    split; [intros x Hx; by apply Hdom, H3|].
    split; [rewrite H8; by eauto|].
    right. split; [done|].
    split; [by rewrite H6, JsMap_set_fresh|].
    split; [by rewrite Hv|]. split; [done|]. by apply Hdom. }
  destruct (truthy (opt_userAgent options)).
  - rewrite host_bind. destruct (env (length tr1) _).
    + eexists _, _, _. split; [reflexivity|].
      split; [done|]. split; [done|]. split; [done|].
      split; [rewrite Hpm2; by eauto|].
      left. split; [by eexists|done].
    + apply Hrest.
  - erewrite bind_ok; [|reflexivity]. apply Hrest.
Qed.

(** What [destroyProfile] leaves for a profile whose page exists. *)
Lemma destroyProfile_world env tr w id e :
  JsMap.get id (_profiles w) = Some e →
  is_Some (pages w !! page e) →
  ∃ tr' w',
    destroyProfile id env tr w = (Ok tt, tr', w') ∧
    _profiles w' = JsMap.delete id (_profiles w) ∧
    GridManager._views (_gridManager w')
    = JsMap.delete id (GridManager._views (_gridManager w)) ∧
    nextRef w' = nextRef w ∧
    (∀ x : nat, is_Some (pages w !! x) → is_Some (pages w' !! x)) ∧
    (∀ x : nat, is_Some (views w !! x) → is_Some (views w' !! x)).
Proof.
  intros Hget [p Hpage].
  destruct (page_destroy_returns env tr p) as (tr1 & p' & Edestroy).
  unfold destroyProfile.
  rewrite (bind_ok getState _ env tr w w tr w) by reflexivity. rewrite Hget.
  erewrite bind_ok; [|unfold onPage; by rewrite Hpage, Edestroy].
  erewrite bind_ok; [|reflexivity].
  erewrite bind_ok; [|reflexivity].
  set (w2 := withGrid _ (withPage (page e) p' w)).
  match goal with
  | |- context [mbind _ (tryCatch ?m ?h) env ?tr3 w2] =>
      assert (∃ tr4 w4, tryCatch m h env tr3 w2 = (Ok tt, tr4, w4) ∧
                _profiles w4 = _profiles w2 ∧
                _profileManager w4 = _profileManager w2 ∧
                _gridManager w4 = _gridManager w2 ∧
                contentSize w4 = contentSize w2 ∧
                views w4 = views w2 ∧ pages w4 = pages w2 ∧
                nextRef w4 = nextRef w2)
        as (tr4 & w4 & E4 & P4 & M4 & G4 & C4 & V4 & S4 & N4)
        by (unfold_monad; destruct (env _ _); eexists _, _; by repeat split)
  end.
  erewrite bind_ok; [|exact E4].
  match goal with
  | |- context [mbind _ (tryCatch ?m ?h) env tr4 w4] =>
      assert (∃ tr5, tryCatch m h env tr4 w4 = (Ok tt, tr5, w4)) as (tr5 & E5)
        by (unfold_monad; destruct (env _ _); by eexists)
  end.
  erewrite bind_ok; [|exact E5].
  unfold forgetProfile.
  destruct (ProfileManager_destroy_calls env tr5 (_profileManager w4) id)
    as (session & pm' & Epm & _).
  erewrite bind_ok; [|unfold zoom; by rewrite Epm].
  erewrite bind_ok; [|reflexivity].
  erewrite bind_ok; [|reflexivity].
  set (w6 := withProfiles _ (withProfileManager pm' w4)).
  assert (_profiles w6 = JsMap.delete id (_profiles w) ∧
          GridManager._views (_gridManager w6)
          = JsMap.delete id (GridManager._views (_gridManager w)) ∧
          nextRef w6 = nextRef w ∧
          (∀ x : nat, is_Some (pages w !! x) → is_Some (pages w6 !! x)) ∧
          (∀ x : nat, is_Some (views w !! x) → is_Some (views w6 !! x)))
    as (H1 & H2 & H3 & H4 & H5).
  { subst w6. cbn [_profiles _gridManager nextRef pages views withProfiles
                   withProfileManager].
    rewrite P4, G4, N4, S4, V4. subst w2. cbn. repeat split; try done.
    intros x Hx. apply lookup_insert_is_Some'. by right. }
  destruct (0 <? JsMap.size (_profiles w6))%nat.
  - erewrite bind_ok; [|reflexivity].
    eexists _, _. split; [reflexivity|].
    destruct (layout_methods_frame (contentSize w6) (_gridManager w6) (views w6)
                0 0 id) as (_ & _ & [Hv Hdom] & _).
    unfold layout.
    destruct (GridManager.autoGrid (contentSize w6) (_gridManager w6) (views w6))
      as [g store]. cbn [fst snd] in Hv, Hdom.
    cbn [nextRef pages views _profiles _gridManager].
    split; [done|]. split; [by rewrite Hv|]. split; [done|]. split; [done|].
    intros x Hx. by apply Hdom, H5.
  - eexists _, _. split; [reflexivity|]. done.
Qed.

Lemma consistent_new size : consistent (new size).
Proof.
  split; [apply NoDup_nil_2|]. split; [done|]. split; [apply NoDup_nil_2|].
  intros id e Hin. by apply elem_of_nil in Hin.
Qed.

Lemma consistent_createProfile env tr w id options :
  consistent w → consistent (createProfile id options env tr w).2.
Proof.
  intros Hc.
  destruct (JsMap.get id (_profiles w)) as [e|] eqn:Hget.
  { unfold createProfile. unfold_monad. by rewrite Hget. }
  destruct (createProfile_world env tr w id options Hget)
    as (r & tr' & w' & -> & Hn & Hp & Hv & _ & Hcases).
  cbn [snd]. destruct Hc as (Hkeys & Hgrid & Hrefs & Hentries).
  unfold consistent, tracked in *.
  destruct Hcases as [(_ & Hpr & Hg)|(_ & Hpr & Hg & Hpn & Hvn)].
  - rewrite Hpr, Hg. repeat split; try done;
      destruct (Hentries id0 e H) as (? & ? & ? & ?); auto. lia.
  - rewrite Hpr, Hg, Hgrid.
    assert (JsMap.get id ((λ e, (e.1, view e.2)) <$> _profiles w) = None) as Hfresh.
    { apply JsMap_get_None. unfold JsMap.keys. rewrite <- list_fmap_compose.
      apply JsMap_get_None in Hget. exact Hget. }
    rewrite (JsMap_set_fresh _ _ _ Hfresh).
    split; [|split; [|split]].
    + unfold JsMap.keys in *. rewrite fmap_app. apply NoDup_app.
      split; [done|]. split; [|apply NoDup_singleton].
      intros k Hk Hk'. apply list_elem_of_singleton in Hk'. simpl in Hk'. subst k.
      by apply JsMap_get_None in Hget.
    + by rewrite fmap_app.
    + rewrite !fmap_app. apply NoDup_app.
      split; [done|]. split; [|apply NoDup_singleton].
      intros x Hx Hx'. apply list_elem_of_singleton in Hx'. simpl in Hx'. subst x.
      apply list_elem_of_fmap in Hx as ([k v] & Hkv & Hin). simpl in Hkv.
      apply list_elem_of_fmap in Hin as ([k' e'] & [= -> ->] & Hin).
      destruct (Hentries k' e' Hin) as (_ & Hlt & _). simpl in Hkv. lia.
    + intros k e [Hin|Hin]%elem_of_app.
      * destruct (Hentries k e Hin) as (? & ? & ? & ?).
        repeat split; auto. lia.
      * apply list_elem_of_singleton in Hin as [= -> ->]. cbn [page view].
        repeat split; try done. lia.
Qed.

Lemma consistent_destroyProfile env tr w id :
  consistent w →
  ∃ tr', (destroyProfile id env tr w).1 = (Ok tt, tr') ∧
         consistent (destroyProfile id env tr w).2 ∧
         _profiles (destroyProfile id env tr w).2 = JsMap.delete id (_profiles w).
Proof.
  intros Hc.
  destruct (JsMap.get id (_profiles w)) as [e|] eqn:Hget.
  2:{ unfold destroyProfile. unfold_monad. rewrite Hget. cbn [fst snd].
      exists tr. split; [done|]. split; [done|].
      by rewrite JsMap_delete_absent. }
  destruct Hc as (Hkeys & Hgrid & Hrefs & Hentries).
  destruct (Hentries id e (JsMap_get_elem_of _ _ _ Hget)) as (_ & _ & Hpage & _).
  destruct (destroyProfile_world env tr w id e Hget Hpage)
    as (tr' & w' & -> & Hpr & Hg & Hn & Hp & Hv).
  cbn [fst snd]. exists tr'. split; [done|]. split; [|done].
  unfold consistent, tracked in *. rewrite Hpr, Hg, Hgrid.
  split; [by apply JsMap_keys_delete_NoDup|].
  split; [by rewrite JsMap_fmap_delete|].
  split.
  - eapply sublist_NoDup; [exact Hrefs|].
    apply fmap_sublist, fmap_sublist, JsMap_delete_sublist.
  - intros k e0 Hin.
    destruct (Hentries k e0 (elem_of_sublist _ _ _ Hin (JsMap_delete_sublist id _)))
      as (? & ? & ? & ?).
    rewrite Hn. repeat split; auto.
Qed.

(** [destroyProfile] for each id of the profile map, in its order, leaves
    the map empty. *)
Lemma destroyEach_all env (l : list (string * Entry)) :
  ∀ tr w,
    _profiles w = l → consistent w →
    ∃ tr' w',
      destroyEach (JsMap.keys l) env tr w = (Ok tt, tr', w') ∧
      _profiles w' = [] ∧ consistent w'.
Proof.
  induction l as [|[k e] rest IH]; intros tr w Hl Hc.
  - exists tr, w. split; [done|]. by split.
  - unfold JsMap.keys in *. rewrite fmap_cons. cbn [fst destroyEach].
    unfold mbind, M_bind.
    destruct (consistent_destroyProfile env tr w k Hc) as (tr1 & E1 & Hc1 & Hp1).
    destruct (destroyProfile k env tr w) as [[r tr1'] w1].
    cbn [fst snd] in *. injection E1 as -> ->.
    rewrite Hl in Hp1. cbn [JsMap.delete] in Hp1. rewrite String.eqb_refl in Hp1.
    destruct (IH tr1 w1 Hp1 Hc1) as (tr' & w' & E & Hempty & Hc').
    exists tr', w'. by rewrite E.
Qed.

Lemma consistent_cleanup env tr w :
  consistent w →
  ∃ tr' w',
    cleanup env tr w = (Ok tt, tr', w') ∧
    _profiles w' = [] ∧ GridManager._views (_gridManager w') = [] ∧
    consistent w'.
Proof.
  intros Hc. unfold cleanup.
  rewrite (bind_ok getState _ env tr w w tr w) by reflexivity.
  destruct (destroyEach_all env (_profiles w) tr w eq_refl Hc)
    as (tr' & w' & E & Hempty & Hc').
  unfold listProfiles. erewrite bind_ok; [|exact E].
  eexists _, _. split; [reflexivity|].
  destruct Hc' as (Hkeys & Hgrid & Hrefs & Hentries).
  unfold consistent, tracked in *.
  cbn [withGrid _profiles _gridManager GridManager.destroy GridManager._views
       pages views nextRef].
  rewrite Hempty in *. split; [done|]. split; [done|].
  split; [done|]. split; [done|]. split; [done|].
  intros id e Hin. by apply elem_of_nil in Hin.
Qed.

Lemma consistent_run op env tr w :
  consistent w → consistent (run op env tr w).2.
Proof.
  intros Hc. destruct op; cbn [run].
  - unfold mbind, M_bind.
    pose proof (consistent_createProfile env tr w profileId options Hc) as H.
    by destruct (createProfile profileId options env tr w) as [[[r|err] tr'] w'].
  - by destruct (consistent_destroyProfile env tr w profileId Hc) as (_ & _ & H & _).
  - by destruct (consistent_cleanup env tr w Hc) as (tr' & w' & -> & _ & _ & H).
  - rewrite (bind_ok getState _ env tr w w tr w) by reflexivity.
    destruct (getProfile profileId w) as [r|]; [|done].
    unfold onPage. destruct (pages w !! r) as [p|] eqn:Hp; [|done].
    destruct (runOp op env tr p) as [[res tr'] p']. cbn [snd].
    destruct Hc as (Hkeys & Hgrid & Hrefs & Hentries).
    unfold consistent, tracked in *. cbn [withPage _profiles _gridManager pages
      views nextRef].
    repeat split; try done;
      destruct (Hentries id e H) as (? & ? & ? & ?); auto.
    apply lookup_insert_is_Some'. by right.
  - apply consistent_layout; [|done]. intros win g store.
    by destruct (layout_methods_frame win g store cols rows "") as (_ & H & _).
  - apply consistent_layout; [|done]. intros win g store.
    by destruct (layout_methods_frame win g store 0 0 "") as (_ & _ & H & _).
  - apply consistent_layout; [|done]. intros win g store.
    by destruct (layout_methods_frame win g store 0 0 profileId)
      as (_ & _ & _ & H & _).
  - apply consistent_layout; [|done]. intros win g store.
    by destruct (layout_methods_frame win g store 0 0 "") as (_ & _ & _ & _ & H).
  - unfold_monad. cbn [snd]. apply consistent_layout.
    + intros win g store.
      by destruct (layout_methods_frame win g store 0 0 "") as (H & _).
    + exact Hc.
Qed.

Lemma consistent_runAll ops env tr w :
  consistent w → consistent (runAll ops env tr w).2.
Proof.
  revert tr w. induction ops as [|op rest IH]; intros tr w Hc; [done|].
  cbn [runAll]. pose proof (consistent_run op env tr w Hc) as Hstep.
  destruct (run op env tr w) as [[r tr'] w']. by apply IH.
Qed.

(** X23: after any calls of the methods of the manager, of the pages it
    hands out and of the layout methods of its grid, and any resizes of
    the window, whatever host calls fail: the profile ids are distinct;
    the grid tracks exactly the profiles, in the same order, each with
    its own view; and [getProfile] of a listed id gives a page that
    exists. *)
Theorem manager_stays_consistent (ops : list ManagerOps.t) (env : Env)
    (size : Z * Z) :
  let w := (runAll ops env [] (new size)).2 in
  NoDup (listProfiles w) ∧
  JsMap.keys (GridManager._views (_gridManager w)) = listProfiles w ∧
  NoDup (GridManager._views (_gridManager w)).*2 ∧
  (∀ id, id ∈ listProfiles w →
     ∃ r, getProfile id w = Some r ∧ is_Some (pages w !! r) ∧
          JsMap.get id (GridManager._views (_gridManager w)) = Some r).
Proof.
  cbn zeta.
  destruct (consistent_runAll ops env [] (new size) (consistent_new size))
    as (Hkeys & Hgrid & Hrefs & Hentries).
  set (w := (runAll ops env [] (new size)).2) in *.
  unfold listProfiles, tracked in *. rewrite Hgrid.
  split; [done|].
  split; [unfold JsMap.keys; by rewrite <- list_fmap_compose|].
  split; [done|].
  intros id Hid. unfold JsMap.keys in Hid.
  apply list_elem_of_fmap in Hid as ([k e] & -> & Hin). cbn [fst].
  destruct (Hentries k e Hin) as (Hpv & _ & Hpage & _).
  exists (page e). unfold getProfile.
  rewrite (JsMap_elem_of_get k e _ Hkeys Hin). split; [done|]. split; [done|].
  apply JsMap_elem_of_get.
  - unfold JsMap.keys. by rewrite <- list_fmap_compose.
  - rewrite Hpv. by apply (list_elem_of_fmap_2' (λ e, (e.1, view e.2)) _ (k, e)).
Qed.

Lemma manager_stays_consistent_witness :
  let w := (runAll [CreateProfile "a" ManagerExample.options;
                    CreateProfile "b" ManagerExample.options;
                    Maximize "b"; DestroyProfile "a"]
              envOk [] (new (800, 600))).2 in
  ∃ r, getProfile "b" w = Some r ∧ is_Some (pages w !! r) ∧
       JsMap.get "b" (GridManager._views (_gridManager w)) = Some r.
Proof.
  apply (proj2 (proj2 (proj2 (manager_stays_consistent
           [CreateProfile "a" ManagerExample.options;
            CreateProfile "b" ManagerExample.options;
            Maximize "b"; DestroyProfile "a"] envOk (800, 600))))).
  vm_compute. left.
Defined.




(** X26: when [createProfile] throws for a new id (a host call such as
    [addBrowserView] failed), the id is in neither the profile map nor
    the grid, so [getProfile] and [listProfiles] do not know it; but the
    session registry has got the profile and a view was made.
    [destroyProfile] of the id then returns at once, so the manager
    offers no way to clear that session. *)
Theorem createProfile_failure_leaves_session (env : Env) (tr tr' : list Call)
    (w w' : BrowserManager.t) (id : string) (options : Options) (err : string) :
  JsMap.get id (_profiles w) = None →
  createProfile id options env tr w = (Throw err, tr', w') →
  getProfile id w' = None ∧
  listProfiles w' = listProfiles w ∧
  _gridManager w' = _gridManager w ∧
  (∃ profile,
     ProfileManager.get id (_profileManager w') = Some profile ∧
     ProfileManager.partition profile = ("persist:" ++ id)%string) ∧
  nextRef w' = S (nextRef w) ∧
  (∀ env2 tr2, destroyProfile id env2 tr2 w' = (Ok tt, tr2, w')).
Proof.
  intros Hget Hrun.
  destruct (createProfile_world env tr w id options Hget)
    as (r & tr1 & w1 & E & Hn & _ & _ & Hpm & Hcases).
  rewrite Hrun in E. injection E as <- <- <-.
  destruct Hcases as [(_ & Hpr & Hg)|(Hok & _)]; [|discriminate].
  unfold getProfile, listProfiles. rewrite Hpr, Hget.
  repeat split; try done.
  intros env2 tr2. unfold destroyProfile. unfold_monad. by rewrite Hpr, Hget.
Qed.

Lemma createProfile_failure_leaves_session_witness :
  let env : Env := λ _ c, match c with WindowAddBrowserView _ => true | _ => false end in
  let r := createProfile "a" ManagerExample.options env [] (new (800, 600)) in
  getProfile "a" r.2 = None ∧
  ∃ profile, ProfileManager.get "a" (_profileManager r.2) = Some profile ∧
             ProfileManager.partition profile = "persist:a"%string.
Proof.
  intros env r.
  destruct (createProfile_failure_leaves_session env [] r.1.2 (new (800, 600)) r.2
              "a" ManagerExample.options "host call failed" eq_refl eq_refl)
    as (Hnone & _ & _ & Hsession & _).
  by split.
Defined.
End ManagerMore.

(** ** waitForNavigation under any schedule of events and timers *)

Section NavSchedules.
Import IdleWait NavWait.
Local Open Scope Z_scope.

Lemma nav_start_pending env wc timeout :
  NavWait.start env wc timeout
  = ([WcOn wc "did-finish-load" PageOnFinishLoad;
      WcOn wc "render-process-gone" PageOnCrash;
      SetTimeout 1 timeout;
      WcOn wc "did-finish-load" (NavOnFinish 0);
      WcOn wc "did-fail-load" (NavOnFail 0)],
     pending wc).
Proof. by vm_compute. Qed.

Lemma nav_emit_pending env tr wc ev :
  Host.emit ev env tr (pending wc)
  = match ev with
    | DidFinishLoad =>
        (Ok tt,
         tr ++ [ClearTimeout 1] ++ NavWait.removals wc ++ [PromiseResolve wc 0],
         loaded wc (Ok tt))
    | DidFailLoad code desc =>
        (Ok tt,
         tr ++ [ClearTimeout 1] ++ NavWait.removals wc
            ++ [settleCall wc (failOutcome code desc)],
         loaded wc (failOutcome code desc))
    | _ => (Ok tt, tr, pending wc)
    end.
Proof.
  destruct ev; try reflexivity.
  - transitivity
      (Ok tt,
       (((tr ++ [ClearTimeout 1])
           ++ [WcRemoveListener wc "did-finish-load" (NavOnFinish 0)])
          ++ [WcRemoveListener wc "did-fail-load" (NavOnFail 0)])
         ++ [PromiseResolve wc 0],
       loaded wc (Ok tt)); [reflexivity|].
    by rewrite <- !app_assoc.
  - transitivity
      (Ok tt,
       (((tr ++ [ClearTimeout 1])
           ++ [WcRemoveListener wc "did-finish-load" (NavOnFinish 0)])
          ++ [WcRemoveListener wc "did-fail-load" (NavOnFail 0)])
         ++ [settleCall wc (failOutcome code desc)],
       loaded wc (failOutcome code desc)); [|by rewrite <- !app_assoc].
    unfold failOutcome, failMessage, Host.emit, pending.
    erewrite bind_ok; [|reflexivity].
    cbn [wcListeners page pageListeners navListeners app Host.invokeAll
         eventName String.eqb Ascii.eqb Bool.eqb andb Host.invoke].
    cbv [mbind M_bind mret M_ret]. unfold ElectronPage.onFail.
    cbv [mbind M_bind mret M_ret getState].
    destruct (code =? -3); reflexivity.
Qed.

Lemma nav_fire_pending env tr wc (id : nat) :
  Host.fire id env tr (pending wc)
  = if decide (id = 1%nat)
    then (Ok tt, tr ++ [PromiseResolve wc 0], timedOut wc)
    else (Ok tt, tr, pending wc).
Proof.
  destruct (decide (id = 1%nat)) as [->|Hne]; [reflexivity|].
  unfold Host.fire, pending.
  erewrite bind_ok; [|reflexivity].
  cbn [timers page armed].
  apply Nat.eqb_neq in Hne. by rewrite Nat.eqb_sym, Hne.
Qed.

Lemma nav_emit_loaded env tr wc o ev :
  Host.emit ev env tr (loaded wc o) = (Ok tt, tr, loaded wc o).
Proof. destruct ev; reflexivity. Qed.

Lemma nav_fire_loaded env tr wc o (id : nat) :
  Host.fire id env tr (loaded wc o) = (Ok tt, tr, loaded wc o).
Proof. reflexivity. Qed.

Lemma nav_emit_timedOut env tr wc ev :
  Host.emit ev env tr (timedOut wc) = (Ok tt, tr, timedOut wc).
Proof. destruct ev; reflexivity. Qed.

Lemma nav_fire_timedOut env tr wc (id : nat) :
  Host.fire id env tr (timedOut wc) = (Ok tt, tr, timedOut wc).
Proof. reflexivity. Qed.

Lemma nav_schedule_step env wc op (seen : list PageOp) (st : list Call * Page) :
  isHostStep op = true →
  let st' := ((runOp op env st.1 st.2).1.2, (runOp op env st.1 st.2).2) in
  (pendingAt wc st →
   pendingAt wc st' ∨ loadedAt wc (seen ++ [op]) st'
   ∨ timedOutAt wc (seen ++ [op]) st') ∧
  (loadedAt wc seen st → loadedAt wc (seen ++ [op]) st') ∧
  (timedOutAt wc seen st → timedOutAt wc (seen ++ [op]) st').
Proof.
  destruct st as [tr p]. intros Hop.
  unfold pendingAt, loadedAt, timedOutAt. cbn [fst snd].
  assert (op ∈ seen ++ [op]) as Hlast by (apply elem_of_app; right; left).
  split; [|split].
  - intros [-> Htr]. destruct op; try discriminate; cbn [runOp].
    + rewrite nav_emit_pending. destruct ev; cbn [fst snd]; try by left.
      * right; left. exists (Ok tt). split; [done|].
        rewrite filter_app, Htr. split; [reflexivity|]. left. by eauto.
      * right; left. exists (failOutcome code desc). split; [done|].
        rewrite filter_app, Htr. split; [by destruct (failOutcome code desc)|].
        unfold failOutcome. destruct (Z.eqb_spec code (-3)) as [->|Hne].
        -- left. split; [done|]. right. by eauto.
        -- right. by eauto.
    + rewrite nav_fire_pending.
      destruct (decide (timer = 1%nat)) as [->|Hne]; cbn [fst snd]; [|by left].
      right; right. rewrite filter_app, Htr. by repeat split.
  - intros (o & -> & Htr & Hwhy). exists o.
    assert (∀ x, x ∈ seen → x ∈ seen ++ [op]) as Hmono
      by (intros x Hx; apply elem_of_app; by left).
    destruct op; try discriminate; cbn [runOp];
      rewrite ?nav_emit_loaded, ?nav_fire_loaded; cbn [fst snd];
      (split; [done|]); (split; [done|]);
      destruct Hwhy as [[-> [H|[d H]]]|(c & d & H & Hc & ->)]; eauto 10.
  - intros (-> & Htr & Hfire).
    assert (HostFire 1 ∈ seen ++ [op]) by (apply elem_of_app; by left).
    destruct op; try discriminate; cbn [runOp];
      rewrite ?nav_emit_timedOut, ?nav_fire_timedOut; by cbn [fst snd].
Qed.

Lemma nav_schedule_runOps env wc ops :
  ∀ (seen : list PageOp) (st : list Call * Page),
    forallb isHostStep ops = true →
    let st' := runOps ops env st.1 st.2 in
    (pendingAt wc st →
     pendingAt wc st' ∨ loadedAt wc (seen ++ ops) st'
     ∨ timedOutAt wc (seen ++ ops) st') ∧
    (loadedAt wc seen st → loadedAt wc (seen ++ ops) st') ∧
    (timedOutAt wc seen st → timedOutAt wc (seen ++ ops) st').
Proof.
  induction ops as [|op rest IH]; intros seen [tr p] Hops.
  { cbn [runOps fst snd]. rewrite app_nil_r. split; [by left|done]. }
  cbn [forallb] in Hops. apply andb_prop in Hops as [Hop Hrest].
  cbn [runOps fst snd].
  pose proof (nav_schedule_step env wc op seen (tr, p) Hop) as Hstep.
  cbn [fst snd] in Hstep.
  destruct (runOp op env tr p) as [[r tr'] p']. cbn [fst snd] in Hstep.
  destruct Hstep as (Hpend & Hload & Hout).
  specialize (IH (seen ++ [op]) (tr', p') Hrest). cbn [fst snd] in IH.
  rewrite <- app_assoc in IH. cbn [app] in IH.
  destruct IH as (IHp & IHl & IHt).
  split; [|split].
  - intros Hp. destruct (Hpend Hp) as [H|[H|H]]; auto.
  - intros Hl. by apply IHl, Hload.
  - intros Ht. by apply IHt, Hout.
Qed.

(** X27: [waitForNavigation] under any schedule.  On a page made with the
    default options, after [waitForNavigation] has returned its promise,
    let the host emit any events and fire any timers, in any order.  Then
    the wait is in one of three states.  Pending: both listeners are
    registered, the timer is armed, nothing was removed.  Settled by a
    load event: both listeners were removed, once each, before the one
    call that settles the promise, and no timer is left; the promise is
    rejected only when a ['did-fail-load'] with a code other than -3 was
    emitted, and with the message made from that event.  Timed out: the
    timer has fired, the promise is resolved by the one [resolve], and
    both listeners are still registered: no later event removes them. *)
Theorem waitForNavigation_any_schedule (env : Env) (wc : nat) (timeout : Z)
    (ops : list PageOp) :
  forallb isHostStep ops = true →
  let s0 := NavWait.start env wc timeout in
  let final := runOps ops env s0.1 s0.2 in
  let settleCalls := filter (λ c, isSettleCall c = true) final.1 in
  ∃ v,
    waits final.2 !! 0%nat = Some v ∧
    ((w_settled v = None ∧
      wcListeners final.2 = pageListeners ++ navListeners ∧
      armed 1 (timers final.2) = Some (NavTimeout 0) ∧
      settleCalls = [])
     ∨
     (∃ o, w_settled v = Some o ∧
           wcListeners final.2 = pageListeners ∧
           timers final.2 = [] ∧
           settleCalls = NavWait.removals wc ++ [settleCall wc o] ∧
           (∀ err, o = Throw err →
              ∃ code desc,
                HostEmit (DidFailLoad code desc) ∈ ops ∧ code ≠ -3 ∧
                err = failMessage code desc))
     ∨
     (w_settled v = Some (Ok tt) ∧
      wcListeners final.2 = pageListeners ++ navListeners ∧
      timers final.2 = [] ∧
      settleCalls = [PromiseResolve wc 0] ∧
      HostFire 1 ∈ ops)).
Proof.
  intros Hops s0 final settleCalls. subst settleCalls.
  assert (pendingAt wc s0) as Hstart
    by (subst s0; rewrite nav_start_pending; by split).
  destruct (nav_schedule_runOps env wc ops [] s0 Hops) as [Hp _].
  cbn [app] in Hp. fold final in Hp.
  destruct (Hp Hstart) as [[Hst Htr]|[(o & Hst & Htr & Hwhy)|(Hst & Htr & Hfire)]].
  - eexists. rewrite Hst. split; [apply waits_page|]. left. by repeat split.
  - eexists. rewrite Hst. split; [apply waits_page|]. right; left.
    exists o. repeat split; try done.
    intros err ->.
    destruct Hwhy as [[[=] _]|(code & desc & Hin & Hne & [= ->])]. by eauto.
  - eexists. rewrite Hst. split; [apply waits_page|]. right; right.
    by repeat split.
Qed.

Lemma waitForNavigation_any_schedule_witness :
  let s0 := NavWait.start envOk 7 30000 in
  let final := runOps [HostEmit DidStartLoading;
                       HostEmit (DidFailLoad (-105) "ERR_NAME_NOT_RESOLVED");
                       HostFire 1] envOk s0.1 s0.2 in
  ∃ v, waits final.2 !! 0%nat = Some v.
Proof.
  destruct (waitForNavigation_any_schedule envOk 7 30000
              [HostEmit DidStartLoading;
               HostEmit (DidFailLoad (-105) "ERR_NAME_NOT_RESOLVED");
               HostFire 1] eq_refl)
    as (v & Hv & _).
  by exists v.
Defined.
End NavSchedules.

(** ** The permission handlers *)

Section PermissionHandlers.
Import Permissions.

(** X28: after [setPermissions(permissions)] both handlers of the session
    are set.  The check handler refuses a permission exactly when its
    setting is ['deny']: every other setting, ['prompt'] and a missing one
    included, grants it.  The request handler grants exactly what the
    check handler grants, but to the page's own contents only: for other
    contents of the same session the two handlers disagree on every
    permission that is not set to ['deny']. *)
Theorem setPermissions_answers (s : Session) (own : nat)
    (permissions : gmap string string) (wc : nat) (permission : string) :
  ∃ h c,
    permissionRequestHandler (setPermissions own permissions s) = Some h ∧
    permissionCheckHandler (setPermissions own permissions s) = Some c ∧
    (check c wc permission = false
     ↔ permissions !! permission = Some "deny"%string) ∧
    (request h wc permission = true
     ↔ wc = own ∧ check c wc permission = true).
Proof.
  eexists _, _. split; [reflexivity|]. split; [reflexivity|].
  cbn [request check].
  destruct (decide (wc ≠ own)) as [Hne|Heq%dec_stable].
  - destruct (decide (permissions !! permission = Some "grant"%string)) as [Hg|Hg];
      [|destruct (decide (permissions !! permission = Some "deny"%string))];
      split; try split; try done; try (by intros [? _]); try congruence.
  - destruct (decide (permissions !! permission = Some "grant"%string)) as [Hg|Hg];
      [|destruct (decide (permissions !! permission = Some "deny"%string))];
      split; try split; try done; try (by intros [_ ?]); try congruence.
Qed.
End PermissionHandlers.
